(** * Natron tree render engine: scheduling core of [Engine/TreeRender.cpp]

    A shallow embedding of the dependency scheduler of a tree render
    ([TreeRender], [TreeRenderExecutionData], [FrameViewRenderRunnable])
    and the properties of its ready set, its status propagation and its
    result slots.

    Conventions.
    - Shared pointers are addresses ([positive]); a pointer that may be
      null is an [option].
    - Every mutex-protected block of the source is one atomic step of the
      model; the mutexes themselves are not represented.
    - C++ [int] values are [Z] with the 32-bit wrap-around written out.
    - A failed [assert], a null dereference and a C++ exception are results
      of the error monad [Res]; loops that are not structurally recursive
      take fuel, and running out of fuel is a separate result. *)

From Stdlib Require Import ZArith Lia Sorted.
From stdpp Require Import gmap list option.
From stdpp Require sorting.

Local Open Scope Z_scope.

(** ** Results of fallible code

    A thrown C++ exception is either derived from [std::exception]
    ([StdException]) or any other thrown value ([CxxException]):
    [catch (const std::exception&)] takes the first kind only,
    [catch (...)] takes both. *)

Inductive Failure :=
| AssertionFailed
| NullDereference
| CxxException
| StdException
| OutOfFuel.

Inductive Res (A : Type) :=
| Ok (a : A)
| Err (e : Failure).
Arguments Ok {A} a.
Arguments Err {A} e.

Definition res_bind {A B : Type} (m : Res A) (k : A -> Res B) : Res B :=
  match m with
  | Ok a => k a
  | Err e => Err e
  end.

Notation "'do' x <- m ;; k" := (res_bind m (fun x => k))
  (at level 10, x pattern, m at level 99, k at level 200).

(** [NDEBUG] is the build switch of [<cassert>]: when it is set, [assert]
    expands to nothing. *)
Definition assert (NDEBUG : bool) (b : bool) : Res unit :=
  if NDEBUG || b then Ok tt else Err AssertionFailed.

(** ** 32-bit integers *)

Definition wrap32 (z : Z) : Z := (z + 2 ^ 31) mod 2 ^ 32 - 2 ^ 31.

Definition int32 (z : Z) : Prop := - 2 ^ 31 <= z < 2 ^ 31.

(** ** Status codes *)

(** Modelled from the spec: [ActionRetCodeEnum] is declared outside this
    file; the spec lists the codes OK, Failed and Aborted. *)
Inductive ActionRetCodeEnum :=
| eActionStatusOK
| eActionStatusFailed
| eActionStatusAborted.

(** Modelled from the spec: [isFailureRetCode] is the policy predicate,
    true of any failure, abort included. *)
Definition isFailureRetCode (stat : ActionRetCodeEnum) : bool :=
  match stat with
  | eActionStatusOK => false
  | eActionStatusFailed => true
  | eActionStatusAborted => true
  end.

Global Instance ActionRetCodeEnum_eq_dec : EqDecision ActionRetCodeEnum.
Proof. solve_decision. Defined.

(** Modelled from the spec: the status of a frame-view request. *)
Inductive FrameViewRequestStatusEnum :=
| eFrameViewRequestStatusNotRendered
| eFrameViewRequestStatusRendered
| eFrameViewRequestStatusFailed
| eFrameViewRequestStatusAborted.

Global Instance FrameViewRequestStatusEnum_eq_dec :
  EqDecision FrameViewRequestStatusEnum.
Proof. solve_decision. Defined.

(** ** Nodes, effects and frame-view requests *)

Abbreviation NodePtr := positive (only parsing).
Abbreviation NodeGroupPtr := positive (only parsing).
Abbreviation FrameViewRequestPtr := positive (only parsing).
Abbreviation KnobHolderPtr := positive (only parsing).
Abbreviation OSGLContextPtr := positive (only parsing).

(** What this file reads of an [EffectInstance]: its node ([getNode]),
    whether it is a [GroupInput] (the [dynamic_cast] of [create]) and
    whether it is a render clone. *)
Record EffectInstance := {
  getNode : NodePtr;
  isGroupInput : bool;
  isRenderClone : bool;
}.

Global Instance EffectInstance_inhabited : Inhabited EffectInstance :=
  populate {| getNode := 1%positive; isGroupInput := false; isRenderClone := false |}.

(** Modelled from the spec: the [FrameViewRequest] class is outside this
    file.  Per execution a request has the multiset of upstream requests
    it still waits for, its listeners (the reverse edges) and the upstream
    results it retains; its remaining dependency count is the size of the
    first. *)
Record FrameViewRequest := {
  getEffect : EffectInstance;
  fvrStatus : FrameViewRequestStatusEnum;
  dependencies : list FrameViewRequestPtr;
  listeners : list FrameViewRequestPtr;
  cachedInputResults : list FrameViewRequestPtr;
}.

Global Instance FrameViewRequest_inhabited : Inhabited FrameViewRequest :=
  populate {| getEffect := inhabitant;
              fvrStatus := eFrameViewRequestStatusNotRendered;
              dependencies := []; listeners := []; cachedInputResults := [] |}.

(** The requests of one execution, by address. *)
Abbreviation RequestHeap := (gmap positive FrameViewRequest) (only parsing).

(** Modelled from the spec: [getNumDependencies(execution)]. *)
Definition getNumDependencies (h : RequestHeap) (r : FrameViewRequestPtr) : Z :=
  Z.of_nat (length (dependencies (h !!! r))).

(** Modelled from the spec: [getListeners(execution)], a snapshot. *)
Definition getListeners (h : RequestHeap) (r : FrameViewRequestPtr)
  : list FrameViewRequestPtr :=
  listeners (h !!! r).

(** Removes one occurrence of [x] from a multiset. *)
Fixpoint remove_one (x : positive) (l : list positive) : list positive :=
  match l with
  | [] => []
  | y :: l' => if decide (x = y) then l' else y :: remove_one x l'
  end.

(** Modelled from the spec: [markDependencyAsRendered(execution, other)]
    takes [other] out of the dependencies that remain and returns the new
    count. *)
Definition markDependencyAsRendered (h : RequestHeap)
    (l other : FrameViewRequestPtr) : Z * RequestHeap :=
  let fvr := h !!! l in
  let fvr' := {| getEffect := getEffect fvr;
                 fvrStatus := fvrStatus fvr;
                 dependencies := remove_one other (dependencies fvr);
                 listeners := listeners fvr;
                 cachedInputResults := cachedInputResults fvr |} in
  (Z.of_nat (length (dependencies fvr')), <[l := fvr']> h).

(** Modelled from the spec: [clearRenderedDependencies(execution)] drops
    the retained upstream results. *)
Definition clearRenderedDependencies (h : RequestHeap)
    (r : FrameViewRequestPtr) : RequestHeap :=
  let fvr := h !!! r in
  <[r := {| getEffect := getEffect fvr;
            fvrStatus := fvrStatus fvr;
            dependencies := dependencies fvr;
            listeners := listeners fvr;
            cachedInputResults := [] |}]> h.

(** ** The dependency-free set

    [std::set<FrameViewRequestPtr, FrameViewRequestComparePriority>]: the
    comparator orders requests by address, so the set is a strictly
    increasing list and [begin()] is its head. *)
Abbreviation DependencyFreeRenderSet := (list positive) (only parsing).

Fixpoint set_insert (x : positive) (l : list positive) : list positive :=
  match l with
  | [] => [x]
  | y :: l' =>
      if (x <? y)%positive then x :: l
      else if (x =? y)%positive then l
      else y :: set_insert x l'
  end.

Definition set_find (x : positive) (l : list positive) : bool :=
  bool_decide (x ∈ l).

(** ** Values the engine stores and forwards *)

(** Modelled from the spec: [RectI], an integer rectangle. *)
Record RectI := { x1 : Z; y1 : Z; x2 : Z; y2 : Z }.

(** Modelled from the spec: [RectD], the canonical region of interest.
    Its coordinates are doubles; the engine never computes with them, so a
    rectangle is an opaque value with its null test ([isNull]) as a field. *)
Record RectD := { rectId : Z; isNull : bool }.

(** Modelled from the spec: [ImagePlaneDesc], an image component layout. *)
Record ImagePlaneDesc := { planeId : Z; getNumComponents : Z }.

(** [TimeValue] and [RenderScale] hold doubles that are only forwarded. *)
Abbreviation TimeValue := Z (only parsing).
Abbreviation ViewIdx := Z (only parsing).
Abbreviation RenderScale := Z (only parsing).

Record RotoDrawableItem := {
  itemId : positive;
  isRotoStrokeItem : bool;
}.

Record Settings := {
  isNaNHandlingEnabled : bool;
  isTransformConcatenationEnabled : bool;
}.

(** ** Construction arguments, [TreeRender::CtorArgs] *)

Record CtorArgs := {
  time : TimeValue;
  view : ViewIdx;
  treeRootEffect : EffectInstance;
  extraNodesToSample : list NodePtr;
  activeRotoDrawableItem : option RotoDrawableItem;
  stats : option positive;
  canonicalRoI : RectD;
  plane : ImagePlaneDesc;
  proxyScale : RenderScale;
  mipMapLevel : Z;
  draftMode : bool;
  playback : bool;
  byPassCache : bool;
  preventConcurrentTreeRenders : bool;
}.

Definition with_treeRootEffect (e : EffectInstance) (a : CtorArgs) : CtorArgs :=
  {| time := time a; view := view a; treeRootEffect := e;
     extraNodesToSample := extraNodesToSample a;
     activeRotoDrawableItem := activeRotoDrawableItem a;
     stats := stats a; canonicalRoI := canonicalRoI a; plane := plane a;
     proxyScale := proxyScale a; mipMapLevel := mipMapLevel a;
     draftMode := draftMode a; playback := playback a;
     byPassCache := byPassCache a;
     preventConcurrentTreeRenders := preventConcurrentTreeRenders a |}.

(** ** [TreeRenderPrivate] *)

Record TreeRenderPrivate := {
  ctorArgs : option CtorArgs;
  state : ActionRetCodeEnum;
  renderClones : list KnobHolderPtr;
  outputRequest : option FrameViewRequestPtr;
  extraRequestedResults : gmap positive (option FrameViewRequestPtr);
  activeStrokeUpdateArea : RectI;
  activeStrokeUpdateAreaSet : bool;
  openGLContext : option OSGLContextPtr;
  cpuOpenGLContext : option OSGLContextPtr;
  aborted : Z;
  handleNaNs : bool;
  useConcatenations : bool;
}.

(** The constructor's initializer list. *)
Definition TreeRenderPrivate_new : TreeRenderPrivate :=
  {| ctorArgs := None;
     state := eActionStatusOK;
     renderClones := [];
     outputRequest := None;
     extraRequestedResults := ∅;
     activeStrokeUpdateArea := {| x1 := 0; y1 := 0; x2 := 0; y2 := 0 |};
     activeStrokeUpdateAreaSet := false;
     openGLContext := None;
     cpuOpenGLContext := None;
     aborted := 0;
     handleNaNs := true;
     useConcatenations := true |}.

Definition with_ctorArgs (v : option CtorArgs) (r : TreeRenderPrivate) :=
  {| ctorArgs := v; state := state r; renderClones := renderClones r;
     outputRequest := outputRequest r;
     extraRequestedResults := extraRequestedResults r;
     activeStrokeUpdateArea := activeStrokeUpdateArea r;
     activeStrokeUpdateAreaSet := activeStrokeUpdateAreaSet r;
     openGLContext := openGLContext r; cpuOpenGLContext := cpuOpenGLContext r;
     aborted := aborted r; handleNaNs := handleNaNs r;
     useConcatenations := useConcatenations r |}.

Definition with_state (v : ActionRetCodeEnum) (r : TreeRenderPrivate) :=
  {| ctorArgs := ctorArgs r; state := v; renderClones := renderClones r;
     outputRequest := outputRequest r;
     extraRequestedResults := extraRequestedResults r;
     activeStrokeUpdateArea := activeStrokeUpdateArea r;
     activeStrokeUpdateAreaSet := activeStrokeUpdateAreaSet r;
     openGLContext := openGLContext r; cpuOpenGLContext := cpuOpenGLContext r;
     aborted := aborted r; handleNaNs := handleNaNs r;
     useConcatenations := useConcatenations r |}.

Definition with_renderClones (v : list KnobHolderPtr) (r : TreeRenderPrivate) :=
  {| ctorArgs := ctorArgs r; state := state r; renderClones := v;
     outputRequest := outputRequest r;
     extraRequestedResults := extraRequestedResults r;
     activeStrokeUpdateArea := activeStrokeUpdateArea r;
     activeStrokeUpdateAreaSet := activeStrokeUpdateAreaSet r;
     openGLContext := openGLContext r; cpuOpenGLContext := cpuOpenGLContext r;
     aborted := aborted r; handleNaNs := handleNaNs r;
     useConcatenations := useConcatenations r |}.

Definition with_outputRequest (v : option FrameViewRequestPtr)
    (r : TreeRenderPrivate) :=
  {| ctorArgs := ctorArgs r; state := state r; renderClones := renderClones r;
     outputRequest := v;
     extraRequestedResults := extraRequestedResults r;
     activeStrokeUpdateArea := activeStrokeUpdateArea r;
     activeStrokeUpdateAreaSet := activeStrokeUpdateAreaSet r;
     openGLContext := openGLContext r; cpuOpenGLContext := cpuOpenGLContext r;
     aborted := aborted r; handleNaNs := handleNaNs r;
     useConcatenations := useConcatenations r |}.

Definition with_extraRequestedResults
    (v : gmap positive (option FrameViewRequestPtr)) (r : TreeRenderPrivate) :=
  {| ctorArgs := ctorArgs r; state := state r; renderClones := renderClones r;
     outputRequest := outputRequest r;
     extraRequestedResults := v;
     activeStrokeUpdateArea := activeStrokeUpdateArea r;
     activeStrokeUpdateAreaSet := activeStrokeUpdateAreaSet r;
     openGLContext := openGLContext r; cpuOpenGLContext := cpuOpenGLContext r;
     aborted := aborted r; handleNaNs := handleNaNs r;
     useConcatenations := useConcatenations r |}.

Definition with_activeStrokeUpdateArea (area : RectI) (set : bool)
    (r : TreeRenderPrivate) :=
  {| ctorArgs := ctorArgs r; state := state r; renderClones := renderClones r;
     outputRequest := outputRequest r;
     extraRequestedResults := extraRequestedResults r;
     activeStrokeUpdateArea := area;
     activeStrokeUpdateAreaSet := set;
     openGLContext := openGLContext r; cpuOpenGLContext := cpuOpenGLContext r;
     aborted := aborted r; handleNaNs := handleNaNs r;
     useConcatenations := useConcatenations r |}.

Definition with_openGLContexts (gl cpu : option OSGLContextPtr)
    (r : TreeRenderPrivate) :=
  {| ctorArgs := ctorArgs r; state := state r; renderClones := renderClones r;
     outputRequest := outputRequest r;
     extraRequestedResults := extraRequestedResults r;
     activeStrokeUpdateArea := activeStrokeUpdateArea r;
     activeStrokeUpdateAreaSet := activeStrokeUpdateAreaSet r;
     openGLContext := gl; cpuOpenGLContext := cpu;
     aborted := aborted r; handleNaNs := handleNaNs r;
     useConcatenations := useConcatenations r |}.

Definition with_aborted (v : Z) (r : TreeRenderPrivate) :=
  {| ctorArgs := ctorArgs r; state := state r; renderClones := renderClones r;
     outputRequest := outputRequest r;
     extraRequestedResults := extraRequestedResults r;
     activeStrokeUpdateArea := activeStrokeUpdateArea r;
     activeStrokeUpdateAreaSet := activeStrokeUpdateAreaSet r;
     openGLContext := openGLContext r; cpuOpenGLContext := cpuOpenGLContext r;
     aborted := v; handleNaNs := handleNaNs r;
     useConcatenations := useConcatenations r |}.

Definition with_settings (nans concat : bool) (r : TreeRenderPrivate) :=
  {| ctorArgs := ctorArgs r; state := state r; renderClones := renderClones r;
     outputRequest := outputRequest r;
     extraRequestedResults := extraRequestedResults r;
     activeStrokeUpdateArea := activeStrokeUpdateArea r;
     activeStrokeUpdateAreaSet := activeStrokeUpdateAreaSet r;
     openGLContext := openGLContext r; cpuOpenGLContext := cpuOpenGLContext r;
     aborted := aborted r; handleNaNs := nans;
     useConcatenations := concat |}.

(** ** The execution data, [TreeRenderExecutionDataPrivate]

    Besides the fields of the struct, the record carries the two pieces of
    the environment the scheduler acts on: the requests of this execution
    ([requests]) and the queue of the global thread pool ([threadPool]),
    which receives the runnables passed to [QThreadPool::start]. *)
Record TreeRenderExecutionData := {
  isMainExecutionOfTree : bool;
  dependencyFreeRenders : option DependencyFreeRenderSet;
  allRenderTasksToProcess : gset positive;
  status : ActionRetCodeEnum;
  exec_canonicalRoI : RectD;
  exec_plane : ImagePlaneDesc;
  exec_outputRequest : option FrameViewRequestPtr;
  launchedRunnables : list FrameViewRequestPtr;
  requests : RequestHeap;
  threadPool : list FrameViewRequestPtr;
}.

(** The constructor's initializer list. *)
Definition TreeRenderExecutionData_new : TreeRenderExecutionData :=
  {| isMainExecutionOfTree := false;
     dependencyFreeRenders := None;
     allRenderTasksToProcess := ∅;
     status := eActionStatusOK;
     exec_canonicalRoI := {| rectId := 0; isNull := true |};
     exec_plane := {| planeId := 0; getNumComponents := 0 |};
     exec_outputRequest := None;
     launchedRunnables := [];
     requests := ∅;
     threadPool := [] |}.

Definition with_isMainExecutionOfTree (v : bool) (s : TreeRenderExecutionData) :=
  {| isMainExecutionOfTree := v;
     dependencyFreeRenders := dependencyFreeRenders s;
     allRenderTasksToProcess := allRenderTasksToProcess s;
     status := status s; exec_canonicalRoI := exec_canonicalRoI s;
     exec_plane := exec_plane s; exec_outputRequest := exec_outputRequest s;
     launchedRunnables := launchedRunnables s;
     requests := requests s; threadPool := threadPool s |}.

Definition with_dependencyFreeRenders (v : option DependencyFreeRenderSet)
    (s : TreeRenderExecutionData) :=
  {| isMainExecutionOfTree := isMainExecutionOfTree s;
     dependencyFreeRenders := v;
     allRenderTasksToProcess := allRenderTasksToProcess s;
     status := status s; exec_canonicalRoI := exec_canonicalRoI s;
     exec_plane := exec_plane s; exec_outputRequest := exec_outputRequest s;
     launchedRunnables := launchedRunnables s;
     requests := requests s; threadPool := threadPool s |}.

Definition with_allRenderTasksToProcess (v : gset positive)
    (s : TreeRenderExecutionData) :=
  {| isMainExecutionOfTree := isMainExecutionOfTree s;
     dependencyFreeRenders := dependencyFreeRenders s;
     allRenderTasksToProcess := v;
     status := status s; exec_canonicalRoI := exec_canonicalRoI s;
     exec_plane := exec_plane s; exec_outputRequest := exec_outputRequest s;
     launchedRunnables := launchedRunnables s;
     requests := requests s; threadPool := threadPool s |}.

Definition with_status (v : ActionRetCodeEnum) (s : TreeRenderExecutionData) :=
  {| isMainExecutionOfTree := isMainExecutionOfTree s;
     dependencyFreeRenders := dependencyFreeRenders s;
     allRenderTasksToProcess := allRenderTasksToProcess s;
     status := v; exec_canonicalRoI := exec_canonicalRoI s;
     exec_plane := exec_plane s; exec_outputRequest := exec_outputRequest s;
     launchedRunnables := launchedRunnables s;
     requests := requests s; threadPool := threadPool s |}.

Definition with_exec_canonicalRoI (v : RectD) (s : TreeRenderExecutionData) :=
  {| isMainExecutionOfTree := isMainExecutionOfTree s;
     dependencyFreeRenders := dependencyFreeRenders s;
     allRenderTasksToProcess := allRenderTasksToProcess s;
     status := status s; exec_canonicalRoI := v;
     exec_plane := exec_plane s; exec_outputRequest := exec_outputRequest s;
     launchedRunnables := launchedRunnables s;
     requests := requests s; threadPool := threadPool s |}.

Definition with_exec_plane (v : ImagePlaneDesc) (s : TreeRenderExecutionData) :=
  {| isMainExecutionOfTree := isMainExecutionOfTree s;
     dependencyFreeRenders := dependencyFreeRenders s;
     allRenderTasksToProcess := allRenderTasksToProcess s;
     status := status s; exec_canonicalRoI := exec_canonicalRoI s;
     exec_plane := v; exec_outputRequest := exec_outputRequest s;
     launchedRunnables := launchedRunnables s;
     requests := requests s; threadPool := threadPool s |}.

Definition with_exec_outputRequest (v : option FrameViewRequestPtr)
    (s : TreeRenderExecutionData) :=
  {| isMainExecutionOfTree := isMainExecutionOfTree s;
     dependencyFreeRenders := dependencyFreeRenders s;
     allRenderTasksToProcess := allRenderTasksToProcess s;
     status := status s; exec_canonicalRoI := exec_canonicalRoI s;
     exec_plane := exec_plane s; exec_outputRequest := v;
     launchedRunnables := launchedRunnables s;
     requests := requests s; threadPool := threadPool s |}.

Definition with_requests (v : RequestHeap) (s : TreeRenderExecutionData) :=
  {| isMainExecutionOfTree := isMainExecutionOfTree s;
     dependencyFreeRenders := dependencyFreeRenders s;
     allRenderTasksToProcess := allRenderTasksToProcess s;
     status := status s; exec_canonicalRoI := exec_canonicalRoI s;
     exec_plane := exec_plane s; exec_outputRequest := exec_outputRequest s;
     launchedRunnables := launchedRunnables s;
     requests := v; threadPool := threadPool s |}.

(** [launchedRunnables.insert(runnable); threadPool->start(runnable.get())] *)
Definition startRunnable (request : FrameViewRequestPtr)
    (s : TreeRenderExecutionData) :=
  {| isMainExecutionOfTree := isMainExecutionOfTree s;
     dependencyFreeRenders := dependencyFreeRenders s;
     allRenderTasksToProcess := allRenderTasksToProcess s;
     status := status s; exec_canonicalRoI := exec_canonicalRoI s;
     exec_plane := exec_plane s; exec_outputRequest := exec_outputRequest s;
     launchedRunnables := launchedRunnables s ++ [request];
     requests := requests s; threadPool := threadPool s ++ [request] |}.

Definition with_threadPool (v : list FrameViewRequestPtr)
    (s : TreeRenderExecutionData) :=
  {| isMainExecutionOfTree := isMainExecutionOfTree s;
     dependencyFreeRenders := dependencyFreeRenders s;
     allRenderTasksToProcess := allRenderTasksToProcess s;
     status := status s; exec_canonicalRoI := exec_canonicalRoI s;
     exec_plane := exec_plane s; exec_outputRequest := exec_outputRequest s;
     launchedRunnables := launchedRunnables s;
     requests := requests s; threadPool := v |}.

(** ** The environment of the engine

    Everything the file calls and does not define: the node graph, the
    settings, the OpenGL context pool and the actions of effects; and the
    two build switches the file depends on.  A call that can throw returns
    a [Res]. *)

(** What [requestRender] leaves behind: its return code, the requests it
    allocated and wired, the requests it passed to [addTaskToRender] (in
    call order) and the output request. *)
Record RequestPass := {
  pass_status : ActionRetCodeEnum;
  pass_requests : RequestHeap;
  pass_tasks : list FrameViewRequestPtr;
  pass_outputRequest : option FrameViewRequestPtr;
}.

Record Application := {
  NDEBUG : bool;
  TREE_RENDER_DISABLE_MT : bool;
  (* toNodeGroup(node->getGroup()) *)
  getGroup : NodePtr -> option NodeGroupPtr;
  getRealInputForInput : NodeGroupPtr -> NodePtr -> option NodePtr;
  getEffectInstance : NodePtr -> EffectInstance;
  getCurrentSettings : Res (option Settings);
  getDrawingGLContext :
    RotoDrawableItem -> option OSGLContextPtr * option OSGLContextPtr;
  getOrCreateOpenGLContext : bool -> Res (option OSGLContextPtr);
  getOrCreateCPUOpenGLContext : bool -> Res (option OSGLContextPtr);
  createRenderClone : EffectInstance -> TimeValue -> ViewIdx -> EffectInstance;
  getLayersProducedAndNeeded_public :
    EffectInstance -> TimeValue -> ViewIdx ->
    ActionRetCodeEnum * option (list ImagePlaneDesc);
  getRegionOfDefinition_public :
    EffectInstance -> TimeValue -> RenderScale -> ViewIdx ->
    ActionRetCodeEnum * option RectD;
  getCombinedScale : Z -> RenderScale -> RenderScale;
  requestRender :
    EffectInstance -> TimeValue -> ViewIdx -> RenderScale -> Z ->
    ImagePlaneDesc -> RectD -> RequestPass;
  launchNodeRender : FrameViewRequestPtr -> ActionRetCodeEnum;
}.

(** ** [TreeRender] *)

Section TreeRender.
Context (app : Application).

Definition getExtraRequestedResultsForNode (render : TreeRenderPrivate)
    (node : NodePtr) : option FrameViewRequestPtr :=
  match extraRequestedResults render !! node with
  | None => None
  | Some found => found
  end.

Definition isExtraResultsRequestedForNode (render : TreeRenderPrivate)
    (node : NodePtr) : bool :=
  match extraRequestedResults render !! node with
  | None => false
  | Some _ => true
  end.

(** Returns the result and the contents of [*updateArea] on return. *)
Definition getRotoPaintActiveStrokeUpdateArea (render : TreeRenderPrivate)
    (updateArea : RectI) : bool * RectI :=
  if negb (activeStrokeUpdateAreaSet render) then (false, updateArea)
  else (true, activeStrokeUpdateArea render).

Definition setActiveStrokeUpdateArea (render : TreeRenderPrivate)
    (area : RectI) : TreeRenderPrivate :=
  with_activeStrokeUpdateArea area true render.

Definition isRenderAborted (render : TreeRenderPrivate) : bool :=
  if 0 <? aborted render then true else false.

(** [QAtomicInt::fetchAndAddAcquire(1)] on a 32-bit [int]. *)
Definition setRenderAborted (render : TreeRenderPrivate) : TreeRenderPrivate :=
  with_aborted (wrap32 (aborted render + 1)) render.

(** [TreeRender::getStatus] *)
Definition getStatus_render (render : TreeRenderPrivate) : ActionRetCodeEnum :=
  state render.

Definition registerRenderClone (render : TreeRenderPrivate)
    (holder : KnobHolderPtr) : TreeRenderPrivate :=
  with_renderClones (renderClones render ++ [holder]) render.

(** The clones are dropped by their main instances, which are outside
    this file; the list of the tree render is cleared. *)
Definition cleanupRenderClones (render : TreeRenderPrivate) : TreeRenderPrivate :=
  with_renderClones [] render.

(** [try { ... } catch (const std::exception&) { }] around one pool call:
    a [std::exception] leaves the context null, any other exception goes
    on to the caller. *)
Definition orNull (c : Res (option OSGLContextPtr)) : Res (option OSGLContextPtr) :=
  match c with
  | Err StdException => Ok None
  | other => other
  end.

Definition fetchOpenGLContexts (retrieveLastContext : bool)
  : Res (option OSGLContextPtr * option OSGLContextPtr) :=
  match getOrCreateOpenGLContext app retrieveLastContext with
  | Ok gl =>
      do cpu <- orNull (getOrCreateCPUOpenGLContext app retrieveLastContext) ;;
      Ok (gl, cpu)
  | Err StdException => Ok (None, None)
  | Err e => Err e
  end.

(** While painting, the contexts are those the stroke item remembers; the
    item is outside the tree render, and what [setDrawingGLContext] stores
    in it is not part of the result. *)
Definition fetchOpenGLContext (render : TreeRenderPrivate) (inArgs : CtorArgs)
  : Res TreeRenderPrivate :=
  do ctxs <-
    (match activeRotoDrawableItem inArgs with
     | Some item =>
         do _ <- assert (NDEBUG app) (isRotoStrokeItem item) ;;
         if isRotoStrokeItem item then
           match getDrawingGLContext app item with
           | (None, None) => fetchOpenGLContexts true
           | found => Ok found
           end
         else Ok (None, None)
     | None => fetchOpenGLContexts false
     end) ;;
  Ok (with_openGLContexts (fst ctxs) (snd ctxs) render).

Definition getTreeRootRoD (effect : EffectInstance) (time : TimeValue)
    (view : ViewIdx) (scale : RenderScale) (rod : RectD)
  : Res (ActionRetCodeEnum * RectD) :=
  let '(stat, results) := getRegionOfDefinition_public app effect time scale view in
  if isFailureRetCode stat then Ok (stat, rod)
  else
    do _ <- assert (NDEBUG app) (bool_decide (is_Some results)) ;;
    match results with
    | None => Err NullDereference
    | Some r => Ok (stat, r)
    end.

Definition getTreeRootPlane (effect : EffectInstance) (time : TimeValue)
    (view : ViewIdx) (plane : ImagePlaneDesc)
  : Res (ActionRetCodeEnum * ImagePlaneDesc) :=
  let '(stat, results) := getLayersProducedAndNeeded_public app effect time view in
  if isFailureRetCode stat then Ok (stat, plane)
  else
    do _ <- assert (NDEBUG app) (bool_decide (is_Some results)) ;;
    match results with
    | None => Err NullDereference
    | Some producedLayers =>
        match producedLayers with
        | [] => Ok (stat, plane)
        | front :: _ => Ok (stat, front)
        end
    end.

(** [std::map::insert] keeps an entry that is already there. *)
Definition map_insert_absent (node : NodePtr)
    (m : gmap positive (option FrameViewRequestPtr)) :=
  match m !! node with
  | None => <[node := None]> m
  | Some _ => m
  end.

(** [init] mutates the object in place: it returns the object as it is
    when the function is left, together with the way it is left. *)
Definition init (render : TreeRenderPrivate) (inArgs : CtorArgs)
  : TreeRenderPrivate * Res unit :=
  let render := with_ctorArgs (Some inArgs) render in
  match getCurrentSettings app with
  | Err e => (render, Err e)
  | Ok settings =>
      let render :=
        with_settings
          (match settings with Some st => isNaNHandlingEnabled st | None => false end)
          (match settings with
           | Some st => isTransformConcatenationEnabled st
           | None => false
           end)
          render in
      let render :=
        with_extraRequestedResults
          (foldl (fun m node => map_insert_absent node m)
                 (extraRequestedResults render) (extraNodesToSample inArgs))
          render in
      match fetchOpenGLContext render inArgs with
      | Err e => (render, Err e)
      | Ok render => (render, Ok tt)
      end
  end.

Definition setResults (h : RequestHeap) (render : TreeRenderPrivate)
    (request : option FrameViewRequestPtr) (status : ActionRetCodeEnum)
  : Res TreeRenderPrivate :=
  let render :=
    if isFailureRetCode status then with_state status render else render in
  match request with
  | None => Ok render
  | Some req =>
      let effect := getEffect (h !!! req) in
      match ctorArgs render with
      | None => Err NullDereference
      | Some args =>
          if decide (getNode effect = getNode (treeRootEffect args)) then
            Ok (with_outputRequest (Some req) render)
          else
            match extraRequestedResults render !! getNode effect with
            | Some None =>
                Ok (with_extraRequestedResults
                      (<[getNode effect := Some req]> (extraRequestedResults render))
                      render)
            | _ => Ok render
            end
      end
  end.

(** [create] returns the new tree render and [*inArgs] as the call leaves
    it: the arguments are shared with the caller and the root is
    rewritten in place. *)
Definition create (inArgs : CtorArgs) : Res (TreeRenderPrivate * CtorArgs) :=
  let render := TreeRenderPrivate_new in
  let forwarded : TreeRenderPrivate + CtorArgs :=
    if isGroupInput (treeRootEffect inArgs) then
      match getGroup app (getNode (treeRootEffect inArgs)) with
      | None => inl (with_state eActionStatusFailed render)
      | Some enclosingNodeGroup =>
          match getRealInputForInput app enclosingNodeGroup
                  (getNode (treeRootEffect inArgs)) with
          | None => inl (with_state eActionStatusFailed render)
          | Some realInput =>
              inr (with_treeRootEffect (getEffectInstance app realInput) inArgs)
          end
      end
    else inr inArgs in
  match forwarded with
  | inl failed => Ok (failed, inArgs)
  | inr inArgs =>
      do _ <- assert (NDEBUG app) (negb (isRenderClone (treeRootEffect inArgs))) ;;
      match init render inArgs with
      | (render, Ok _) => Ok (render, inArgs)
      | (render, Err CxxException) | (render, Err StdException) =>
          Ok (with_state eActionStatusFailed render, inArgs)
      | (_, Err e) => Err e
      end
  end.

End TreeRender.

(** ** [TreeRenderExecutionData] and [FrameViewRenderRunnable] *)

Section TreeRenderExecutionData.
Context (app : Application).

Definition getStatus (s : TreeRenderExecutionData) : ActionRetCodeEnum :=
  status s.

Definition hasTasksToExecute (s : TreeRenderExecutionData) : bool :=
  bool_decide (0 < size (allRenderTasksToProcess s))%nat.

Definition addTaskToRender (s : TreeRenderExecutionData)
    (render : FrameViewRequestPtr) : Res TreeRenderExecutionData :=
  let s :=
    with_allRenderTasksToProcess ({[render]} ∪ allRenderTasksToProcess s) s in
  if getNumDependencies (requests s) render =? 0 then
    match dependencyFreeRenders s with
    | None => Err NullDereference
    | Some ready =>
        Ok (with_dependencyFreeRenders (Some (set_insert render ready)) s)
    end
  else Ok s.

Definition removeTaskFromGlobalTaskList (s : TreeRenderExecutionData)
    (request : FrameViewRequestPtr) : TreeRenderExecutionData :=
  if bool_decide (request ∈ allRenderTasksToProcess s) then
    with_allRenderTasksToProcess (allRenderTasksToProcess s ∖ {[request]}) s
  else s.

(** The loop of [removeDependencyLinkFromRequest] over the snapshot of
    the listeners. *)
Fixpoint removeDependencyLinks (request : FrameViewRequestPtr)
    (listeners : list FrameViewRequestPtr) (s : TreeRenderExecutionData)
  : Res TreeRenderExecutionData :=
  match listeners with
  | [] => Ok s
  | it :: listeners =>
      let '(numDepsLeft, h) := markDependencyAsRendered (requests s) it request in
      let s := with_requests h s in
      if numDepsLeft =? 0 then
        match dependencyFreeRenders s with
        | None => Err NullDereference
        | Some ready =>
            if negb (set_find it ready) then
              do _ <- assert (NDEBUG app)
                        (bool_decide (it ∈ allRenderTasksToProcess s)) ;;
              removeDependencyLinks request listeners
                (with_dependencyFreeRenders (Some (set_insert it ready)) s)
            else removeDependencyLinks request listeners s
        end
      else removeDependencyLinks request listeners s
  end.

Definition removeDependencyLinkFromRequest (s : TreeRenderExecutionData)
    (request : FrameViewRequestPtr) : Res TreeRenderExecutionData :=
  if isFailureRetCode (status s) then Ok s
  else removeDependencyLinks request (getListeners (requests s) request) s.

(** The notification of the queue manager that ends the function is a
    call out of this file and leaves both objects as they are. *)
Definition onTaskFinished (render : TreeRenderPrivate)
    (s : TreeRenderExecutionData) (request : FrameViewRequestPtr)
    (requestStatus : ActionRetCodeEnum)
  : Res (TreeRenderPrivate * TreeRenderExecutionData) :=
  let s := with_requests (clearRenderedDependencies (requests s) request) s in
  let s :=
    if isFailureRetCode requestStatus then with_status requestStatus s else s in
  let s := removeTaskFromGlobalTaskList s request in
  do s <- removeDependencyLinkFromRequest s request ;;
  do render <- setResults (requests s) render (Some request) (status s) ;;
  Ok (render, s).

(** [FrameViewRenderRunnable::run] *)
Definition run (render : TreeRenderPrivate) (s : TreeRenderExecutionData)
    (request : FrameViewRequestPtr)
  : Res (TreeRenderPrivate * TreeRenderExecutionData) :=
  let stat := getStatus s in
  let stat :=
    if negb (isFailureRetCode stat) then launchNodeRender app request else stat in
  onTaskFinished render s request stat.

(** The [while] loop of [executeAvailableTasks]. *)
Fixpoint executeAvailableTasks_loop (fuel : nat) (render : TreeRenderPrivate)
    (s : TreeRenderExecutionData) (nTasksRemaining nTasksStarted : Z)
  : Res (Z * TreeRenderPrivate * TreeRenderExecutionData) :=
  match dependencyFreeRenders s with
  | None => Err NullDereference
  | Some ready =>
      if ((nTasksRemaining =? -1) || (0 <? nTasksRemaining))
         && (0 <? Z.of_nat (length ready)) then
        match fuel, ready with
        | O, _ => Err OutOfFuel
        | _, [] => Err NullDereference
        | S fuel, request :: ready =>
            let s := with_dependencyFreeRenders (Some ready) s in
            if TREE_RENDER_DISABLE_MT app then
              do (render, s) <- run render s request ;;
              executeAvailableTasks_loop fuel render s nTasksRemaining nTasksStarted
            else if bool_decide (fvrStatus (requests s !!! request)
                                 = eFrameViewRequestStatusNotRendered)
                    && negb (isFailureRetCode (status s)) then
              executeAvailableTasks_loop fuel render (startRunnable request s)
                (wrap32 (nTasksRemaining - 1)) (wrap32 (nTasksStarted + 1))
            else
              do (render, s) <- run render s request ;;
              executeAvailableTasks_loop fuel render s nTasksRemaining nTasksStarted
        end
      else Ok (nTasksStarted, render, s)
  end.

Definition executeAvailableTasks (fuel : nat) (render : TreeRenderPrivate)
    (s : TreeRenderExecutionData) (nTasks : Z)
  : Res (Z * TreeRenderPrivate * TreeRenderExecutionData) :=
  do _ <- assert (NDEBUG app) (negb (nTasks =? 0)) ;;
  match dependencyFreeRenders s with
  | None => Ok (0, render, s)
  | Some _ => executeAvailableTasks_loop fuel render s nTasks 0
  end.

(** The calls of [addTaskToRender] made by the request pass. *)
Fixpoint addTasksToRender (tasks : list FrameViewRequestPtr)
    (s : TreeRenderExecutionData) : Res TreeRenderExecutionData :=
  match tasks with
  | [] => Ok s
  | render :: tasks =>
      do s <- addTaskToRender s render ;;
      addTasksToRender tasks s
  end.

Definition createExecutionDataInternal (render : TreeRenderPrivate)
    (isMainExecution : bool) (treeRoot : EffectInstance) (time : TimeValue)
    (view : ViewIdx) (proxyScale : RenderScale) (mipMapLevel : Z)
    (planeParam : option ImagePlaneDesc) (canonicalRoIParam : option RectD)
  : Res TreeRenderExecutionData :=
  let requestData :=
    with_isMainExecutionOfTree isMainExecution TreeRenderExecutionData_new in
  if isFailureRetCode (state render) then Ok requestData
  else
    let rootRenderClone := createRenderClone app treeRoot time view in
    do _ <- assert (NDEBUG app) (isRenderClone rootRenderClone) ;;
    (* Resolve plane to render if not provided *)
    do requestData <-
      (match planeParam with
       | Some p => Ok (with_exec_plane p requestData)
       | None =>
           do (stat, p) <- getTreeRootPlane app rootRenderClone time view
                              (exec_plane requestData) ;;
           Ok (with_status stat (with_exec_plane p requestData))
       end) ;;
    if isFailureRetCode (status requestData) then Ok requestData
    else
      (* Resolve RoI to render if not provided *)
      do requestData <-
        (match canonicalRoIParam with
         | Some roi => Ok (with_exec_canonicalRoI roi requestData)
         | None =>
             let combinedScale := getCombinedScale app mipMapLevel proxyScale in
             do (stat, roi) <- getTreeRootRoD app rootRenderClone time view
                                  combinedScale (exec_canonicalRoI requestData) ;;
             Ok (with_status stat (with_exec_canonicalRoI roi requestData))
         end) ;;
      if isFailureRetCode (status requestData) then Ok requestData
      else
        let requestData := with_dependencyFreeRenders (Some []) requestData in
        (* Execute the request pass on the tree *)
        let pass := requestRender app treeRoot time view proxyScale mipMapLevel
                      (exec_plane requestData) (exec_canonicalRoI requestData) in
        do requestData <-
          addTasksToRender (pass_tasks pass)
            (with_requests (pass_requests pass) requestData) ;;
        let requestData :=
          with_status (pass_status pass)
            (with_exec_outputRequest (pass_outputRequest pass) requestData) in
        if isFailureRetCode (status requestData) then Ok requestData
        else
          match dependencyFreeRenders requestData with
          | None => Err NullDereference
          | Some ready =>
              do _ <- assert (NDEBUG app) (negb (bool_decide (ready = []))) ;;
              if bool_decide (ready = []) then
                Ok (with_status eActionStatusFailed requestData)
              else Ok requestData
          end.

Definition createSubExecutionData (render : TreeRenderPrivate)
    (treeRoot : EffectInstance) (time : TimeValue) (view : ViewIdx)
    (proxyScale : RenderScale) (mipMapLevel : Z)
    (planeParam : option ImagePlaneDesc) (canonicalRoIParam : option RectD)
  : Res TreeRenderExecutionData :=
  createExecutionDataInternal render false treeRoot time view proxyScale
    mipMapLevel planeParam canonicalRoIParam.

Definition createMainExecutionData (render : TreeRenderPrivate)
  : Res TreeRenderExecutionData :=
  match ctorArgs render with
  | None => Err NullDereference
  | Some args =>
      createExecutionDataInternal render true (treeRootEffect args) (time args)
        (view args) (proxyScale args) (mipMapLevel args)
        (if getNumComponents (plane args) =? 0 then None else Some (plane args))
        (if isNull (canonicalRoI args) then None else Some (canonicalRoI args))
  end.

End TreeRenderExecutionData.

(** ** The lifetime of an execution

    After the request pass an execution is driven by the queue manager,
    which calls [executeAvailableTasks], and by the worker threads, which
    run the runnables started in the pool.  [FrameViewRenderRunnable::run]
    takes the lock twice: once to read the status ([getStatus]) before it
    renders, and once in [onTaskFinished].  A worker is therefore two
    events, and between them it holds its request and the code it is about
    to report ([running]).  A call of [executeAvailableTasks] is one event:
    the tasks it runs inline are run by the calling thread. *)

Record World := {
  treeRender : TreeRenderPrivate;
  execution : TreeRenderExecutionData;
  running : list (FrameViewRequestPtr * ActionRetCodeEnum);
}.

Inductive Event :=
| EvExecuteAvailableTasks (nTasks : Z) (fuel : nat)
| EvRunnableStarts (request : FrameViewRequestPtr)
| EvRunnableFinishes (request : FrameViewRequestPtr).

Fixpoint take_running (request : FrameViewRequestPtr)
    (l : list (FrameViewRequestPtr * ActionRetCodeEnum))
  : option (ActionRetCodeEnum * list (FrameViewRequestPtr * ActionRetCodeEnum)) :=
  match l with
  | [] => None
  | (r, stat) :: l' =>
      if decide (r = request) then Some (stat, l')
      else
        match take_running request l' with
        | Some (found, rest) => Some (found, (r, stat) :: rest)
        | None => None
        end
  end.

Section Lifetime.
Context (app : Application).

(** An event that is not enabled (no such runnable in the pool, no such
    worker) leaves the world as it is. *)
Definition step (w : World) (ev : Event) : Res World :=
  match ev with
  | EvExecuteAvailableTasks nTasks fuel =>
      do (_, render, s) <-
        executeAvailableTasks app fuel (treeRender w) (execution w) nTasks ;;
      Ok {| treeRender := render; execution := s; running := running w |}
  | EvRunnableStarts request =>
      let s := execution w in
      if bool_decide (request ∈ threadPool s) then
        let stat := getStatus s in
        let stat :=
          if negb (isFailureRetCode stat) then launchNodeRender app request
          else stat in
        Ok {| treeRender := treeRender w;
              execution := with_threadPool (remove_one request (threadPool s)) s;
              running := (request, stat) :: running w |}
      else Ok w
  | EvRunnableFinishes request =>
      match take_running request (running w) with
      | Some (stat, rest) =>
          do (render, s) <-
            onTaskFinished app (treeRender w) (execution w) request stat ;;
          Ok {| treeRender := render; execution := s; running := rest |}
      | None => Ok w
      end
  end.

Fixpoint steps (w : World) (evs : list Event) : Res World :=
  match evs with
  | [] => Ok w
  | ev :: evs => do w <- step w ev ;; steps w evs
  end.

End Lifetime.

(** A sequence of task completions reported to one execution. *)
Fixpoint tasksFinished (app : Application) (render : TreeRenderPrivate)
    (s : TreeRenderExecutionData)
    (done : list (FrameViewRequestPtr * ActionRetCodeEnum))
  : Res (TreeRenderPrivate * TreeRenderExecutionData) :=
  match done with
  | [] => Ok (render, s)
  | (request, stat) :: done =>
      do (render, s) <- onTaskFinished app render s request stat ;;
      tasksFinished app render s done
  end.

(** The calls a client makes on a tree render. *)
Inductive TreeRenderCall :=
| CallSetResults (request : option FrameViewRequestPtr) (status : ActionRetCodeEnum)
| CallSetActiveStrokeUpdateArea (area : RectI)
| CallSetRenderAborted
| CallRegisterRenderClone (holder : KnobHolderPtr)
| CallCleanupRenderClones.

Definition call (h : RequestHeap) (render : TreeRenderPrivate)
    (c : TreeRenderCall) : Res TreeRenderPrivate :=
  match c with
  | CallSetResults request status => setResults h render request status
  | CallSetActiveStrokeUpdateArea area => Ok (setActiveStrokeUpdateArea render area)
  | CallSetRenderAborted => Ok (setRenderAborted render)
  | CallRegisterRenderClone holder => Ok (registerRenderClone render holder)
  | CallCleanupRenderClones => Ok (cleanupRenderClones render)
  end.

Fixpoint calls (h : RequestHeap) (render : TreeRenderPrivate)
    (cs : list TreeRenderCall) : Res TreeRenderPrivate :=
  match cs with
  | [] => Ok render
  | c :: cs => do render <- call h render c ;; calls h render cs
  end.

(** ** Predicates of the statements *)

(** The dependency-free set, empty while the pointer is null. *)
Definition readySet (s : TreeRenderExecutionData) : list FrameViewRequestPtr :=
  match dependencyFreeRenders s with
  | Some ready => ready
  | None => []
  end.

(** The ready set is part of the task set and holds only requests without
    a remaining dependency. *)
Definition ready_invariant (s : TreeRenderExecutionData) : Prop :=
  forall r, r ∈ readySet s ->
    r ∈ allRenderTasksToProcess s /\ getNumDependencies (requests s) r = 0.

Definition isSetArea (c : TreeRenderCall) : bool :=
  match c with
  | CallSetActiveStrokeUpdateArea _ => true
  | _ => false
  end.

(** The real input that the enclosing group has for a group-input effect,
    as [create] looks it up. *)
Definition realInputOf (app : Application) (effect : EffectInstance)
  : option NodePtr :=
  match getGroup app (getNode effect) with
  | None => None
  | Some enclosingNodeGroup =>
      getRealInputForInput app enclosingNodeGroup (getNode effect)
  end.

(** What the scheduler maintains between two events.  [extra] are the
    requests held by the workers that are running; with the requests
    queued in the pool they are the requests in flight. *)
Record scheduler_invariant (s : TreeRenderExecutionData)
    (extra : list FrameViewRequestPtr) : Prop := {
  inv_sorted : StronglySorted Pos.lt (readySet s);
  inv_ready : ready_invariant s;
  inv_wired : forall r l,
    r ∈ allRenderTasksToProcess s ->
    l ∈ getListeners (requests s) r ->
    r ∈ dependencies (requests s !!! l);
  inv_closed : forall r l,
    r ∈ allRenderTasksToProcess s ->
    l ∈ getListeners (requests s) r ->
    l ∈ allRenderTasksToProcess s;
  inv_flight_nodup : NoDup (threadPool s ++ extra);
  inv_flight : forall r,
    r ∈ threadPool s ++ extra ->
    r ∈ allRenderTasksToProcess s
    /\ (r ∉ readySet s)
    /\ getNumDependencies (requests s) r = 0;
}.

(** The request pass wires listeners as the inverse of dependencies and
    registers every request it wires. *)
Definition well_wired (pass : RequestPass) : Prop :=
  (forall r l,
      l ∈ listeners (pass_requests pass !!! r) ->
      r ∈ dependencies (pass_requests pass !!! l))
  /\ (forall r l,
        r ∈ pass_tasks pass ->
        l ∈ listeners (pass_requests pass !!! r) ->
        l ∈ pass_tasks pass).

(** One turn of the loop of [executeAvailableTasks], from the variables
    [(render, s, nTasksRemaining, nTasksStarted)] at its head to their
    values at the next head: the request at [begin()] is either started in
    the pool or run by the caller. *)
Definition LoopState : Type :=
  TreeRenderPrivate * TreeRenderExecutionData * Z * Z.

Inductive iteration (app : Application) : LoopState -> LoopState -> Prop :=
| iteration_start render s nTasksRemaining nTasksStarted request ready :
    dependencyFreeRenders s = Some (request :: ready) ->
    nTasksRemaining = -1 \/ 0 < nTasksRemaining ->
    TREE_RENDER_DISABLE_MT app = false ->
    fvrStatus (requests s !!! request) = eFrameViewRequestStatusNotRendered ->
    isFailureRetCode (status s) = false ->
    iteration app (render, s, nTasksRemaining, nTasksStarted)
      (render,
       startRunnable request (with_dependencyFreeRenders (Some ready) s),
       wrap32 (nTasksRemaining - 1), wrap32 (nTasksStarted + 1))
| iteration_inline render s nTasksRemaining nTasksStarted request ready render' s' :
    dependencyFreeRenders s = Some (request :: ready) ->
    nTasksRemaining = -1 \/ 0 < nTasksRemaining ->
    TREE_RENDER_DISABLE_MT app = true
    \/ fvrStatus (requests s !!! request) <> eFrameViewRequestStatusNotRendered
    \/ isFailureRetCode (status s) = true ->
    run app render (with_dependencyFreeRenders (Some ready) s) request
    = Ok (render', s') ->
    iteration app (render, s, nTasksRemaining, nTasksStarted)
      (render', s', nTasksRemaining, nTasksStarted).

(** The loop is left when the budget is spent or nothing is ready. *)
Definition loop_exit (s : TreeRenderExecutionData) (nTasksRemaining : Z) : Prop :=
  exists ready, dependencyFreeRenders s = Some ready
    /\ (~ (nTasksRemaining = -1 \/ 0 < nTasksRemaining) \/ ready = []).


(** The variant of the loop of [executeAvailableTasks]: a turn either
    finishes a task or puts one more request in flight. *)
Definition potential (extra : list FrameViewRequestPtr)
    (s : TreeRenderExecutionData) : nat :=
  2 * size (allRenderTasksToProcess s) - length (threadPool s ++ extra).

(** The status an execution reports after a sequence of completions: the
    code of the last one that failed, the status it had before when none
    did. *)
Fixpoint lastFailure (stat : ActionRetCodeEnum)
    (done : list (FrameViewRequestPtr * ActionRetCodeEnum)) : ActionRetCodeEnum :=
  match done with
  | [] => stat
  | (_, requestStatus) :: done =>
      lastFailure (if isFailureRetCode requestStatus then requestStatus else stat)
        done
  end.

(** The number of tasks a call may start in the pool. *)
Definition budget (nTasks : Z) : Z :=
  if nTasks =? -1 then 1 else Z.max nTasks 0.


(** A decision procedure for [well_wired]. *)
Definition well_wiredb (pass : RequestPass) : bool :=
  forallb
    (fun entry : positive * FrameViewRequest =>
       forallb
         (fun l => bool_decide
                     (entry.1 ∈ dependencies (pass_requests pass !!! l)))
         (listeners entry.2))
    (map_to_list (pass_requests pass))
  && forallb
       (fun r =>
          forallb (fun l => bool_decide (l ∈ pass_tasks pass))
            (listeners (pass_requests pass !!! r)))
       (pass_tasks pass).

(** The events of a world, one state after the other. *)
Definition world_invariant (w : World) : Prop :=
  scheduler_invariant (execution w) (running w).*1.

(** ** Sample graphs

    Small applications on which the statements are evaluated. *)

Definition sampleEffect (node : NodePtr) : EffectInstance :=
  {| getNode := node; isGroupInput := false; isRenderClone := false |}.

Definition sampleRequest (node : NodePtr)
    (deps ls : list FrameViewRequestPtr) : FrameViewRequest :=
  {| getEffect := sampleEffect node;
     fvrStatus := eFrameViewRequestStatusNotRendered;
     dependencies := deps; listeners := ls; cachedInputResults := [] |}.

(** A release build with multi-threading, without groups, whose request
    pass is [pass] and whose renders return [render]. *)
Definition sampleApp (pass : RequestPass)
    (render : FrameViewRequestPtr -> ActionRetCodeEnum) : Application :=
  {| NDEBUG := true;
     TREE_RENDER_DISABLE_MT := false;
     getGroup := fun _ => None;
     getRealInputForInput := fun _ _ => None;
     getEffectInstance := sampleEffect;
     getCurrentSettings := Ok None;
     getDrawingGLContext := fun _ => (None, None);
     getOrCreateOpenGLContext := fun _ => Ok None;
     getOrCreateCPUOpenGLContext := fun _ => Ok None;
     createRenderClone := fun e _ _ =>
       {| getNode := getNode e; isGroupInput := isGroupInput e;
          isRenderClone := true |};
     getLayersProducedAndNeeded_public := fun _ _ _ => (eActionStatusOK, Some []);
     getRegionOfDefinition_public := fun _ _ _ _ =>
       (eActionStatusOK, Some {| rectId := 1; isNull := false |});
     getCombinedScale := fun _ scale => scale;
     requestRender := fun _ _ _ _ _ _ _ => pass;
     launchNodeRender := render |}.

Definition sampleArgs (root : EffectInstance) (extraNodes : list NodePtr)
  : CtorArgs :=
  {| time := 0; view := 0; treeRootEffect := root;
     extraNodesToSample := extraNodes; activeRotoDrawableItem := None;
     stats := None; canonicalRoI := {| rectId := 0; isNull := true |};
     plane := {| planeId := 0; getNumComponents := 0 |};
     proxyScale := 1; mipMapLevel := 0; draftMode := false; playback := false;
     byPassCache := false; preventConcurrentTreeRenders := false |}.

(** The diamond: the root 4 consumes 2 and 3, which both consume 1. *)
Definition diamondPass : RequestPass :=
  {| pass_status := eActionStatusOK;
     pass_requests :=
       <[1%positive := sampleRequest 11 [] [2; 3]%positive]>
         (<[2%positive := sampleRequest 12 [1%positive] [4%positive]]>
            (<[3%positive := sampleRequest 13 [1%positive] [4%positive]]>
               (<[4%positive := sampleRequest 14 [2; 3]%positive []]> ∅)));
     pass_tasks := [4; 2; 3; 1]%positive;
     pass_outputRequest := Some 4%positive |}.

(** Two requests that depend on nothing; the root is 2. *)
Definition pairPass : RequestPass :=
  {| pass_status := eActionStatusOK;
     pass_requests :=
       <[1%positive := sampleRequest 11 [] []]>
         (<[2%positive := sampleRequest 12 [] []]> ∅);
     pass_tasks := [2; 1]%positive;
     pass_outputRequest := Some 2%positive |}.

(** A pass that leaves no request without a dependency: 1 and 2 wait for
    each other. *)
Definition stuckPass : RequestPass :=
  {| pass_status := eActionStatusOK;
     pass_requests :=
       <[1%positive := sampleRequest 11 [2%positive] [2%positive]]>
         (<[2%positive := sampleRequest 12 [1%positive] [1%positive]]> ∅);
     pass_tasks := [2; 1]%positive;
     pass_outputRequest := Some 2%positive |}.

Definition allOK (_ : FrameViewRequestPtr) : ActionRetCodeEnum := eActionStatusOK.

(** The render of request 1 fails and the render of request 2 is aborted. *)
Definition failThenAbort (request : FrameViewRequestPtr) : ActionRetCodeEnum :=
  if decide (request = 1%positive) then eActionStatusFailed
  else eActionStatusAborted.

(** The tree render and the main execution of a sample application, when
    both are created. *)
Definition sampleWorld (app : Application) (args : CtorArgs) : Res World :=
  do (render, _) <- create app args ;;
  do s <- createMainExecutionData app render ;;
  Ok {| treeRender := render; execution := s; running := [] |}.

(** An application with one group: node 20 is a group input of group 7,
    whose real input for it is node 21. *)
Definition groupApp : Application :=
  {| NDEBUG := true;
     TREE_RENDER_DISABLE_MT := false;
     getGroup := fun node => if decide (node = 20%positive) then Some 7%positive
                             else None;
     getRealInputForInput := fun group node =>
       if decide (group = 7%positive /\ node = 20%positive) then Some 21%positive
       else None;
     getEffectInstance := sampleEffect;
     getCurrentSettings := Ok None;
     getDrawingGLContext := fun _ => (None, None);
     getOrCreateOpenGLContext := fun _ => Ok None;
     getOrCreateCPUOpenGLContext := fun _ => Ok None;
     createRenderClone := fun e _ _ =>
       {| getNode := getNode e; isGroupInput := isGroupInput e;
          isRenderClone := true |};
     getLayersProducedAndNeeded_public := fun _ _ _ => (eActionStatusOK, Some []);
     getRegionOfDefinition_public := fun _ _ _ _ =>
       (eActionStatusOK, Some {| rectId := 1; isNull := false |});
     getCombinedScale := fun _ scale => scale;
     requestRender := fun _ _ _ _ _ _ _ => pairPass;
     launchNodeRender := allOK |}.

(** The application [groupApp] with a request pass that depends on the
    root it is given: the pair for node 21, the stuck pass for any other
    root. *)
Definition groupRootApp : Application :=
  {| NDEBUG := true;
     TREE_RENDER_DISABLE_MT := false;
     getGroup := getGroup groupApp;
     getRealInputForInput := getRealInputForInput groupApp;
     getEffectInstance := sampleEffect;
     getCurrentSettings := Ok None;
     getDrawingGLContext := fun _ => (None, None);
     getOrCreateOpenGLContext := fun _ => Ok None;
     getOrCreateCPUOpenGLContext := fun _ => Ok None;
     createRenderClone := createRenderClone groupApp;
     getLayersProducedAndNeeded_public := getLayersProducedAndNeeded_public groupApp;
     getRegionOfDefinition_public := getRegionOfDefinition_public groupApp;
     getCombinedScale := fun _ scale => scale;
     requestRender := fun root _ _ _ _ _ _ =>
       if decide (getNode root = 21%positive) then pairPass else stuckPass;
     launchNodeRender := allOK |}.

Definition groupInputEffect (node : NodePtr) : EffectInstance :=
  {| getNode := node; isGroupInput := true; isRenderClone := false |}.

Definition getWorld (w : Res World) : World :=
  match w with
  | Ok w => w
  | Err _ =>
      {| treeRender := TreeRenderPrivate_new;
         execution := TreeRenderExecutionData_new;
         running := [] |}
  end.

(** The diamond and the pair, planned and not yet executed. *)
Definition diamondWorld : World :=
  getWorld (sampleWorld (sampleApp diamondPass allOK)
              (sampleArgs (sampleEffect 14) [12%positive])).

Definition pairWorld : World :=
  getWorld (sampleWorld (sampleApp pairPass allOK)
              (sampleArgs (sampleEffect 12) [])).

(** ** The executions of the extra results

    [TreeRender::getExtraRequestedResultsExecutionData] walks the map of
    extra results, which a [std::map] gives in the order of its keys, and
    creates a sub-execution for every node whose slot is still empty. *)

Definition slotLe (a b : NodePtr * option FrameViewRequestPtr) : Prop :=
  (a.1 <= b.1)%positive.

Global Instance slotLe_dec : RelDecision slotLe.
Proof. intros a b. unfold slotLe. apply _. Defined.

Definition slotsInOrder (m : gmap positive (option FrameViewRequestPtr))
  : list (NodePtr * option FrameViewRequestPtr) :=
  sorting.merge_sort slotLe (map_to_list m).

Fixpoint subExecutionsFor (app : Application) (render : TreeRenderPrivate)
    (slots : list (NodePtr * option FrameViewRequestPtr))
  : Res (list TreeRenderExecutionData) :=
  match slots with
  | [] => Ok []
  | (_, Some _) :: slots => subExecutionsFor app render slots
  | (node, None) :: slots =>
      match ctorArgs render with
      | None => Err NullDereference
      | Some args =>
          do execData <-
            createSubExecutionData app render (getEffectInstance app node)
              (time args) (view args) (proxyScale args) (mipMapLevel args)
              (if getNumComponents (plane args) =? 0 then None
               else Some (plane args))
              (if isNull (canonicalRoI args) then None
               else Some (canonicalRoI args)) ;;
          do ret <- subExecutionsFor app render slots ;;
          Ok (execData :: ret)
      end
  end.

Definition getExtraRequestedResultsExecutionData (app : Application)
    (render : TreeRenderPrivate) : Res (list TreeRenderExecutionData) :=
  subExecutionsFor app render (slotsInOrder (extraRequestedResults render)).

(** The nodes whose slot of extra results is empty. *)
Definition emptySlots (render : TreeRenderPrivate) : list NodePtr :=
  (filter (fun slot => slot.2 = None)
     (slotsInOrder (extraRequestedResults render))).*1.

(** The same application with another render entry point. *)
Definition with_launchNodeRender
    (launch : FrameViewRequestPtr -> ActionRetCodeEnum) (app : Application)
  : Application :=
  {| NDEBUG := NDEBUG app;
     TREE_RENDER_DISABLE_MT := TREE_RENDER_DISABLE_MT app;
     getGroup := getGroup app;
     getRealInputForInput := getRealInputForInput app;
     getEffectInstance := getEffectInstance app;
     getCurrentSettings := getCurrentSettings app;
     getDrawingGLContext := getDrawingGLContext app;
     getOrCreateOpenGLContext := getOrCreateOpenGLContext app;
     getOrCreateCPUOpenGLContext := getOrCreateCPUOpenGLContext app;
     createRenderClone := createRenderClone app;
     getLayersProducedAndNeeded_public := getLayersProducedAndNeeded_public app;
     getRegionOfDefinition_public := getRegionOfDefinition_public app;
     getCombinedScale := getCombinedScale app;
     requestRender := requestRender app;
     launchNodeRender := launch |}.

(** The status that a sequence of calls on a tree render hands to
    [setResults] last among the failures, [stat] when none is one. *)
Fixpoint lastFailedResult (stat : ActionRetCodeEnum) (cs : list TreeRenderCall)
  : ActionRetCodeEnum :=
  match cs with
  | [] => stat
  | CallSetResults _ status :: cs =>
      lastFailedResult (if isFailureRetCode status then status else stat) cs
  | _ :: cs => lastFailedResult stat cs
  end.

(** ** Sample context pools

    The sample application with the context pool [gpu], [cpu] and the
    contexts [drawing] remembered by the stroke items. *)

Definition poolApp
    (gpu cpu : bool -> Res (option OSGLContextPtr))
    (drawing : RotoDrawableItem -> option OSGLContextPtr * option OSGLContextPtr)
  : Application :=
  {| NDEBUG := true;
     TREE_RENDER_DISABLE_MT := false;
     getGroup := fun _ => None;
     getRealInputForInput := fun _ _ => None;
     getEffectInstance := sampleEffect;
     getCurrentSettings := Ok None;
     getDrawingGLContext := drawing;
     getOrCreateOpenGLContext := gpu;
     getOrCreateCPUOpenGLContext := cpu;
     createRenderClone := fun e _ _ =>
       {| getNode := getNode e; isGroupInput := isGroupInput e;
          isRenderClone := true |};
     getLayersProducedAndNeeded_public := fun _ _ _ => (eActionStatusOK, Some []);
     getRegionOfDefinition_public := fun _ _ _ _ =>
       (eActionStatusOK, Some {| rectId := 1; isNull := false |});
     getCombinedScale := fun _ scale => scale;
     requestRender := fun _ _ _ _ _ _ _ => pairPass;
     launchNodeRender := allOK |}.

(** The arguments of a render of node 12 while painting [item]. *)
Definition paintArgs (item : RotoDrawableItem) : CtorArgs :=
  {| time := 0; view := 0; treeRootEffect := sampleEffect 12;
     extraNodesToSample := []; activeRotoDrawableItem := Some item;
     stats := None; canonicalRoI := {| rectId := 0; isNull := true |};
     plane := {| planeId := 0; getNumComponents := 0 |};
     proxyScale := 1; mipMapLevel := 0; draftMode := false; playback := false;
     byPassCache := false; preventConcurrentTreeRenders := false |}.

Definition sampleStroke : RotoDrawableItem :=
  {| itemId := 1; isRotoStrokeItem := true |}.

(** The sample application whose root reports [planeStat] for its layers
    and [rodStat] for its region of definition, with no results. *)
Definition rootActionsApp (planeStat rodStat : ActionRetCodeEnum) : Application :=
  {| NDEBUG := true;
     TREE_RENDER_DISABLE_MT := false;
     getGroup := fun _ => None;
     getRealInputForInput := fun _ _ => None;
     getEffectInstance := sampleEffect;
     getCurrentSettings := Ok None;
     getDrawingGLContext := fun _ => (None, None);
     getOrCreateOpenGLContext := fun _ => Ok None;
     getOrCreateCPUOpenGLContext := fun _ => Ok None;
     createRenderClone := fun e _ _ =>
       {| getNode := getNode e; isGroupInput := isGroupInput e;
          isRenderClone := true |};
     getLayersProducedAndNeeded_public := fun _ _ _ => (planeStat, None);
     getRegionOfDefinition_public := fun _ _ _ _ => (rodStat, None);
     getCombinedScale := fun _ scale => scale;
     requestRender := fun _ _ _ _ _ _ _ => pairPass;
     launchNodeRender := allOK |}.

(** The execution of the diamond before the request pass registers its
    tasks. *)
Definition diamondUnplanned : TreeRenderExecutionData :=
  with_requests (pass_requests diamondPass)
    (with_dependencyFreeRenders (Some []) TreeRenderExecutionData_new).

(** The diamond with request 1 held by a worker, and the pair after a
    failure. *)
Definition diamondRunning : World :=
  getWorld (steps (sampleApp diamondPass allOK) diamondWorld
              [EvExecuteAvailableTasks (-1) 10; EvRunnableStarts 1%positive]).

Definition pairFailed : TreeRenderExecutionData :=
  with_status eActionStatusFailed (execution pairWorld).

(** * Properties *)

(** ** Generic facts *)

Lemma wrap32_small z : int32 z -> wrap32 z = z.
Proof.
  unfold int32, wrap32. intros H.
  rewrite Z.mod_small; lia.
Qed.

Lemma wrap32_succ z : wrap32 (wrap32 z + 1) = wrap32 (z + 1).
Proof.
  unfold wrap32.
  replace ((z + 2 ^ 31) mod 2 ^ 32 - 2 ^ 31 + 1 + 2 ^ 31)
    with ((z + 2 ^ 31) mod 2 ^ 32 + 1) by lia.
  replace (z + 1 + 2 ^ 31) with ((z + 2 ^ 31) + 1) by lia.
  rewrite Zplus_mod_idemp_l. reflexivity.
Qed.

Lemma res_bind_Ok {A B} (m : Res A) (k : A -> Res B) (b : B) :
  res_bind m k = Ok b -> exists a, m = Ok a /\ k a = Ok b.
Proof. destruct m as [a|e]; simpl; [eauto | discriminate]. Qed.

(** Inverts a successful sequence of binds in a hypothesis. *)
Ltac bind_inv H :=
  let a := fresh "a" in
  let Ha := fresh "Ha" in
  apply res_bind_Ok in H; destruct H as (a & Ha & H).

(** ** The active stroke update area *)

Section TreeRenderFacts.
Context (app : Application) (h : RequestHeap).

Lemma init_stroke render inArgs :
  activeStrokeUpdateAreaSet (fst (init app render inArgs))
  = activeStrokeUpdateAreaSet render
  /\ activeStrokeUpdateArea (fst (init app render inArgs))
     = activeStrokeUpdateArea render
  /\ aborted (fst (init app render inArgs)) = aborted render.
Proof.
  unfold init. destruct (getCurrentSettings app); simpl; [|done].
  match goal with |- context [fetchOpenGLContext ?a ?r ?i] =>
    destruct (fetchOpenGLContext a r i) as [r'|] eqn:E end; simpl; [|done].
  unfold fetchOpenGLContext in E. bind_inv E. by inversion E.
Qed.

Lemma create_fresh inArgs render inArgs' :
  create app inArgs = Ok (render, inArgs') ->
  activeStrokeUpdateAreaSet render = false /\ aborted render = 0.
Proof.
  unfold create. intros H.
  destruct (isGroupInput (treeRootEffect inArgs)).
  - destruct (getGroup app _) as [g|]; [|by inversion H].
    destruct (getRealInputForInput app g _) as [ri|]; [|by inversion H].
    bind_inv H.
    pose proof (init_stroke TreeRenderPrivate_new
                  (with_treeRootEffect (getEffectInstance app ri) inArgs)) as (I1 & _ & I3).
    destruct (init app _ _) as [r [[]|[]]]; inversion H; subst; simpl in *; done.
  - bind_inv H.
    pose proof (init_stroke TreeRenderPrivate_new inArgs) as (I1 & _ & I3).
    destruct (init app _ _) as [r [[]|[]]]; inversion H; subst; simpl in *; done.
Qed.

Lemma setResults_stroke render request stat render' :
  setResults h render request stat = Ok render' ->
  activeStrokeUpdateAreaSet render' = activeStrokeUpdateAreaSet render
  /\ activeStrokeUpdateArea render' = activeStrokeUpdateArea render
  /\ aborted render' = aborted render.
Proof.
  unfold setResults. intros H.
  destruct request as [req|];
    [destruct (ctorArgs _); [|discriminate]; case_decide;
     [|destruct (_ !! _) as [[]|]] |];
    destruct (isFailureRetCode stat); inversion H; done.
Qed.

Lemma call_stroke render c render' :
  call h render c = Ok render' ->
  isSetArea c = false ->
  activeStrokeUpdateAreaSet render' = activeStrokeUpdateAreaSet render
  /\ activeStrokeUpdateArea render' = activeStrokeUpdateArea render.
Proof.
  destruct c; simpl; intros H Hc; try discriminate;
    try (inversion H; subst; done).
  apply setResults_stroke in H. tauto.
Qed.

Lemma calls_stroke cs : forall render render',
  calls h render cs = Ok render' ->
  forallb (fun c => negb (isSetArea c)) cs = true ->
  activeStrokeUpdateAreaSet render' = activeStrokeUpdateAreaSet render
  /\ activeStrokeUpdateArea render' = activeStrokeUpdateArea render.
Proof.
  induction cs as [|c cs IH]; simpl; intros render render' H Hn.
  - by inversion H.
  - bind_inv H. apply andb_prop in Hn as [Hc Hn].
    apply negb_true_iff in Hc.
    destruct (call_stroke _ _ _ Ha Hc) as [E1 E2].
    destruct (IH _ _ H Hn) as [-> ->]. done.
Qed.

Lemma calls_app cs1 : forall cs2 render render',
  calls h render (cs1 ++ cs2) = Ok render' ->
  exists mid, calls h render cs1 = Ok mid /\ calls h mid cs2 = Ok render'.
Proof.
  induction cs1 as [|c cs1 IH]; simpl; intros cs2 render render' H; [eauto|].
  bind_inv H. rewrite Ha. simpl. eauto.
Qed.

End TreeRenderFacts.

(** C10.  A tree render reports no active stroke update area (and leaves
    the caller's rectangle as it is) as long as
    [setActiveStrokeUpdateArea] has not been called; after any sequence of
    calls in which the last [setActiveStrokeUpdateArea] was given [a], it
    reports [a]. *)
Theorem activeStrokeUpdateArea_last_set :
  forall app h inArgs render inArgs' cs render' out,
    create app inArgs = Ok (render, inArgs') ->
    calls h render cs = Ok render' ->
    (forallb (fun c => negb (isSetArea c)) cs = true ->
     getRotoPaintActiveStrokeUpdateArea render' out = (false, out))
    /\ (forall cs0 a cs1,
          cs = cs0 ++ CallSetActiveStrokeUpdateArea a :: cs1 ->
          forallb (fun c => negb (isSetArea c)) cs1 = true ->
          getRotoPaintActiveStrokeUpdateArea render' out = (true, a)).
Proof.
  intros app h inArgs render inArgs' cs render' out Hc Hcs. split.
  - intros Hn. destruct (calls_stroke h cs _ _ Hcs Hn) as [E _].
    apply create_fresh in Hc as [Hc _].
    unfold getRotoPaintActiveStrokeUpdateArea. by rewrite E, Hc.
  - intros cs0 a cs1 -> Hn.
    apply calls_app in Hcs as (mid & _ & Hcs).
    simpl in Hcs.
    destruct (calls_stroke h cs1 _ _ Hcs Hn) as [E1 E2].
    unfold getRotoPaintActiveStrokeUpdateArea. by rewrite E1, E2.
Qed.

(** ** The abort counter *)

Lemma aborted_iter (n : N) render :
  int32 (aborted render) ->
  aborted (N.iter n setRenderAborted render)
  = wrap32 (aborted render + Z.of_N n).
Proof.
  intros Hr. induction n as [|n IH] using N.peano_ind.
  - simpl. rewrite Z.add_0_r. symmetry. by apply wrap32_small.
  - rewrite N.iter_succ. unfold setRenderAborted at 1. simpl.
    rewrite IH, wrap32_succ. f_equal. lia.
Qed.

(** As long as the counter has not wrapped, the tree render is aborted if
    and only if [setRenderAborted] was called. *)
Lemma isRenderAborted_below_wrap (n : N) :
  (n < 2 ^ 31)%N ->
  isRenderAborted (N.iter n setRenderAborted TreeRenderPrivate_new)
  = bool_decide (0 < n)%N.
Proof.
  intros Hn. unfold isRenderAborted.
  rewrite aborted_iter by (unfold int32; simpl; lia).
  simpl aborted. change (2 ^ 31)%N with 2147483648%N in Hn.
  rewrite wrap32_small by (unfold int32; lia).
  case_bool_decide; destruct (Z.ltb_spec 0 (0 + Z.of_N n)); lia || done.
Qed.

(** C8.  The abort counter is a 32-bit [int] that every call of
    [setRenderAborted] increments: after one call the tree render is
    aborted, and after [2^31] calls the counter has wrapped to [-2^31] and
    [isRenderAborted] answers [false] again. *)
Theorem setRenderAborted_counter_wraps :
  isRenderAborted (N.iter 1 setRenderAborted TreeRenderPrivate_new) = true
  /\ aborted (N.iter (2 ^ 31) setRenderAborted TreeRenderPrivate_new) = - 2 ^ 31
  /\ isRenderAborted (N.iter (2 ^ 31) setRenderAborted TreeRenderPrivate_new)
     = false.
Proof.
  split; [reflexivity|].
  unfold isRenderAborted.
  rewrite aborted_iter by (unfold int32; simpl; lia).
  split; reflexivity.
Qed.

(** ** The results of a tree render *)

(** Once a slot of [extraRequestedResults] holds a request, [setResults]
    leaves it alone; a slot is never created or removed. *)
Lemma setResults_extra_monotone h render request stat render' node :
  setResults h render request stat = Ok render' ->
  (forall v, extraRequestedResults render !! node = Some (Some v) ->
             extraRequestedResults render' !! node = Some (Some v))
  /\ (is_Some (extraRequestedResults render' !! node)
      <-> is_Some (extraRequestedResults render !! node)).
Proof.
  unfold setResults. intros H.
  assert (E : forall r, extraRequestedResults
            (if isFailureRetCode stat then with_state stat r else r)
            = extraRequestedResults r) by (intros; by destruct (isFailureRetCode stat)).
  destruct request as [req|]; [|inversion H; subst; rewrite E; done].
  destruct (ctorArgs _); [|discriminate].
  case_decide; [inversion H; subst; simpl; rewrite E; done|].
  rewrite E in H.
  destruct (extraRequestedResults render !! _) as [[w|]|] eqn:El;
    inversion H; subst; simpl; rewrite ?E; try done.
  destruct (decide (getNode (getEffect (h !!! req)) = node)) as [Hn|Hne].
  - subst node. rewrite lookup_insert_eq, El. split; [congruence|]. split; eauto.
  - by rewrite lookup_insert_ne.
Qed.

Lemma call_extra_monotone h render c render' node :
  call h render c = Ok render' ->
  (forall v, extraRequestedResults render !! node = Some (Some v) ->
             extraRequestedResults render' !! node = Some (Some v))
  /\ (is_Some (extraRequestedResults render' !! node)
      <-> is_Some (extraRequestedResults render !! node)).
Proof.
  destruct c; simpl; intros H; try (inversion H; subst; done).
  by eapply setResults_extra_monotone.
Qed.

Lemma calls_extra_monotone h cs : forall render render' node,
  calls h render cs = Ok render' ->
  (forall v, extraRequestedResults render !! node = Some (Some v) ->
             extraRequestedResults render' !! node = Some (Some v))
  /\ (is_Some (extraRequestedResults render' !! node)
      <-> is_Some (extraRequestedResults render !! node)).
Proof.
  induction cs as [|c cs IH]; simpl; intros render render' node H.
  - by inversion H.
  - bind_inv H.
    destruct (call_extra_monotone _ _ _ _ node Ha) as [M1 M2].
    destruct (IH _ _ node H) as [N1 N2].
    split; [auto|]. by rewrite N2.
Qed.

(** C5.  [setResults] records a failure status as the state of the tree
    render; a request of the root node becomes [outputRequest]; a request
    of another node fills the slot of that node in
    [extraRequestedResults] when the slot exists and is empty, and changes
    nothing otherwise.  Over any sequence of calls a filled slot keeps the
    request it was given first. *)
Theorem setResults_fills_each_slot_once :
  forall h render request stat render',
    setResults h render request stat = Ok render' ->
    state render'
    = (if isFailureRetCode stat then stat else state render)
    /\ match request with
       | None =>
           outputRequest render' = outputRequest render
           /\ extraRequestedResults render' = extraRequestedResults render
       | Some req =>
           let node := getNode (getEffect (h !!! req)) in
           exists args : CtorArgs, ctorArgs render = Some args /\
           if decide (node = getNode (treeRootEffect args)) then
             outputRequest render' = Some req
             /\ extraRequestedResults render' = extraRequestedResults render
           else
             outputRequest render' = outputRequest render
             /\ extraRequestedResults render'
                = match extraRequestedResults render !! node with
                  | Some None => <[node := Some req]> (extraRequestedResults render)
                  | _ => extraRequestedResults render
                  end
       end
    /\ forall cs final node v,
         calls h render' cs = Ok final ->
         extraRequestedResults render' !! node = Some (Some v) ->
         extraRequestedResults final !! node = Some (Some v).
Proof.
  intros h render request stat render' H.
  split; [|split].
  - unfold setResults in H.
    destruct request as [req|];
      [destruct (ctorArgs _); [|discriminate]; case_decide;
       [|destruct (_ !! _) as [[]|]] |];
      destruct (isFailureRetCode stat); inversion H; done.
  - unfold setResults in H.
    destruct request as [req|].
    + simpl.
      assert (Ec : forall r, ctorArgs
                (if isFailureRetCode stat then with_state stat r else r)
                = ctorArgs r) by (intros; by destruct (isFailureRetCode stat)).
      rewrite Ec in H.
      destruct (ctorArgs render) as [args|]; [|discriminate].
      exists args. split; [done|].
      case_decide.
      * inversion H; subst. by destruct (isFailureRetCode stat).
      * destruct (isFailureRetCode stat); simpl in H;
          destruct (extraRequestedResults render !! _) as [[w|]|];
          inversion H; subst; done.
    + inversion H; subst. by destruct (isFailureRetCode stat).
  - intros cs final node v Hcs Hv.
    by apply (calls_extra_monotone h cs render' final node Hcs).
Qed.

(** ** Creation of a tree render *)

Lemma init_ctorArgs app render inArgs :
  ctorArgs (fst (init app render inArgs)) = Some inArgs
  /\ state (fst (init app render inArgs)) = state render.
Proof.
  unfold init. destruct (getCurrentSettings app); simpl; [|done].
  match goal with |- context [fetchOpenGLContext ?a ?r ?i] =>
    destruct (fetchOpenGLContext a r i) as [r'|] eqn:E end; simpl; [|done].
  unfold fetchOpenGLContext in E. bind_inv E. by inversion E.
Qed.

(** ** Failed tree renders *)


(** [createMainExecutionData] reads the construction arguments before it
    looks at the state: on a tree render that never stored them it
    dereferences a null pointer. *)
Remark createMainExecutionData_without_ctorArgs app render :
  ctorArgs render = None ->
  createMainExecutionData app render = Err NullDereference.
Proof. intros H. unfold createMainExecutionData. by rewrite H. Qed.

(** ** Sets and multisets of requests *)

Lemma elem_of_set_insert x z l :
  z ∈ set_insert x l <-> z = x \/ z ∈ l.
Proof.
  induction l as [|y l IH]; simpl.
  - rewrite list_elem_of_singleton, elem_of_nil. tauto.
  - destruct (Pos.ltb_spec x y).
    + by rewrite elem_of_cons.
    + destruct (Pos.eqb_spec x y) as [->|].
      * rewrite elem_of_cons. tauto.
      * rewrite !elem_of_cons, IH. tauto.
Qed.

Lemma set_insert_sorted x l :
  StronglySorted Pos.lt l -> StronglySorted Pos.lt (set_insert x l).
Proof.
  induction l as [|y l IH]; simpl; intros Hs.
  - repeat constructor.
  - apply StronglySorted_inv in Hs as [Hs Hy].
    rewrite Forall_forall in Hy.
    destruct (Pos.ltb_spec x y) as [Hlt|Hge].
    + constructor; [by constructor; [|apply Forall_forall]|].
      constructor; [done|].
      apply Forall_forall. intros z Hz. specialize (Hy z Hz). lia.
    + destruct (Pos.eqb_spec x y) as [->|Hne].
      * constructor; [done|]. by apply Forall_forall.
      * constructor; [by apply IH|].
        apply Forall_forall. intros z Hz.
        apply list_elem_of_In, elem_of_set_insert in Hz as [->|Hz]; [lia|].
        by apply Hy, list_elem_of_In.
Qed.

Lemma sorted_head_fresh (r : positive) rest :
  StronglySorted Pos.lt (r :: rest) -> (r ∉ rest) /\ StronglySorted Pos.lt rest.
Proof.
  intros Hs. apply StronglySorted_inv in Hs as [Hs Hr]. split; [|done].
  intros Hin. rewrite Forall_forall in Hr.
  apply list_elem_of_In, Hr in Hin. lia.
Qed.

Lemma remove_one_nil x l : l = [] -> remove_one x l = [].
Proof. by intros ->. Qed.

Lemma elem_of_remove_one_ne x y l :
  x ≠ y -> x ∈ l -> x ∈ remove_one y l.
Proof.
  intros Hne. induction l as [|z l IH]; simpl; [done|].
  intros Hin. case_decide as Hd.
  - subst z. apply elem_of_cons in Hin as [?|?]; [congruence|done].
  - apply elem_of_cons in Hin as [->|?]; [left|right; auto].
Qed.

Lemma remove_one_perm x l : x ∈ l -> l ≡ₚ x :: remove_one x l.
Proof.
  induction l as [|z l IH]; simpl; [by intros ?%elem_of_nil|].
  intros Hin. case_decide as Hd; [by subst|].
  apply elem_of_cons in Hin as [?|Hin]; [congruence|].
  rewrite (IH Hin) at 1. apply Permutation_swap.
Qed.

Lemma take_running_perm request l stat rest :
  take_running request l = Some (stat, rest) ->
  l.*1 ≡ₚ request :: rest.*1.
Proof.
  revert rest. induction l as [|[r st] l IH]; simpl; intros rest H; [done|].
  case_decide as Hd.
  - inversion H; subst. done.
  - destruct (take_running request l) as [[found rest']|]; [|done].
    inversion H; subst. simpl. rewrite (IH rest' eq_refl).
    apply Permutation_swap.
Qed.

(** ** Reading the heap of requests through its updates *)


Lemma dependencies_clear (h : RequestHeap) request r :
  dependencies (clearRenderedDependencies h request !!! r)
  = dependencies (h !!! r).
Proof.
  unfold clearRenderedDependencies.
  destruct (decide (request = r)) as [->|Hne].
  - by rewrite lookup_total_insert_eq.
  - by rewrite lookup_total_insert_ne.
Qed.

Lemma listeners_clear (h : RequestHeap) request r :
  listeners (clearRenderedDependencies h request !!! r) = listeners (h !!! r).
Proof.
  unfold clearRenderedDependencies.
  destruct (decide (request = r)) as [->|Hne].
  - by rewrite lookup_total_insert_eq.
  - by rewrite lookup_total_insert_ne.
Qed.

Lemma fvrStatus_clear (h : RequestHeap) request r :
  fvrStatus (clearRenderedDependencies h request !!! r) = fvrStatus (h !!! r).
Proof.
  unfold clearRenderedDependencies.
  destruct (decide (request = r)) as [->|Hne].
  - by rewrite lookup_total_insert_eq.
  - by rewrite lookup_total_insert_ne.
Qed.

Lemma dependencies_mark (h : RequestHeap) it other n h' r :
  markDependencyAsRendered h it other = (n, h') ->
  dependencies (h' !!! r)
  = if decide (it = r) then remove_one other (dependencies (h !!! r))
    else dependencies (h !!! r).
Proof.
  unfold markDependencyAsRendered. intros [= _ <-]. case_decide as Hd.
  - subst. by rewrite lookup_total_insert_eq.
  - by rewrite lookup_total_insert_ne.
Qed.

Lemma listeners_mark (h : RequestHeap) it other n h' r :
  markDependencyAsRendered h it other = (n, h') ->
  listeners (h' !!! r) = listeners (h !!! r).
Proof.
  unfold markDependencyAsRendered. intros [= _ <-].
  destruct (decide (it = r)) as [->|Hne].
  - by rewrite lookup_total_insert_eq.
  - by rewrite lookup_total_insert_ne.
Qed.

Lemma fvrStatus_mark (h : RequestHeap) it other n h' r :
  markDependencyAsRendered h it other = (n, h') ->
  fvrStatus (h' !!! r) = fvrStatus (h !!! r).
Proof.
  unfold markDependencyAsRendered. intros [= _ <-].
  destruct (decide (it = r)) as [->|Hne].
  - by rewrite lookup_total_insert_eq.
  - by rewrite lookup_total_insert_ne.
Qed.

Lemma markDependencyAsRendered_count (h : RequestHeap) it other n h' :
  markDependencyAsRendered h it other = (n, h') ->
  n = getNumDependencies h' it.
Proof.
  intros H. unfold getNumDependencies.
  rewrite (dependencies_mark _ _ _ _ _ it H), decide_True by done.
  unfold markDependencyAsRendered in H. by inversion H.
Qed.

Lemma getNumDependencies_zero (h : RequestHeap) r :
  getNumDependencies h r = 0 <-> dependencies (h !!! r) = [].
Proof.
  unfold getNumDependencies. destruct (dependencies _); simpl; split; try done; lia.
Qed.

(** ** The scheduler invariant *)

(** The invariant reads the execution through five observations, and the
    requests in flight as a multiset. *)
Lemma scheduler_invariant_ext s extra s' extra' :
  readySet s' = readySet s ->
  allRenderTasksToProcess s' = allRenderTasksToProcess s ->
  threadPool s' ++ extra' ≡ₚ threadPool s ++ extra ->
  (forall r, dependencies (requests s' !!! r) = dependencies (requests s !!! r)) ->
  (forall r, listeners (requests s' !!! r) = listeners (requests s !!! r)) ->
  scheduler_invariant s extra -> scheduler_invariant s' extra'.
Proof.
  intros Er Ea Ep Ed El [I1 I2 I3 I4 I5 I6].
  split; unfold ready_invariant, getListeners, getNumDependencies in *;
    rewrite ?Er, ?Ea.
  - done.
  - intros r Hr. rewrite Ed. by apply I2.
  - intros r l Hr Hl. rewrite El in Hl. rewrite Ed. by apply I3.
  - intros r l Hr Hl. rewrite El in Hl. by eapply I4.
  - by rewrite Ep.
  - intros r Hr. rewrite Ep in Hr. rewrite Ed. by apply I6.
Qed.

Section SchedulerInvariant.
Context (app : Application) (extra : list FrameViewRequestPtr).

(** Marking a dependency of a listener as rendered. *)
Lemma scheduler_invariant_mark s request it n h' :
  markDependencyAsRendered (requests s) it request = (n, h') ->
  request ∉ allRenderTasksToProcess s ->
  scheduler_invariant s extra ->
  scheduler_invariant (with_requests h' s) extra.
Proof.
  intros Hm Hreq [I1 I2 I3 I4 I5 I6].
  split; unfold ready_invariant, getListeners, getNumDependencies in *;
    simpl; try done.
  - intros r Hr. destruct (I2 r Hr) as [Ha Hd]. split; [done|].
    rewrite (dependencies_mark _ _ _ _ _ r Hm). case_decide; [|done].
    destruct (dependencies (requests s !!! r)); [done|simpl in Hd; lia].
  - intros r l Hr Hl. rewrite (listeners_mark _ _ _ _ _ r Hm) in Hl.
    rewrite (dependencies_mark _ _ _ _ _ l Hm).
    pose proof (I3 r l Hr Hl) as Hin.
    case_decide; [|done]. apply elem_of_remove_one_ne; [|done].
    intros ->. done.
  - intros r l Hr Hl. rewrite (listeners_mark _ _ _ _ _ r Hm) in Hl.
    by eapply I4.
  - intros r Hr. destruct (I6 r Hr) as (Ha & Hn & Hd).
    split; [done|]. split; [done|].
    rewrite (dependencies_mark _ _ _ _ _ r Hm). case_decide; [|done].
    destruct (dependencies (requests s !!! r)); [done|simpl in Hd; lia].
Qed.

(** Promoting a listener that has no dependency left. *)
Lemma scheduler_invariant_promote s it ready :
  dependencyFreeRenders s = Some ready ->
  it ∈ allRenderTasksToProcess s ->
  it ∉ threadPool s ++ extra ->
  getNumDependencies (requests s) it = 0 ->
  scheduler_invariant s extra ->
  scheduler_invariant
    (with_dependencyFreeRenders (Some (set_insert it ready)) s) extra.
Proof.
  intros Er Ha Hf Hd [I1 I2 I3 I4 I5 I6].
  unfold ready_invariant, readySet in *. rewrite Er in *.
  split; unfold ready_invariant, readySet; simpl; try done.
  - by apply set_insert_sorted.
  - intros r Hr. apply elem_of_set_insert in Hr as [->|Hr]; [done|].
    by apply I2.
  - intros r Hr. destruct (I6 r Hr) as (Ha' & Hn & Hd').
    split; [done|]. split; [|done].
    intros Hin. apply elem_of_set_insert in Hin as [->|Hin]; done.
Qed.

Lemma removeDependencyLinks_invariant request ls : forall s s',
  request ∉ allRenderTasksToProcess s ->
  (forall l, l ∈ ls ->
     l ∈ allRenderTasksToProcess s /\ (l ∉ threadPool s ++ extra)) ->
  scheduler_invariant s extra ->
  removeDependencyLinks app request ls s = Ok s' ->
  scheduler_invariant s' extra
  /\ allRenderTasksToProcess s' = allRenderTasksToProcess s
  /\ threadPool s' = threadPool s
  /\ status s' = status s
  /\ launchedRunnables s' = launchedRunnables s.
Proof.
  induction ls as [|it ls IH]; intros s s' Hreq Hls HJ H;
    cbn [removeDependencyLinks] in H.
  - by inversion H; subst.
  - destruct (markDependencyAsRendered (requests s) it request)
      as [numDepsLeft h'] eqn:Em.
    pose proof (markDependencyAsRendered_count _ _ _ _ _ Em) as Hc.
    pose proof (scheduler_invariant_mark s request it _ _ Em Hreq HJ) as HJ1.
    assert (Hls' : forall l, l ∈ ls ->
              l ∈ allRenderTasksToProcess (with_requests h' s)
              /\ (l ∉ threadPool (with_requests h' s) ++ extra)).
    { intros l Hl. apply Hls. by right. }
    destruct (Z.eqb_spec numDepsLeft 0) as [Hz|Hz].
    + destruct (dependencyFreeRenders (with_requests h' s)) as [ready|] eqn:Er;
        [|discriminate].
      destruct (set_find it ready) eqn:Ef; simpl in H.
      * by apply IH in H.
      * bind_inv H. destruct (Hls it) as [Hia Hif]; [by left|].
        apply IH in H; [done|done|done|].
        apply (scheduler_invariant_promote (with_requests h' s) it ready
                 Er Hia Hif); [|done].
        simpl. by rewrite <- Hc.
    + by apply IH in H.
Qed.

Lemma onTaskFinished_invariant render s request stat render' s' :
  scheduler_invariant s extra ->
  request ∈ allRenderTasksToProcess s ->
  request ∉ readySet s ->
  getNumDependencies (requests s) request = 0 ->
  request ∉ threadPool s ++ extra ->
  onTaskFinished app render s request stat = Ok (render', s') ->
  scheduler_invariant s' extra
  /\ allRenderTasksToProcess s' = allRenderTasksToProcess s ∖ {[request]}
  /\ threadPool s' = threadPool s
  /\ launchedRunnables s' = launchedRunnables s
  /\ status s' = (if isFailureRetCode stat then stat else status s).
Proof.
  intros HJ Ha Hr Hd Hf H. unfold onTaskFinished in H.
  bind_inv H. bind_inv H. inversion H; subst; clear H.
  set (s1 := with_requests (clearRenderedDependencies (requests s) request) s) in *.
  set (s2 := if isFailureRetCode stat then with_status stat s1 else s1) in *.
  assert (HJ2 : scheduler_invariant s2 extra).
  { eapply (scheduler_invariant_ext s extra); [..|exact HJ];
      subst s2 s1; destruct (isFailureRetCode stat); simpl; try done;
      intros; by rewrite ?dependencies_clear, ?listeners_clear. }
  assert (E2 : allRenderTasksToProcess s2 = allRenderTasksToProcess s
               /\ threadPool s2 = threadPool s
               /\ readySet s2 = readySet s
               /\ launchedRunnables s2 = launchedRunnables s
               /\ status s2 = (if isFailureRetCode stat then stat else status s)
               /\ (forall r, dependencies (requests s2 !!! r)
                             = dependencies (requests s !!! r))
               /\ (forall r, listeners (requests s2 !!! r)
                             = listeners (requests s !!! r))).
  { subst s2 s1; destruct (isFailureRetCode stat); simpl; repeat split; try done;
      intros; by rewrite ?dependencies_clear, ?listeners_clear. }
  destruct E2 as (Ea2 & Ep2 & Er2 & El2 & Es2 & Ed2 & Eli2).
  unfold removeTaskFromGlobalTaskList in Ha0.
  rewrite bool_decide_eq_true_2 in Ha0 by (by rewrite Ea2).
  set (s3 := with_allRenderTasksToProcess
               (allRenderTasksToProcess s2 ∖ {[request]}) s2) in *.
  assert (Hlis : forall l, l ∈ getListeners (requests s) request ->
            l ∈ allRenderTasksToProcess s3 /\ (l ∉ threadPool s3 ++ extra)).
  { intros l Hl. destruct HJ as [I1 I2 I3 I4 I5 I6].
    pose proof (I3 _ _ Ha Hl) as Hin.
    assert (Hne : l ≠ request).
    { intros ->. apply getNumDependencies_zero in Hd. rewrite Hd in Hin.
      by apply elem_of_nil in Hin. }
    split.
    - subst s3. simpl. rewrite Ea2. apply elem_of_difference.
      split; [by eapply I4|]. by rewrite elem_of_singleton.
    - subst s3. simpl. rewrite Ep2. intros Hfl.
      destruct (I6 l Hfl) as (_ & _ & Hz).
      apply getNumDependencies_zero in Hz. rewrite Hz in Hin.
      by apply elem_of_nil in Hin. }
  assert (HJ3 : scheduler_invariant s3 extra).
  { destruct HJ2 as [I1 I2 I3 I4 I5 I6]. subst s3.
    split; unfold ready_invariant, readySet in *; simpl; try done.
    - intros r Hr'. destruct (I2 r Hr') as [Hra Hrd]. split; [|done].
      apply elem_of_difference. split; [done|].
      rewrite elem_of_singleton. intros ->. apply Hr.
      unfold readySet in Er2. by rewrite <- Er2.
    - intros r l Hr' Hl. apply elem_of_difference in Hr' as [Hr' _].
      by apply I3.
    - intros r l Hr' Hl. apply elem_of_difference in Hr' as [Hr' _].
      apply elem_of_difference. split; [by eapply I4|].
      rewrite elem_of_singleton. intros ->.
      pose proof (I3 _ _ Hr' Hl) as Hin. rewrite Ed2 in Hin.
      apply getNumDependencies_zero in Hd. rewrite Hd in Hin.
      by apply elem_of_nil in Hin.
    - intros r Hr'. destruct (I6 r Hr') as (Hra & Hrn & Hrd).
      split; [|done]. apply elem_of_difference. split; [done|].
      rewrite elem_of_singleton. intros ->. apply Hf. by rewrite <- Ep2. }
  unfold removeDependencyLinkFromRequest in Ha0.
  destruct (isFailureRetCode (status s3)) eqn:Ef.
  - injection Ha0 as <-. split; [exact HJ3|]. subst s3. simpl. by rewrite Ea2.
  - apply removeDependencyLinks_invariant in Ha0 as (HJ' & Ea' & Ep' & Es' & El');
      [| |by subst s3; simpl; unfold getListeners in *; intros l;
            rewrite Eli2; apply Hlis |done].
    + split; [exact HJ'|]. rewrite Ea', Ep', Es', El'. subst s3. simpl.
      by rewrite Ea2.
    + subst s3. simpl. intros [_ Hn]%elem_of_difference.
      apply Hn. by apply elem_of_singleton.
Qed.

End SchedulerInvariant.

(** ** The loop of [executeAvailableTasks], turn by turn *)

Section Loop.
Context (app : Application).

Lemma loop_guard nTasksRemaining (ready : list positive) :
  ((nTasksRemaining =? -1) || (0 <? nTasksRemaining))
  && (0 <? Z.of_nat (length ready)) = true
  <-> (nTasksRemaining = -1 \/ 0 < nTasksRemaining) /\ ready <> [].
Proof.
  rewrite andb_true_iff, orb_true_iff, Z.eqb_eq, !Z.ltb_lt.
  destruct ready; simpl; split; intros [? ?]; split; try done; lia.
Qed.

Lemma loop_guard_false nTasksRemaining (ready : list positive) :
  ((nTasksRemaining =? -1) || (0 <? nTasksRemaining))
  && (0 <? Z.of_nat (length ready)) = false ->
  ~ (nTasksRemaining = -1 \/ 0 < nTasksRemaining) \/ ready = [].
Proof.
  intros Hg. destruct ready as [|p ready]; [by right|left]. intros Hn.
  apply not_true_iff_false in Hg. apply Hg, loop_guard. by split.
Qed.

Lemma loop_Ok fuel render s nTasksRemaining nTasksStarted res :
  executeAvailableTasks_loop app fuel render s nTasksRemaining nTasksStarted
  = Ok res ->
  (loop_exit s nTasksRemaining /\ res = (nTasksStarted, render, s))
  \/ exists fuel' render' s' nTasksRemaining' nTasksStarted',
       fuel = S fuel'
       /\ iteration app (render, s, nTasksRemaining, nTasksStarted)
            (render', s', nTasksRemaining', nTasksStarted')
       /\ executeAvailableTasks_loop app fuel' render' s' nTasksRemaining'
            nTasksStarted' = Ok res.
Proof.
  intros H.
  destruct fuel as [|fuel']; simpl in H;
    destruct (dependencyFreeRenders s) as [ready|] eqn:Er; try discriminate;
    destruct (_ && _) eqn:Eg.
  - discriminate.
  - left. split; [|by inversion H]. exists ready. split; [done|].
    by apply loop_guard_false.
  - apply loop_guard in Eg as [Hn Hne].
    destruct ready as [|request ready]; [done|].
    right.
    destruct (TREE_RENDER_DISABLE_MT app) eqn:Emt.
    + bind_inv H. destruct a as [render' s'].
      exists fuel', render', s', nTasksRemaining, nTasksStarted.
      split; [done|]. split; [|done].
      eapply iteration_inline; eauto.
    + destruct (bool_decide _ && _) eqn:Ed.
      * apply andb_true_iff in Ed as [Ed1 Ed2].
        apply bool_decide_eq_true in Ed1. apply negb_true_iff in Ed2.
        eexists fuel', render, _, _, _. split; [done|]. split; [|exact H].
        by eapply iteration_start.
      * bind_inv H. destruct a as [render' s'].
        exists fuel', render', s', nTasksRemaining, nTasksStarted.
        split; [done|]. split; [|done].
        eapply iteration_inline; eauto.
        apply andb_false_iff in Ed as [Ed|Ed].
        -- right; left. by apply bool_decide_eq_false in Ed.
        -- right; right. by apply negb_false_iff in Ed.
  - left. split; [|by inversion H]. exists ready. split; [done|].
    by apply loop_guard_false.
Qed.

(** With fuel left, a turn of the loop is a turn of the function. *)
Lemma loop_iteration fuel render s nTasksRemaining nTasksStarted next :
  iteration app (render, s, nTasksRemaining, nTasksStarted) next ->
  executeAvailableTasks_loop app (S fuel) render s nTasksRemaining nTasksStarted
  = executeAvailableTasks_loop app fuel next.1.1.1 next.1.1.2 next.1.2 next.2.
Proof.
  intros Hit.
  inversion Hit as [r0 s0 n0 k0 req rdy Er Hn Hmt Hst Hfl
                   |r0 s0 n0 k0 req rdy r1 s1 Er Hn Hc Hrun]; subst; simpl.
  - rewrite Er. rewrite (proj2 (loop_guard nTasksRemaining (req :: rdy)))
      by done.
    rewrite Hmt. simpl. rewrite Hst, Hfl. done.
  - rewrite Er. rewrite (proj2 (loop_guard nTasksRemaining (req :: rdy)))
      by done.
    destruct (TREE_RENDER_DISABLE_MT app) eqn:Emt.
    + by rewrite Hrun.
    + destruct Hc as [?|[Hs|Hs]]; [done| |].
      * rewrite bool_decide_eq_false_2 by done. simpl. by rewrite Hrun.
      * simpl. rewrite Hs. rewrite andb_false_r. by rewrite Hrun.
Qed.

Lemma loop_exits fuel render s nTasksRemaining nTasksStarted :
  loop_exit s nTasksRemaining ->
  executeAvailableTasks_loop app fuel render s nTasksRemaining nTasksStarted
  = Ok (nTasksStarted, render, s).
Proof.
  intros (ready & Er & Hx).
  assert (Hg : ((nTasksRemaining =? -1) || (0 <? nTasksRemaining))
               && (0 <? Z.of_nat (length ready)) = false).
  { apply not_true_is_false. rewrite loop_guard. tauto. }
  destruct fuel; simpl; by rewrite Er, Hg.
Qed.

End Loop.

(** ** One turn of the loop keeps the scheduler invariant *)

Section LoopInvariant.
Context (app : Application) (extra : list FrameViewRequestPtr).

Lemma pop_invariant s request ready :
  scheduler_invariant s extra ->
  dependencyFreeRenders s = Some (request :: ready) ->
  scheduler_invariant (with_dependencyFreeRenders (Some ready) s) extra
  /\ request ∈ allRenderTasksToProcess s
  /\ (request ∉ ready)
  /\ getNumDependencies (requests s) request = 0
  /\ (request ∉ threadPool s ++ extra).
Proof.
  intros [I1 I2 I3 I4 I5 I6] Er.
  unfold ready_invariant, readySet in *. rewrite Er in *.
  apply sorted_head_fresh in I1 as [Hfresh Hsorted].
  destruct (I2 request) as [Ha Hd]; [by left|].
  split; [|split; [done|split; [done|split; [done|]]]].
  - split; unfold ready_invariant, readySet; simpl; try done.
    + intros r Hr. apply I2. by right.
    + intros r Hr. destruct (I6 r Hr) as (Hra & Hrn & Hrd).
      split; [done|]. split; [|done]. intros Hin. apply Hrn. by right.
  - intros Hin. destruct (I6 _ Hin) as (_ & Hn & _). apply Hn. by left.
Qed.

Lemma start_invariant s request :
  scheduler_invariant s extra ->
  request ∈ allRenderTasksToProcess s ->
  request ∉ readySet s ->
  getNumDependencies (requests s) request = 0 ->
  request ∉ threadPool s ++ extra ->
  scheduler_invariant (startRunnable request s) extra.
Proof.
  intros [I1 I2 I3 I4 I5 I6] Ha Hr Hd Hf.
  assert (Hp : (threadPool s ++ [request]) ++ extra
               ≡ₚ request :: threadPool s ++ extra).
  { rewrite <- app_assoc. simpl. symmetry. apply Permutation_middle. }
  split; unfold ready_invariant, readySet in *; simpl; try done.
  - rewrite Hp. by apply NoDup_cons_2.
  - intros r. rewrite Hp, elem_of_cons. intros [->|Hin]; [done|]. by apply I6.
Qed.

Lemma flight_bounded s :
  scheduler_invariant s extra ->
  (length (threadPool s ++ extra) <= size (allRenderTasksToProcess s))%nat.
Proof.
  intros [I1 I2 I3 I4 I5 I6].
  rewrite <- (size_list_to_set (C := gset positive) _ I5).
  apply subseteq_size. intros r Hr. apply elem_of_list_to_set in Hr.
  by apply I6.
Qed.

Lemma iteration_invariant render s n k render' s' n' k' :
  scheduler_invariant s extra ->
  iteration app (render, s, n, k) (render', s', n', k') ->
  scheduler_invariant s' extra /\ (potential extra s' < potential extra s)%nat.
Proof.
  intros HJ Hit.
  inversion Hit as [r0 s0 n0 k0 req rdy Er Hn Hmt Hst Hfl
                   |r0 s0 n0 k0 req rdy r1 s1 Er Hn Hc Hrun]; subst.
  - destruct (pop_invariant _ _ _ HJ Er) as (HJ1 & Ha & Hr & Hd & Hf).
    assert (HJ2 := start_invariant _ req HJ1 Ha Hr Hd Hf).
    split; [done|].
    pose proof (flight_bounded _ HJ2) as Hb. unfold potential in *.
    simpl in *. rewrite <- app_assoc, length_app in *. simpl in *.
    rewrite length_app in *. simpl in *. lia.
  - destruct (pop_invariant _ _ _ HJ Er) as (HJ1 & Ha & Hr & Hd & Hf).
    unfold run in Hrun.
    apply (onTaskFinished_invariant app extra) in Hrun
      as (HJ2 & Ea & Ep & _ & _); try done.
    split; [done|].
    pose proof (flight_bounded _ HJ2) as Hb. unfold potential.
    rewrite Ea, Ep in *. simpl in *.
    assert (Hs : size (allRenderTasksToProcess s)
                 = S (size (allRenderTasksToProcess s ∖ {[req]}))).
    { rewrite (union_difference_L {[req]} (allRenderTasksToProcess s)) at 1
        by (by apply singleton_subseteq_l).
      rewrite size_union, size_singleton; [done|].
      apply elem_of_disjoint. intros x Hx [_ Hnx]%elem_of_difference. done. }
    lia.
Qed.

End LoopInvariant.

(** ** The whole call keeps the invariant and returns *)

Section Calls.
Context (app : Application) (extra : list FrameViewRequestPtr).

Lemma loop_invariant fuel : forall render s n k k' render' s',
  scheduler_invariant s extra ->
  executeAvailableTasks_loop app fuel render s n k = Ok (k', render', s') ->
  scheduler_invariant s' extra.
Proof.
  induction fuel as [|fuel IH]; intros render s n k k' render' s' HJ H;
    apply loop_Ok in H
      as [[_ [= -> -> ->]]|(f & r1 & s1 & n1 & k1 & Hf & Hit & H)];
    try done.
  injection Hf as <-.
  eapply IH; [|exact H]. by eapply iteration_invariant.
Qed.

Lemma executeAvailableTasks_invariant fuel render s nTasks k render' s' :
  scheduler_invariant s extra ->
  executeAvailableTasks app fuel render s nTasks = Ok (k, render', s') ->
  scheduler_invariant s' extra.
Proof.
  intros HJ H. unfold executeAvailableTasks in H. bind_inv H.
  destruct (dependencyFreeRenders s); [|by inversion H; subst].
  by eapply loop_invariant.
Qed.

Lemma setResults_state h render request stat render' :
  setResults h render request stat = Ok render' ->
  state render' = (if isFailureRetCode stat then stat else state render).
Proof.
  unfold setResults. intros H.
  destruct request as [req|];
    [destruct (ctorArgs _); [|discriminate]; case_decide;
     [|destruct (_ !! _) as [[]|]] |];
    destruct (isFailureRetCode stat); inversion H; done.
Qed.

Lemma setResults_ctorArgs h render request stat render' :
  setResults h render request stat = Ok render' ->
  ctorArgs render' = ctorArgs render.
Proof.
  unfold setResults. intros H.
  destruct request as [req|];
    [destruct (ctorArgs _) eqn:Ec; [|discriminate]; case_decide;
     [|destruct (_ !! _) as [[]|]] |];
    destruct (isFailureRetCode stat); inversion H; done.
Qed.

Lemma setResults_total h render request stat :
  is_Some (ctorArgs render) ->
  exists render', setResults h render request stat = Ok render'.
Proof.
  intros [args Ha]. unfold setResults.
  assert (Ec : ctorArgs (if isFailureRetCode stat then with_state stat render
                         else render) = Some args)
    by (by destruct (isFailureRetCode stat)).
  destruct request as [req|]; [|eauto]. rewrite Ec.
  case_decide; [eauto|]. destruct (_ !! _) as [[]|]; eauto.
Qed.

Lemma removeDependencyLinks_total request ls : forall s,
  is_Some (dependencyFreeRenders s) ->
  (forall l, l ∈ ls -> l ∈ allRenderTasksToProcess s) ->
  exists s', removeDependencyLinks app request ls s = Ok s'.
Proof.
  induction ls as [|it ls IH]; intros s [ready Er] Hls;
    cbn [removeDependencyLinks]; [eauto|].
  destruct (markDependencyAsRendered (requests s) it request)
    as [numDepsLeft h'] eqn:Em.
  assert (Hls' : forall l, l ∈ ls -> l ∈ allRenderTasksToProcess s)
    by (intros l Hl; apply Hls; by right).
  destruct (numDepsLeft =? 0).
  - simpl. rewrite Er.
    destruct (set_find it ready); simpl.
    + apply IH; simpl; eauto.
    + unfold assert. rewrite bool_decide_eq_true_2 by (apply Hls; by left).
      rewrite orb_true_r. simpl. apply IH; simpl; eauto.
  - apply IH; simpl; eauto.
Qed.

Lemma onTaskFinished_total render s request stat :
  scheduler_invariant s extra ->
  request ∈ allRenderTasksToProcess s ->
  getNumDependencies (requests s) request = 0 ->
  is_Some (dependencyFreeRenders s) ->
  is_Some (ctorArgs render) ->
  exists render' s', onTaskFinished app render s request stat = Ok (render', s').
Proof.
  intros [I1 I2 I3 I4 I5 I6] Ha Hd Hr Hc. unfold onTaskFinished.
  set (s1 := with_requests (clearRenderedDependencies (requests s) request) s).
  set (s2 := if isFailureRetCode stat then with_status stat s1 else s1).
  assert (E2 : allRenderTasksToProcess s2 = allRenderTasksToProcess s
               /\ dependencyFreeRenders s2 = dependencyFreeRenders s
               /\ (forall r, listeners (requests s2 !!! r)
                             = listeners (requests s !!! r))).
  { subst s2 s1; destruct (isFailureRetCode stat); simpl; repeat split; try done;
      intros; by rewrite ?listeners_clear. }
  destruct E2 as (Ea2 & Er2 & El2).
  unfold removeTaskFromGlobalTaskList.
  rewrite bool_decide_eq_true_2 by (by rewrite Ea2).
  set (s3 := with_allRenderTasksToProcess _ s2).
  assert (exists s4, removeDependencyLinkFromRequest app s3 request = Ok s4)
    as [s4 ->].
  { unfold removeDependencyLinkFromRequest.
    destruct (isFailureRetCode (status s3)); [eauto|].
    apply removeDependencyLinks_total.
    - subst s3. simpl. by rewrite Er2.
    - intros l Hl. subst s3. unfold getListeners in *. simpl in *.
      rewrite El2 in Hl. rewrite Ea2.
      apply elem_of_difference. split; [by eapply I4|].
      rewrite elem_of_singleton. intros ->.
      pose proof (I3 _ _ Ha Hl) as Hin.
      apply getNumDependencies_zero in Hd. rewrite Hd in Hin.
      by apply elem_of_nil in Hin. }
  cbn [res_bind].
  destruct (setResults_total (requests s4) render (Some request) (status s4) Hc)
    as [render' ->].
  cbn [res_bind]. eauto.
Qed.

Lemma removeDependencyLinks_ready request ls : forall s s',
  removeDependencyLinks app request ls s = Ok s' ->
  is_Some (dependencyFreeRenders s) -> is_Some (dependencyFreeRenders s').
Proof.
  induction ls as [|it ls IH]; intros s s' H Hr;
    cbn [removeDependencyLinks] in H; [by inversion H; subst|].
  destruct (markDependencyAsRendered (requests s) it request)
    as [numDepsLeft h'] eqn:Em.
  destruct (numDepsLeft =? 0); [|by apply IH in H].
  destruct (dependencyFreeRenders (with_requests h' s)) as [ready|];
    [|discriminate].
  destruct (set_find it ready); simpl in H; [by apply IH in H|].
  bind_inv H. apply IH in H; [done|]. simpl. eauto.
Qed.

Lemma onTaskFinished_keeps render s request stat render' s' :
  onTaskFinished app render s request stat = Ok (render', s') ->
  ctorArgs render' = ctorArgs render
  /\ (is_Some (dependencyFreeRenders s) -> is_Some (dependencyFreeRenders s')).
Proof.
  unfold onTaskFinished. intros H. bind_inv H. bind_inv H.
  injection H as <- <-. split; [by eapply setResults_ctorArgs|].
  intros Hr. unfold removeDependencyLinkFromRequest in Ha.
  assert (Hr3 : is_Some (dependencyFreeRenders
            (removeTaskFromGlobalTaskList
               (if isFailureRetCode stat
                then with_status stat
                       (with_requests
                          (clearRenderedDependencies (requests s) request) s)
                else with_requests
                       (clearRenderedDependencies (requests s) request) s)
               request))).
  { unfold removeTaskFromGlobalTaskList.
    destruct (isFailureRetCode stat); case_bool_decide; done. }
  destruct (isFailureRetCode (status _)).
  - by injection Ha as <-.
  - by eapply removeDependencyLinks_ready.
Qed.

Lemma loop_total fuel : forall render s n k,
  scheduler_invariant s extra ->
  is_Some (ctorArgs render) ->
  is_Some (dependencyFreeRenders s) ->
  (potential extra s < fuel)%nat ->
  exists res, executeAvailableTasks_loop app fuel render s n k = Ok res.
Proof.
  induction fuel as [|fuel IH]; intros render s n k HJ Hc [ready Er] Hp;
    [lia|].
  destruct (((n =? -1) || (0 <? n)) && (0 <? Z.of_nat (length ready)))
    eqn:Eg.
  2:{ eexists. apply loop_exits. exists ready. split; [done|].
      by apply loop_guard_false. }
  apply loop_guard in Eg as [Hn Hne].
  destruct ready as [|request ready]; [done|].
  destruct (pop_invariant extra _ _ _ HJ Er) as (HJ1 & Ha & Hr & Hd & Hf).
  assert (Hinline :
    TREE_RENDER_DISABLE_MT app = true
    \/ fvrStatus (requests s !!! request) <> eFrameViewRequestStatusNotRendered
    \/ isFailureRetCode (status s) = true ->
    exists res, executeAvailableTasks_loop app (S fuel) render s n k = Ok res).
  { intros Hcase.
    destruct (onTaskFinished_total render
                (with_dependencyFreeRenders (Some ready) s) request
                (if negb (isFailureRetCode (status s))
                 then launchNodeRender app request else status s)
                HJ1 Ha Hd ltac:(simpl; eauto) Hc) as (render' & s' & Hrun).
    assert (Hit : iteration app (render, s, n, k) (render', s', n, k))
      by (by eapply iteration_inline).
    rewrite (loop_iteration app fuel _ _ _ _ _ Hit). simpl.
    destruct (iteration_invariant app extra _ _ _ _ _ _ _ _ HJ Hit) as [HJ' Hlt].
    apply onTaskFinished_keeps in Hrun as [Hc' Hr'].
    apply IH; [done|by rewrite Hc'|apply Hr'; simpl; eauto|lia]. }
  destruct (TREE_RENDER_DISABLE_MT app) eqn:Emt; [by apply Hinline; left|].
  destruct (decide (fvrStatus (requests s !!! request)
                    = eFrameViewRequestStatusNotRendered)) as [Hst|Hst];
    [|by apply Hinline; right; left].
  destruct (isFailureRetCode (status s)) eqn:Hfl;
    [by apply Hinline; right; right|].
  assert (Hit : iteration app (render, s, n, k)
            (render,
             startRunnable request (with_dependencyFreeRenders (Some ready) s),
             wrap32 (n - 1), wrap32 (k + 1)))
    by (by eapply iteration_start).
  rewrite (loop_iteration app fuel _ _ _ _ _ Hit). simpl.
  destruct (iteration_invariant app extra _ _ _ _ _ _ _ _ HJ Hit) as [HJ' Hlt].
  apply IH; [done|done|simpl; eauto|lia].
Qed.

(** With enough fuel [executeAvailableTasks] returns. *)
Lemma executeAvailableTasks_total fuel render s nTasks :
  scheduler_invariant s extra ->
  is_Some (ctorArgs render) ->
  nTasks <> 0 ->
  (potential extra s < fuel)%nat ->
  exists res, executeAvailableTasks app fuel render s nTasks = Ok res.
Proof.
  intros HJ Hc Hn Hp. unfold executeAvailableTasks, assert.
  destruct (Z.eqb_spec nTasks 0); [done|]. rewrite orb_true_r.
  cbn [res_bind].
  destruct (dependencyFreeRenders s) eqn:Er; [|eauto].
  apply loop_total; eauto.
Qed.

End Calls.

(** ** Planning establishes the invariant *)

Lemma addTaskToRender_ready_invariant s render s' :
  ready_invariant s ->
  addTaskToRender s render = Ok s' ->
  ready_invariant s'
  /\ render ∈ allRenderTasksToProcess s'
  /\ (render ∈ readySet s' <-> getNumDependencies (requests s) render = 0).
Proof.
  unfold addTaskToRender, ready_invariant, readySet. intros HI H. simpl in H.
  destruct (Z.eqb_spec (getNumDependencies (requests s) render) 0) as [Hz|Hz].
  - destruct (dependencyFreeRenders s) as [ready|] eqn:Er; [|discriminate].
    injection H as <-. simpl. split; [|split].
    + intros r Hr. apply elem_of_set_insert in Hr as [->|Hr].
      * split; [|done]. apply elem_of_union_l. by apply elem_of_singleton.
      * destruct (HI r Hr). split; [|done]. by apply elem_of_union_r.
    + apply elem_of_union_l. by apply elem_of_singleton.
    + split; [done|]. intros _. apply elem_of_set_insert. by left.
  - injection H as <-. simpl. split; [|split].
    + intros r Hr. destruct (HI r Hr). split; [|done]. by apply elem_of_union_r.
    + apply elem_of_union_l. by apply elem_of_singleton.
    + split; [|done]. intros Hr. by apply HI in Hr as [_ ?].
Qed.

Lemma addTaskToRender_observed s render s' :
  addTaskToRender s render = Ok s' ->
  allRenderTasksToProcess s' = {[render]} ∪ allRenderTasksToProcess s
  /\ requests s' = requests s
  /\ threadPool s' = threadPool s
  /\ (StronglySorted Pos.lt (readySet s) -> StronglySorted Pos.lt (readySet s'))
  /\ (is_Some (dependencyFreeRenders s) -> is_Some (dependencyFreeRenders s')).
Proof.
  unfold addTaskToRender, readySet. intros H. simpl in H.
  destruct (_ =? 0); [destruct (dependencyFreeRenders s) eqn:Er; [|discriminate]|];
    injection H as <-; simpl; rewrite ?Er; split_and!; try done;
    try (by apply set_insert_sorted); eauto.
Qed.

Lemma addTasksToRender_planned tasks : forall s s',
  ready_invariant s ->
  StronglySorted Pos.lt (readySet s) ->
  addTasksToRender tasks s = Ok s' ->
  ready_invariant s'
  /\ StronglySorted Pos.lt (readySet s')
  /\ allRenderTasksToProcess s' = list_to_set tasks ∪ allRenderTasksToProcess s
  /\ requests s' = requests s
  /\ threadPool s' = threadPool s
  /\ (is_Some (dependencyFreeRenders s) -> is_Some (dependencyFreeRenders s')).
Proof.
  induction tasks as [|render tasks IH]; simpl; intros s s' HI Hs H.
  - injection H as <-. split_and!; try done.
    by rewrite union_empty_l_L.
  - bind_inv H.
    destruct (addTaskToRender_ready_invariant _ _ _ HI Ha) as (HI' & _ & _).
    destruct (addTaskToRender_observed _ _ _ Ha) as (Ea & Eh & Ep & Hs' & Hr).
    destruct (IH _ _ HI' (Hs' Hs) H) as (HI'' & Hs'' & Ea' & Eh' & Ep' & Hr').
    split_and!; try done; try congruence; [|auto].
    rewrite Ea', Ea. apply set_eq. intros x. rewrite !elem_of_union. tauto.
Qed.

(** An execution that was not planned has nothing to schedule. *)
Lemma scheduler_invariant_unplanned s :
  allRenderTasksToProcess s = ∅ ->
  readySet s = [] ->
  threadPool s = [] ->
  scheduler_invariant s [].
Proof.
  intros Ea Er Ep.
  split; unfold ready_invariant; rewrite ?Ea, ?Er, ?Ep; simpl.
  - constructor.
  - by intros r ?%elem_of_nil.
  - by intros r l ?%elem_of_empty.
  - by intros r l ?%elem_of_empty.
  - constructor.
  - by intros r ?%elem_of_nil.
Qed.

Lemma createExecutionDataInternal_invariant app render isMain root t v ps mm pp roi s :
  (forall e t v ps mm p roi, well_wired (requestRender app e t v ps mm p roi)) ->
  createExecutionDataInternal app render isMain root t v ps mm pp roi = Ok s ->
  scheduler_invariant s [].
Proof.
  intros Hw H. unfold createExecutionDataInternal in H.
  destruct (isFailureRetCode (state render));
    [injection H as <-; by apply scheduler_invariant_unplanned|].
  bind_inv H. bind_inv H.
  assert (E0 : allRenderTasksToProcess a0 = ∅ /\ dependencyFreeRenders a0 = None
               /\ threadPool a0 = []).
  { destruct pp; [by injection Ha0 as <-|].
    bind_inv Ha0. destruct a1. by injection Ha0 as <-. }
  destruct E0 as (Ea0 & Er0 & Ep0).
  destruct (isFailureRetCode (status a0));
    [injection H as <-; apply scheduler_invariant_unplanned; try done;
     unfold readySet; by rewrite Er0|].
  bind_inv H.
  assert (E1 : allRenderTasksToProcess a1 = ∅ /\ dependencyFreeRenders a1 = None
               /\ threadPool a1 = []).
  { destruct roi; [by injection Ha1 as <-|].
    bind_inv Ha1. destruct a2. by injection Ha1 as <-. }
  destruct E1 as (Ea1 & Er1 & Ep1).
  destruct (isFailureRetCode (status a1));
    [injection H as <-; apply scheduler_invariant_unplanned; try done;
     unfold readySet; by rewrite Er1|].
  bind_inv H.
  set (pass := requestRender app root t v ps mm _ _) in *.
  apply addTasksToRender_planned in Ha2
    as (HI & Hs & Ea & Eh & Ep & _);
    [|by intros r ?%elem_of_nil|constructor].
  simpl in Ea, Eh, Ep.
  destruct (Hw root t v ps mm (exec_plane (with_dependencyFreeRenders (Some []) a1))
              (exec_canonicalRoI (with_dependencyFreeRenders (Some []) a1)))
    as [Hw1 Hw2].
  fold pass in Hw1, Hw2.
  assert (HJ : scheduler_invariant a2 []).
  { split; try done.
    - intros r l _ Hl. unfold getListeners in Hl. rewrite Eh in *. by apply Hw1.
    - intros r l Hr Hl. unfold getListeners in Hl. rewrite Eh in Hl.
      rewrite Ea, Ea1, union_empty_r_L in *.
      apply elem_of_list_to_set. apply elem_of_list_to_set in Hr. by eapply Hw2.
    - rewrite Ep, Ep1. constructor.
    - rewrite Ep, Ep1. by intros r ?%elem_of_nil. }
  assert (HJ' : forall st,
    scheduler_invariant (with_status st
      (with_exec_outputRequest (pass_outputRequest pass) a2)) []).
  { intros st. by eapply scheduler_invariant_ext; [..|exact HJ]. }
  destruct (isFailureRetCode _); [by injection H as <-|].
  destruct (dependencyFreeRenders _) eqn:Er; [|discriminate].
  bind_inv H. case_bool_decide; injection H as <-; [|done].
  by eapply scheduler_invariant_ext; [..|exact HJ].
Qed.

(** ** The plan of an execution *)

Lemma addTaskToRender_fields s render s' :
  addTaskToRender s render = Ok s' ->
  isMainExecutionOfTree s' = isMainExecutionOfTree s
  /\ status s' = status s
  /\ exec_canonicalRoI s' = exec_canonicalRoI s
  /\ exec_plane s' = exec_plane s
  /\ exec_outputRequest s' = exec_outputRequest s
  /\ launchedRunnables s' = launchedRunnables s
  /\ (forall r, r ∈ readySet s' <->
        r ∈ readySet s
        \/ (r = render /\ getNumDependencies (requests s) render = 0)).
Proof.
  unfold addTaskToRender, readySet. intros H. simpl in H.
  destruct (Z.eqb_spec (getNumDependencies (requests s) render) 0) as [Hz|Hz].
  - destruct (dependencyFreeRenders s) as [ready|] eqn:Er; [|discriminate].
    injection H as <-. simpl. split_and!; try done.
    intros r. rewrite elem_of_set_insert. tauto.
  - injection H as <-. simpl. split_and!; try done. tauto.
Qed.

Lemma addTasksToRender_fields tasks : forall s s',
  addTasksToRender tasks s = Ok s' ->
  isMainExecutionOfTree s' = isMainExecutionOfTree s
  /\ status s' = status s
  /\ exec_canonicalRoI s' = exec_canonicalRoI s
  /\ exec_plane s' = exec_plane s
  /\ exec_outputRequest s' = exec_outputRequest s
  /\ launchedRunnables s' = launchedRunnables s
  /\ (forall r, r ∈ readySet s' <->
        r ∈ readySet s
        \/ (r ∈ tasks /\ getNumDependencies (requests s) r = 0)).
Proof.
  induction tasks as [|render tasks IH]; simpl; intros s s' H.
  - injection H as <-. split_and!; try done. intros r.
    rewrite elem_of_nil. tauto.
  - bind_inv H.
    destruct (addTaskToRender_observed _ _ _ Ha) as (_ & Eh & _).
    destruct (addTaskToRender_fields _ _ _ Ha)
      as (E1 & E2 & E3 & E4 & E5 & E6 & Hr).
    destruct (IH _ _ H) as (F1 & F2 & F3 & F4 & F5 & F6 & Hr').
    split_and!; try congruence.
    intros r. rewrite Hr', Hr, Eh, elem_of_cons.
    split; [intros [[?|[-> ?]]|[? ?]]|intros [?|[[->|?] ?]]]; tauto.
Qed.

(** The execution that [createExecutionDataInternal] returns when neither
    the tree render nor the execution has failed is the plan of the
    request pass on the root it was given. *)
Lemma createExecutionDataInternal_planned :
  forall app render isMain root t v ps mm pp roi s,
    createExecutionDataInternal app render isMain root t v ps mm pp roi = Ok s ->
    isFailureRetCode (state render) = false ->
    isFailureRetCode (status s) = false ->
    let pass := requestRender app root t v ps mm (exec_plane s)
                  (exec_canonicalRoI s) in
    allRenderTasksToProcess s = list_to_set (pass_tasks pass)
    /\ requests s = pass_requests pass
    /\ (forall r, r ∈ readySet s <->
          r ∈ pass_tasks pass
          /\ getNumDependencies (pass_requests pass) r = 0)
    /\ StronglySorted Pos.lt (readySet s)
    /\ exec_outputRequest s = pass_outputRequest pass
    /\ status s = pass_status pass
    /\ isMainExecutionOfTree s = isMain
    /\ threadPool s = [] /\ launchedRunnables s = [].
Proof.
  intros app render isMain root t v ps mm pp roi s H Hr Hs.
  unfold createExecutionDataInternal in H. rewrite Hr in H.
  bind_inv H. bind_inv H.
  assert (E0 : allRenderTasksToProcess a0 = ∅ /\ dependencyFreeRenders a0 = None
               /\ threadPool a0 = [] /\ launchedRunnables a0 = []
               /\ isMainExecutionOfTree a0 = isMain
               /\ exec_canonicalRoI a0 = exec_canonicalRoI TreeRenderExecutionData_new).
  { destruct pp; [by injection Ha0 as <-|].
    bind_inv Ha0. destruct a1. by injection Ha0 as <-. }
  destruct E0 as (Ea0 & Er0 & Ep0 & El0 & Em0 & Ec0).
  destruct (isFailureRetCode (status a0)) eqn:Ef0;
    [injection H as <-; congruence|].
  bind_inv H.
  assert (E1 : allRenderTasksToProcess a1 = ∅ /\ dependencyFreeRenders a1 = None
               /\ threadPool a1 = [] /\ launchedRunnables a1 = []
               /\ isMainExecutionOfTree a1 = isMain
               /\ exec_plane a1 = exec_plane a0).
  { destruct roi; [by injection Ha1 as <-|].
    bind_inv Ha1. destruct a2. by injection Ha1 as <-. }
  destruct E1 as (Ea1 & Er1 & Ep1 & El1 & Em1 & Epl1).
  destruct (isFailureRetCode (status a1)) eqn:Ef1;
    [injection H as <-; congruence|].
  bind_inv H.
  set (pass0 := requestRender app root t v ps mm _ _) in *.
  simpl in pass0.
  set (s0 := with_requests (pass_requests pass0)
               (with_dependencyFreeRenders (Some []) a1)) in *.
  destruct (addTasksToRender_planned (pass_tasks pass0) s0 a2)
    as (_ & Hsorted & Eall & Ereq & Epool & _); [| |done|].
  { intros r Hin. by apply elem_of_nil in Hin. }
  { constructor. }
  destruct (addTasksToRender_fields _ _ _ Ha2)
    as (F1 & F2 & F3 & F4 & F5 & F6 & Hready).
  assert (Hfinal : forall s1,
    exec_plane s1 = exec_plane a2 ->
    exec_canonicalRoI s1 = exec_canonicalRoI a2 ->
    allRenderTasksToProcess s1 = allRenderTasksToProcess a2 ->
    requests s1 = requests a2 ->
    dependencyFreeRenders s1 = dependencyFreeRenders a2 ->
    exec_outputRequest s1 = pass_outputRequest pass0 ->
    status s1 = pass_status pass0 ->
    isMainExecutionOfTree s1 = isMainExecutionOfTree a2 ->
    threadPool s1 = threadPool a2 ->
    launchedRunnables s1 = launchedRunnables a2 ->
    let pass := requestRender app root t v ps mm (exec_plane s1)
                  (exec_canonicalRoI s1) in
    allRenderTasksToProcess s1 = list_to_set (pass_tasks pass)
    /\ requests s1 = pass_requests pass
    /\ (forall r, r ∈ readySet s1 <->
          r ∈ pass_tasks pass
          /\ getNumDependencies (pass_requests pass) r = 0)
    /\ StronglySorted Pos.lt (readySet s1)
    /\ exec_outputRequest s1 = pass_outputRequest pass
    /\ status s1 = pass_status pass
    /\ isMainExecutionOfTree s1 = isMain
    /\ threadPool s1 = [] /\ launchedRunnables s1 = []).
  { intros s1 G1 G2 G3 G4 G5 G6 G7 G8 G9 G10. simpl.
    rewrite G1, G2, F4, F3. subst s0. simpl. fold pass0.
    unfold readySet. rewrite G5. fold (readySet a2).
    split_and!; try congruence.
    - rewrite G3, Eall. simpl. rewrite Ea1. by rewrite union_empty_r_L.
    - by rewrite G4, Ereq.
    - intros r. rewrite Hready. simpl. unfold readySet at 1. simpl.
      rewrite elem_of_nil. tauto.
    - by rewrite G8, F1.
    - by rewrite G9, Epool.
    - by rewrite G10, F6. }
  simpl in H.
  destruct (isFailureRetCode (pass_status pass0)) eqn:Efp.
  { injection H as <-. simpl in Hs. congruence. }
  destruct (dependencyFreeRenders a2) as [ready|] eqn:Erdy; [|discriminate].
  simpl in H. bind_inv H.
  case_bool_decide; injection H as <-; [done|].
  by apply Hfinal.
Qed.

(** The plane and the region of an execution that has not failed are
    those given by the caller or, failing that, those of the render clone
    of the root. *)
Lemma createExecutionDataInternal_resolved app render isMain root t v ps mm pp roi s :
  createExecutionDataInternal app render isMain root t v ps mm pp roi = Ok s ->
  isFailureRetCode (state render) = false ->
  isFailureRetCode (status s) = false ->
  let clone := createRenderClone app root t v in
  exec_plane s
  = match pp with
    | Some p => p
    | None =>
        match (getLayersProducedAndNeeded_public app clone t v).2 with
        | Some (front :: _) => front
        | _ => exec_plane TreeRenderExecutionData_new
        end
    end
  /\ match roi with
     | Some r => exec_canonicalRoI s = r
     | None =>
         (getRegionOfDefinition_public app clone t (getCombinedScale app mm ps) v).2
         = Some (exec_canonicalRoI s)
     end.
Proof.
  intros H Hr Hs clone. unfold createExecutionDataInternal in H.
  rewrite Hr in H. bind_inv H. bind_inv H. fold clone in Ha0, H.
  set (new := with_isMainExecutionOfTree isMain TreeRenderExecutionData_new) in *.
  assert (E0 : isFailureRetCode (status a0) = false ->
               exec_plane a0
               = match pp with
                 | Some p => p
                 | None =>
                     match (getLayersProducedAndNeeded_public app clone t v).2 with
                     | Some (front :: _) => front
                     | _ => exec_plane TreeRenderExecutionData_new
                     end
                 end).
  { destruct pp as [p|]; [by injection Ha0 as <-|].
    bind_inv Ha0. destruct a1 as [stat p]. injection Ha0 as <-. simpl.
    intros Hok. unfold getTreeRootPlane in Ha1.
    destruct (getLayersProducedAndNeeded_public app clone t v) as [st res].
    simpl. destruct (isFailureRetCode st) eqn:Ef.
    - injection Ha1 as <- _. congruence.
    - bind_inv Ha1. destruct res as [[|front layers]|]; by inversion Ha1. }
  destruct (isFailureRetCode (status a0)) eqn:Ef0;
    [injection H as <-; congruence|].
  specialize (E0 eq_refl). rename E0 into Ep.
  bind_inv H.
  assert (E1 : exec_plane a1 = exec_plane a0
               /\ (isFailureRetCode (status a1) = false ->
                   match roi with
                   | Some r => exec_canonicalRoI a1 = r
                   | None =>
                       (getRegionOfDefinition_public app clone t
                          (getCombinedScale app mm ps) v).2
                       = Some (exec_canonicalRoI a1)
                   end)).
  { destruct roi as [r|]; [by injection Ha1 as <-|].
    bind_inv Ha1. destruct a2 as [stat r]. injection Ha1 as <-. simpl.
    split; [done|]. intros Hok.
    unfold getTreeRootRoD in Ha2. fold clone in Ha2.
    destruct (getRegionOfDefinition_public app clone t _ v) as [st res].
    simpl. destruct (isFailureRetCode st) eqn:Ef.
    - injection Ha2 as <- _. congruence.
    - bind_inv Ha2. destruct res; [|done]. by injection Ha2 as _ <-. }
  destruct E1 as [Epl Eroi].
  destruct (isFailureRetCode (status a1)) eqn:Ef1;
    [injection H as <-; congruence|].
  specialize (Eroi eq_refl).
  bind_inv H.
  destruct (addTasksToRender_fields _ _ _ Ha2) as (_ & _ & F3 & F4 & _).
  simpl in F3, F4, H.
  assert (Hfinal : forall s1 : TreeRenderExecutionData,
    exec_plane s1 = exec_plane a2 ->
    exec_canonicalRoI s1 = exec_canonicalRoI a2 ->
    exec_plane s1
    = match pp with
      | Some p => p
      | None =>
          match (getLayersProducedAndNeeded_public app clone t v).2 with
          | Some (front :: _) => front
          | _ => exec_plane TreeRenderExecutionData_new
          end
      end
    /\ match roi with
       | Some r => exec_canonicalRoI s1 = r
       | None =>
           (getRegionOfDefinition_public app clone t (getCombinedScale app mm ps) v).2
           = Some (exec_canonicalRoI s1)
       end).
  { intros s1 G1 G2. rewrite G1, G2, F3, F4, Epl. split; [done|].
    by destruct roi. }
  destruct (isFailureRetCode (pass_status _));
    [injection H as <-; by apply Hfinal|].
  destruct (dependencyFreeRenders a2); [|discriminate].
  simpl in H. bind_inv H.
  case_bool_decide; injection H as <-; by apply Hfinal.
Qed.

(** C7.  When the root effect handed to [create] is a group input, the
    root is replaced by the effect of the real input that the enclosing
    group has for it, in the arguments the tree render keeps, and the main
    execution is planned from that effect: the request pass runs on the
    effect of the real input, and the main execution of a tree render that
    has not failed, when it has not failed itself, holds the tasks, the
    requests, the dependency-free requests and the output request of that
    pass, for the plane and the region given to [create] or, failing
    that, those of the render clone of the real input.  When the
    enclosing group or the real input is missing, [create] returns a tree
    render in the state Failed. *)
Theorem create_forwards_group_input :
  forall app inArgs,
    isGroupInput (treeRootEffect inArgs) = true ->
    match realInputOf app (treeRootEffect inArgs) with
    | Some realInput =>
        forall render inArgs',
          create app inArgs = Ok (render, inArgs') ->
          inArgs' = with_treeRootEffect (getEffectInstance app realInput) inArgs
          /\ ctorArgs render = Some inArgs'
          /\ createMainExecutionData app render
             = createExecutionDataInternal app render true
                 (getEffectInstance app realInput) (time inArgs) (view inArgs)
                 (proxyScale inArgs) (mipMapLevel inArgs)
                 (if getNumComponents (plane inArgs) =? 0 then None
                  else Some (plane inArgs))
                 (if isNull (canonicalRoI inArgs) then None
                  else Some (canonicalRoI inArgs))
          /\ (forall s,
                isFailureRetCode (state render) = false ->
                createMainExecutionData app render = Ok s ->
                isFailureRetCode (status s) = false ->
                let pass :=
                  requestRender app (getEffectInstance app realInput)
                    (time inArgs) (view inArgs) (proxyScale inArgs)
                    (mipMapLevel inArgs) (exec_plane s) (exec_canonicalRoI s) in
                allRenderTasksToProcess s = list_to_set (pass_tasks pass)
                /\ requests s = pass_requests pass
                /\ (forall r, r ∈ readySet s <->
                      r ∈ pass_tasks pass
                      /\ getNumDependencies (pass_requests pass) r = 0)
                /\ exec_outputRequest s = pass_outputRequest pass
                /\ status s = pass_status pass
                /\ (let clone :=
                      createRenderClone app (getEffectInstance app realInput)
                        (time inArgs) (view inArgs) in
                    exec_plane s
                    = (if getNumComponents (plane inArgs) =? 0 then
                         match (getLayersProducedAndNeeded_public app clone
                                  (time inArgs) (view inArgs)).2 with
                         | Some (front :: _) => front
                         | _ => exec_plane TreeRenderExecutionData_new
                         end
                       else plane inArgs)
                    /\ (if isNull (canonicalRoI inArgs) then
                          (getRegionOfDefinition_public app clone (time inArgs)
                             (getCombinedScale app (mipMapLevel inArgs)
                                (proxyScale inArgs)) (view inArgs)).2
                          = Some (exec_canonicalRoI s)
                        else exec_canonicalRoI s = canonicalRoI inArgs)))
    | None =>
        create app inArgs
        = Ok (with_state eActionStatusFailed TreeRenderPrivate_new, inArgs)
    end.
Proof.
  intros app inArgs Hg. unfold realInputOf, create. rewrite Hg.
  destruct (getGroup app _) as [g|]; [|done].
  destruct (getRealInputForInput app g _) as [realInput|]; [|done].
  intros render inArgs' H. bind_inv H.
  pose proof (init_ctorArgs app TreeRenderPrivate_new
                (with_treeRootEffect (getEffectInstance app realInput) inArgs))
    as [I1 _].
  assert (ctorArgs render
          = Some (with_treeRootEffect (getEffectInstance app realInput) inArgs)
          /\ inArgs' = with_treeRootEffect (getEffectInstance app realInput) inArgs)
    as [Hc ->].
  { destruct (init app _ _) as [r [[]|[]]]; inversion H; subst; simpl in *; done. }
  split; [done|]. split; [done|].
  assert (Hmain : createMainExecutionData app render
             = createExecutionDataInternal app render true
                 (getEffectInstance app realInput) (time inArgs) (view inArgs)
                 (proxyScale inArgs) (mipMapLevel inArgs)
                 (if getNumComponents (plane inArgs) =? 0 then None
                  else Some (plane inArgs))
                 (if isNull (canonicalRoI inArgs) then None
                  else Some (canonicalRoI inArgs))).
  { unfold createMainExecutionData. rewrite Hc. reflexivity. }
  split; [exact Hmain|].
  intros s Hr Hs Hst. cbv zeta. rewrite Hmain in Hs.
  destruct (createExecutionDataInternal_planned _ _ _ _ _ _ _ _ _ _ _ Hs Hr Hst)
    as (Gall & Greq & Gready & _ & Gout & Gstat & _).
  destruct (createExecutionDataInternal_resolved _ _ _ _ _ _ _ _ _ _ _ Hs Hr Hst)
    as (Gplane & Groi).
  split_and!; try assumption.
  - rewrite Gplane. by destruct (getNumComponents (plane inArgs) =? 0).
  - by destruct (isNull (canonicalRoI inArgs)).
Qed.

(** ** Events keep the invariant *)

Lemma scheduler_invariant_release s r extra :
  scheduler_invariant s (r :: extra) ->
  scheduler_invariant s extra
  /\ r ∈ allRenderTasksToProcess s
  /\ (r ∉ readySet s)
  /\ getNumDependencies (requests s) r = 0
  /\ (r ∉ threadPool s ++ extra).
Proof.
  intros [I1 I2 I3 I4 I5 I6].
  assert (Hp : threadPool s ++ r :: extra ≡ₚ r :: threadPool s ++ extra)
    by (symmetry; apply Permutation_middle).
  rewrite Hp in I5. apply list.NoDup_cons in I5 as [Hr I5].
  destruct (I6 r) as (Ha & Hn & Hd); [rewrite Hp; by left|].
  split; [|done].
  split; try done.
  intros q Hq. apply I6. rewrite Hp. by right.
Qed.

Lemma step_invariant app w ev w' :
  world_invariant w -> step app w ev = Ok w' -> world_invariant w'.
Proof.
  unfold world_invariant. intros HJ H. destruct ev as [nTasks fuel|request|request];
    simpl in H.
  - bind_inv H. destruct a as [[k render] s]. injection H as <-. simpl.
    by eapply executeAvailableTasks_invariant.
  - case_bool_decide as Hin; injection H as <-; [|done]. simpl.
    eapply scheduler_invariant_ext; [..|exact HJ]; simpl; try done.
    rewrite (remove_one_perm request (threadPool (execution w)) Hin) at 2.
    simpl. symmetry. apply Permutation_middle.
  - destruct (take_running request (running w)) as [[stat rest]|] eqn:Et;
      [|by injection H as <-].
    bind_inv H. destruct a as [render s]. injection H as <-. simpl.
    apply take_running_perm in Et.
    assert (HJ1 : scheduler_invariant (execution w) (request :: rest.*1)).
    { eapply scheduler_invariant_ext; [..|exact HJ]; try done. by rewrite Et. }
    apply scheduler_invariant_release in HJ1 as (HJ1 & Hra & Hrn & Hrd & Hrf).
    by apply (onTaskFinished_invariant app rest.*1) in Ha as (HJ' & _).
Qed.

Lemma steps_invariant app evs : forall w w',
  world_invariant w -> steps app w evs = Ok w' -> world_invariant w'.
Proof.
  induction evs as [|ev evs IH]; simpl; intros w w' HJ H.
  - by injection H as <-.
  - bind_inv H. eapply IH; [|exact H]. by eapply step_invariant.
Qed.

(** ** Listener promotion keeps the ready set within the task set *)

Lemma removeDependencyLinks_ready_invariant app request ls : forall s s',
  ready_invariant s ->
  NDEBUG app = false \/ (forall l, l ∈ ls -> l ∈ allRenderTasksToProcess s) ->
  removeDependencyLinks app request ls s = Ok s' ->
  ready_invariant s'.
Proof.
  induction ls as [|it ls IH]; intros s s' HI Hls H;
    cbn [removeDependencyLinks] in H; [by injection H as <-|].
  destruct (markDependencyAsRendered (requests s) it request)
    as [numDepsLeft h'] eqn:Em.
  pose proof (markDependencyAsRendered_count _ _ _ _ _ Em) as Hc.
  assert (HI1 : ready_invariant (with_requests h' s)).
  { intros r Hr. destruct (HI r Hr) as [Ha Hd]. split; [done|].
    unfold getNumDependencies in *. simpl.
    rewrite (dependencies_mark _ _ _ _ _ r Em).
    destruct (decide (it = r)); [|exact Hd].
    destruct (dependencies (requests s !!! r)); [done|simpl in Hd; lia]. }
  assert (Hls' : NDEBUG app = false
                 \/ (forall l, l ∈ ls ->
                       l ∈ allRenderTasksToProcess (with_requests h' s))).
  { destruct Hls as [?|Hls]; [by left|right]. intros l Hl. apply Hls. by right. }
  destruct (Z.eqb_spec numDepsLeft 0) as [Hz|Hz]; [|by apply IH in H].
  destruct (dependencyFreeRenders (with_requests h' s)) as [ready|] eqn:Er;
    [|discriminate].
  destruct (set_find it ready); simpl in H; [by apply IH in H|].
  bind_inv H. apply IH in H; [done| |done].
  assert (Hit : it ∈ allRenderTasksToProcess s).
  { destruct Hls as [Hnd|Hls]; [|apply Hls; by left].
    unfold assert in Ha. rewrite Hnd in Ha. simpl in Ha.
    case_bool_decide; [done|discriminate]. }
  unfold ready_invariant, readySet in *. simpl in *. rewrite Er in HI1.
  intros r Hr. apply elem_of_set_insert in Hr as [->|Hr]; [|by apply HI1].
  split; [done|]. by rewrite <- Hc.
Qed.

(** ** What a completion leaves alone *)

Lemma removeDependencyLinks_frame app request ls : forall s s',
  removeDependencyLinks app request ls s = Ok s' ->
  allRenderTasksToProcess s' = allRenderTasksToProcess s
  /\ threadPool s' = threadPool s
  /\ launchedRunnables s' = launchedRunnables s
  /\ status s' = status s
  /\ (forall r, r ∈ readySet s -> r ∈ readySet s').
Proof.
  induction ls as [|it ls IH]; intros s s' H;
    cbn [removeDependencyLinks] in H; [by injection H as <-|].
  destruct (markDependencyAsRendered (requests s) it request)
    as [numDepsLeft h'] eqn:Em.
  destruct (numDepsLeft =? 0); [|by apply IH in H].
  destruct (dependencyFreeRenders (with_requests h' s)) as [ready|] eqn:Er;
    [|discriminate].
  destruct (set_find it ready); simpl in H; [by apply IH in H|].
  bind_inv H. apply IH in H as (-> & -> & -> & -> & Hr). split_and!; try done.
  intros r Hin. apply Hr. unfold readySet in *. simpl in *. rewrite Er in Hin.
  apply elem_of_set_insert. by right.
Qed.

Lemma onTaskFinished_frame app render s request stat render' s' :
  onTaskFinished app render s request stat = Ok (render', s') ->
  threadPool s' = threadPool s
  /\ launchedRunnables s' = launchedRunnables s
  /\ status s' = (if isFailureRetCode stat then stat else status s)
  /\ (isFailureRetCode (status s') = true ->
      dependencyFreeRenders s' = dependencyFreeRenders s)
  /\ (forall r, r ∈ readySet s -> r ∈ readySet s').
Proof.
  unfold onTaskFinished. intros H. bind_inv H. bind_inv H.
  injection H as <- <-.
  set (s1 := with_requests (clearRenderedDependencies (requests s) request) s) in *.
  set (s2 := if isFailureRetCode stat then with_status stat s1 else s1) in *.
  set (s3 := removeTaskFromGlobalTaskList s2 request) in *.
  assert (E3 : threadPool s3 = threadPool s
               /\ launchedRunnables s3 = launchedRunnables s
               /\ status s3 = (if isFailureRetCode stat then stat else status s)
               /\ dependencyFreeRenders s3 = dependencyFreeRenders s).
  { subst s3 s2 s1. unfold removeTaskFromGlobalTaskList.
    destruct (isFailureRetCode stat); case_bool_decide; done. }
  destruct E3 as (Ep & El & Es & Er).
  unfold removeDependencyLinkFromRequest in Ha.
  destruct (isFailureRetCode (status s3)) eqn:Ef.
  - injection Ha as <-. split_and!; try done.
    unfold readySet. by rewrite Er.
  - apply removeDependencyLinks_frame in Ha as (_ & -> & -> & Es' & Hr).
    split_and!; try done.
    + congruence.
    + rewrite Es'. congruence.
    + intros r Hin. apply Hr. unfold readySet in *. by rewrite Er.
Qed.

Lemma run_frame app render s request render' s' :
  run app render s request = Ok (render', s') ->
  threadPool s' = threadPool s
  /\ launchedRunnables s' = launchedRunnables s
  /\ (isFailureRetCode (status s) = true ->
      status s' = status s
      /\ dependencyFreeRenders s' = dependencyFreeRenders s).
Proof.
  unfold run, getStatus. intros H.
  apply onTaskFinished_frame in H as (Ep & El & Es & Er & _).
  split_and!; try done. intros Hf. rewrite Hf in *. simpl in *.
  rewrite Hf in Es. split; [done|]. apply Er. by rewrite Es.
Qed.

(** ** The status of an execution *)

(** C4 (amended).  A completion that reports a failure writes its code in
    the status of the execution, and a completion that reports success
    leaves the status alone: after any sequence of completions the status
    is the code of the last failing one, so a failed execution stays
    failed, and its code is replaced by the code of each later failure. *)
Theorem execution_status_last_failure :
  forall app render s done render' s',
    tasksFinished app render s done = Ok (render', s') ->
    status s' = lastFailure (status s) done
    /\ (isFailureRetCode (status s) = true ->
        isFailureRetCode (status s') = true)
    /\ (Forall (fun d => isFailureRetCode d.2 = false) done ->
        status s' = status s).
Proof.
  intros app render s done. revert render s.
  induction done as [|[request stat] done IH]; simpl; intros render s render' s' H.
  - injection H as <- <-. done.
  - bind_inv H. destruct a as [render1 s1].
    apply onTaskFinished_frame in Ha as (_ & _ & Es & _).
    destruct (IH _ _ _ _ H) as (E1 & E2 & E3). rewrite Es in *.
    split_and!.
    + done.
    + intros Hf. apply E2. by destruct (isFailureRetCode stat) eqn:Ef.
    + intros Hall. apply Forall_cons_1 in Hall as [Hs Hall]. simpl in Hs.
      rewrite Hs in *. by apply E3.
Qed.

(** ** A failed execution promotes nothing *)

Lemma tasksFinished_failed app done : forall render s render' s',
  isFailureRetCode (status s) = true ->
  tasksFinished app render s done = Ok (render', s') ->
  dependencyFreeRenders s' = dependencyFreeRenders s
  /\ isFailureRetCode (status s') = true.
Proof.
  induction done as [|[request stat] done IH]; simpl; intros render s render' s' Hf H.
  - by injection H as <- <-.
  - bind_inv H. destruct a as [render1 s1].
    apply onTaskFinished_frame in Ha as (_ & _ & Es & Er & _).
    assert (Hf1 : isFailureRetCode (status s1) = true).
    { rewrite Es. by destruct (isFailureRetCode stat) eqn:Ef. }
    destruct (IH _ _ _ _ Hf1 H) as [E1 E2]. split; [|done].
    rewrite E1. by apply Er.
Qed.

Lemma loop_failed app fuel : forall render s n k k' render' s',
  isFailureRetCode (status s) = true ->
  executeAvailableTasks_loop app fuel render s n k = Ok (k', render', s') ->
  k' = k
  /\ threadPool s' = threadPool s
  /\ status s' = status s
  /\ (forall r, r ∈ readySet s' -> r ∈ readySet s).
Proof.
  induction fuel as [|fuel IH]; intros render s n k k' render' s' Hf H;
    apply loop_Ok in H
      as [[_ [= -> -> ->]]|(f & r1 & s1 & n1 & k1 & Hfu & Hit & H)];
    try done.
  injection Hfu as <-.
  inversion Hit as [r0 s0 n0 k0 req rdy Er Hn Hmt Hst Hfl
                   |r0 s0 n0 k0 req rdy r2 s2 Er Hn Hc Hrun]; subst;
    [congruence|].
  apply run_frame in Hrun as (Ep & _ & Hs). destruct (Hs Hf) as [Es Erd].
  apply IH in H as (-> & -> & -> & Hr); [|by rewrite Es].
  split_and!; try done.
  intros r Hin. apply Hr in Hin. unfold readySet in *.
  simpl in *. rewrite Erd in Hin. rewrite Er. by right.
Qed.

Lemma loop_without_render app launch fuel : forall render s n k,
  isFailureRetCode (status s) = true ->
  executeAvailableTasks_loop (with_launchNodeRender launch app) fuel render s n k
  = executeAvailableTasks_loop app fuel render s n k.
Proof.
  induction fuel as [|fuel IH]; intros render s n k Hf; simpl; [done|].
  destruct (dependencyFreeRenders s) as [ready|]; [|done].
  destruct (_ && _); [|done]. destruct ready as [|request ready]; [done|].
  assert (Hrun : forall s0, status s0 = status s ->
    run (with_launchNodeRender launch app) render s0 request
    = run app render s0 request).
  { intros s0 E0. unfold run, getStatus. by rewrite E0, Hf. }
  assert (Hnext : forall s0, status s0 = status s ->
    (do (render, s) <- run app render s0 request ;;
     executeAvailableTasks_loop (with_launchNodeRender launch app) fuel render s n k)
    = (do (render, s) <- run app render s0 request ;;
       executeAvailableTasks_loop app fuel render s n k)).
  { intros s0 E0. destruct (run app render s0 request) as [[r1 s1]|] eqn:Er;
      [|done]. simpl.
    apply run_frame in Er as (_ & _ & Hs). apply IH.
    destruct Hs as [-> _]; by rewrite E0. }
  rewrite Hrun by done. rewrite Hf, andb_false_r.
  destruct (TREE_RENDER_DISABLE_MT app); by apply Hnext.
Qed.

Lemma run_failed app render s request :
  isFailureRetCode (status s) = true ->
  is_Some (ctorArgs render) ->
  exists render1 s1,
    run app render s request = Ok (render1, s1)
    /\ dependencyFreeRenders s1 = dependencyFreeRenders s
    /\ allRenderTasksToProcess s1 = allRenderTasksToProcess s ∖ {[request]}
    /\ status s1 = status s
    /\ threadPool s1 = threadPool s
    /\ state render1 = status s
    /\ is_Some (ctorArgs render1).
Proof.
  intros Hf Hc. unfold run, getStatus. rewrite Hf. cbn [negb].
  unfold onTaskFinished. rewrite Hf.
  remember (removeTaskFromGlobalTaskList
              (with_status (status s)
                 (with_requests
                    (clearRenderedDependencies (requests s) request) s))
              request) as s2 eqn:E2.
  assert (F2 : status s2 = status s
               /\ dependencyFreeRenders s2 = dependencyFreeRenders s
               /\ threadPool s2 = threadPool s
               /\ allRenderTasksToProcess s2
                  = allRenderTasksToProcess s ∖ {[request]}).
  { subst s2. unfold removeTaskFromGlobalTaskList.
    case_bool_decide as Hin; simpl; [done|]. split_and!; try done.
    apply set_eq. intros x. rewrite elem_of_difference, elem_of_singleton.
    split; [|tauto]. intros Hx. split; [done|]. by intros ->. }
  clear E2. destruct F2 as (Es & Erd & Ep & Ea).
  unfold removeDependencyLinkFromRequest. rewrite Es, Hf. cbn [res_bind].
  destruct (setResults_total (requests s2) render (Some request) (status s2) Hc)
    as [render1 Hr].
  rewrite Hr. cbn [res_bind]. exists render1, s2. split_and!; try done.
  - rewrite (setResults_state _ _ _ _ _ Hr). by rewrite Es, Hf.
  - by rewrite (setResults_ctorArgs _ _ _ _ _ Hr).
Qed.

Lemma loop_failed_drains app (ready : list positive) :
  forall fuel render s n k,
    isFailureRetCode (status s) = true ->
    n = -1 \/ 0 < n ->
    is_Some (ctorArgs render) ->
    dependencyFreeRenders s = Some ready ->
    (length ready < fuel)%nat ->
    exists render' s',
      executeAvailableTasks_loop app fuel render s n k = Ok (k, render', s')
      /\ dependencyFreeRenders s' = Some []
      /\ allRenderTasksToProcess s'
         = allRenderTasksToProcess s ∖ list_to_set ready
      /\ status s' = status s
      /\ threadPool s' = threadPool s
      /\ (ready <> [] -> state render' = status s).
Proof.
  induction ready as [|request ready IH]; intros fuel render s n k Hf Hn Hc Er Hl.
  - exists render, s. split_and!; try done.
    + apply loop_exits. exists []. split; [done|by right].
    + apply set_eq. intros x. rewrite elem_of_difference, elem_of_list_to_set.
      rewrite elem_of_nil. tauto.
  - destruct fuel as [|fuel]; [simpl in Hl; lia|].
    set (s0 := with_dependencyFreeRenders (Some ready) s).
    assert (Hrun : exists render1 s1,
      run app render s0 request = Ok (render1, s1)
      /\ dependencyFreeRenders s1 = Some ready
      /\ allRenderTasksToProcess s1 = allRenderTasksToProcess s ∖ {[request]}
      /\ status s1 = status s
      /\ threadPool s1 = threadPool s
      /\ state render1 = status s
      /\ is_Some (ctorArgs render1)).
    { destruct (run_failed app render s0 request) as (render1 & s1 & H); try done.
      by exists render1, s1. }
    destruct Hrun as (render1 & s1 & Hrun & Erd & Ea & Es & Ep & Est & Hc1).
    destruct (IH fuel render1 s1 n k) as (render' & s' & H & Er' & Ea' & Es' & Ep' & Hst');
      [by rewrite Es|done|done|done|simpl in Hl; lia|].
    exists render', s'. split_and!; try congruence.
    + rewrite (loop_iteration app fuel render s n k (render1, s1, n, k));
        [exact H|].
      eapply iteration_inline; [exact Er|done|by right; right|exact Hrun].
    + rewrite Ea', Ea. apply set_eq. intros x.
      rewrite !elem_of_difference, !elem_of_list_to_set, elem_of_singleton,
        elem_of_cons. tauto.
    + intros _. destruct ready as [|r0 ready0].
      * rewrite loop_exits in H; [|exists []; split; [done|by right]].
        injection H as <- <-. done.
      * rewrite Hst' by done. done.
Qed.

Lemma loop_failed_step app fuel render s n k request ready :
  isFailureRetCode (status s) = true ->
  n = -1 \/ 0 < n ->
  dependencyFreeRenders s = Some (request :: ready) ->
  executeAvailableTasks_loop app (S fuel) render s n k
  = do (render, s) <-
      onTaskFinished app render (with_dependencyFreeRenders (Some ready) s)
        request (status s) ;;
    executeAvailableTasks_loop app fuel render s n k.
Proof.
  intros Hf Hn Er. simpl. rewrite Er.
  rewrite (proj2 (loop_guard n (request :: ready))) by done.
  assert (Hrun : run app render (with_dependencyFreeRenders (Some ready) s) request
                 = onTaskFinished app render
                     (with_dependencyFreeRenders (Some ready) s) request (status s)).
  { unfold run, getStatus. simpl. by rewrite Hf. }
  rewrite Hrun, Hf, andb_false_r.
  by destruct (TREE_RENDER_DISABLE_MT app).
Qed.

(** On a failed execution a completion does not look at the
    dependency-free set. *)
Lemma onTaskFinished_failed_ready app render s request stat ready :
  isFailureRetCode stat = true ->
  onTaskFinished app render (with_dependencyFreeRenders ready s) request stat
  = do (render, s) <- onTaskFinished app render s request stat ;;
    Ok (render, with_dependencyFreeRenders ready s).
Proof.
  intros Hf. unfold onTaskFinished. rewrite Hf.
  set (s3 := removeTaskFromGlobalTaskList
               (with_status stat
                  (with_requests
                     (clearRenderedDependencies (requests s) request) s))
               request).
  assert (E : removeTaskFromGlobalTaskList
                (with_status stat
                   (with_requests
                      (clearRenderedDependencies
                         (requests (with_dependencyFreeRenders ready s)) request)
                      (with_dependencyFreeRenders ready s)))
                request
              = with_dependencyFreeRenders ready s3).
  { subst s3. unfold removeTaskFromGlobalTaskList. simpl.
    by destruct (bool_decide _). }
  rewrite E.
  assert (Hs3 : isFailureRetCode (status s3) = true).
  { subst s3. unfold removeTaskFromGlobalTaskList.
    by destruct (bool_decide _). }
  unfold removeDependencyLinkFromRequest.
  change (status (with_dependencyFreeRenders ready s3)) with (status s3).
  rewrite Hs3. cbn [res_bind].
  change (requests (with_dependencyFreeRenders ready s3)) with (requests s3).
  change (status (with_dependencyFreeRenders ready s3)) with (status s3).
  by destruct (setResults (requests s3) render (Some request) (status s3)).
Qed.

Lemma with_dependencyFreeRenders_same s ready :
  dependencyFreeRenders s = ready -> with_dependencyFreeRenders ready s = s.
Proof. intros <-. by destruct s. Qed.

Lemma loop_failed_completions app (ready : list positive) :
  forall fuel render s n k,
    isFailureRetCode (status s) = true ->
    n = -1 \/ 0 < n ->
    dependencyFreeRenders s = Some ready ->
    (length ready < fuel)%nat ->
    executeAvailableTasks_loop app fuel render s n k
    = do (render', s') <-
        tasksFinished app render (with_dependencyFreeRenders (Some []) s)
          (map (fun request => (request, status s)) ready) ;;
      Ok (k, render', s').
Proof.
  induction ready as [|request ready IH]; intros fuel render s n k Hf Hn Er Hl.
  - simpl. rewrite with_dependencyFreeRenders_same by done.
    apply loop_exits. exists []. split; [done|by right].
  - destruct fuel as [|fuel]; [simpl in Hl; lia|].
    rewrite (loop_failed_step app fuel render s n k request ready Hf Hn Er).
    cbn [map tasksFinished].
    rewrite !(onTaskFinished_failed_ready app render s request (status s)) by done.
    destruct (onTaskFinished app render s request (status s))
      as [[render1 s1]|e] eqn:E; [|done].
    cbn [res_bind].
    apply onTaskFinished_frame in E as (_ & _ & Es & _). rewrite Hf in Es.
    rewrite (IH fuel render1 (with_dependencyFreeRenders (Some ready) s1) n k);
      [|simpl; by rewrite Es|done|done|simpl in Hl; lia].
    simpl. by rewrite Es.
Qed.

(** C3 (amended).  Once the status of an execution is a failure, the
    completion of a task promotes no listener: the dependency-free set is
    left as it is, whatever it holds, by every later completion, and the
    status stays a failure; this holds from the failing completion on.  A
    call of [executeAvailableTasks] on a failed execution starts no task
    in the pool and only takes requests out of the dependency-free set.
    With a budget, it takes every request out of the set and runs each in
    the calling thread, where [run] skips the render: the call is the
    completion, in the order of the set, of each of its requests with the
    status of the execution, whatever [launchNodeRender] would do; when
    the construction arguments are stored it returns, having emptied the
    set and removed its requests from the task set. *)
Theorem failed_execution_promotes_nothing :
  forall app render s,
    (forall done render' s',
        isFailureRetCode (status s) = true ->
        tasksFinished app render s done = Ok (render', s') ->
        dependencyFreeRenders s' = dependencyFreeRenders s
        /\ isFailureRetCode (status s') = true)
    /\ (forall request stat done render' s',
          isFailureRetCode stat = true ->
          tasksFinished app render s ((request, stat) :: done) = Ok (render', s') ->
          dependencyFreeRenders s' = dependencyFreeRenders s
          /\ isFailureRetCode (status s') = true)
    /\ (forall fuel nTasks k render' s',
          isFailureRetCode (status s) = true ->
          executeAvailableTasks app fuel render s nTasks = Ok (k, render', s') ->
          k = 0
          /\ threadPool s' = threadPool s
          /\ isFailureRetCode (status s') = true
          /\ forall r, r ∈ readySet s' -> r ∈ readySet s)
    /\ (forall fuel nTasks ready,
          isFailureRetCode (status s) = true ->
          nTasks = -1 \/ 0 < nTasks ->
          dependencyFreeRenders s = Some ready ->
          (length ready < fuel)%nat ->
          executeAvailableTasks app fuel render s nTasks
          = (do (render', s') <-
               tasksFinished app render
                 (with_dependencyFreeRenders (Some []) s)
                 (map (fun request => (request, status s)) ready) ;;
             Ok (0, render', s'))
          /\ (forall launch,
                executeAvailableTasks (with_launchNodeRender launch app) fuel
                  render s nTasks
                = executeAvailableTasks app fuel render s nTasks)
          /\ (is_Some (ctorArgs render) ->
              exists render' s',
                executeAvailableTasks app fuel render s nTasks
                = Ok (0, render', s')
                /\ readySet s' = []
                /\ allRenderTasksToProcess s'
                   = allRenderTasksToProcess s ∖ list_to_set ready
                /\ status s' = status s
                /\ threadPool s' = threadPool s)).
Proof.
  intros app render s. split_and!.
  - intros done render' s' Hf H. by eapply tasksFinished_failed.
  - intros request stat done render' s' Hf H. simpl in H.
    bind_inv H. destruct a as [render1 s1].
    apply onTaskFinished_frame in Ha as (_ & _ & Es & Er & _).
    rewrite Hf in Es.
    assert (Hf1 : isFailureRetCode (status s1) = true) by (by rewrite Es).
    destruct (tasksFinished_failed _ _ _ _ _ _ Hf1 H) as [E1 E2].
    split; [|done]. rewrite E1. by apply Er.
  - intros fuel nTasks k render' s' Hf H. unfold executeAvailableTasks in H.
    bind_inv H. destruct (dependencyFreeRenders s) eqn:Er.
    + apply loop_failed in H as (-> & -> & Es & Hr); [|done].
      rewrite Es. done.
    + by injection H as <- <- <-.
  - intros fuel nTasks ready Hf Hn Er Hl.
    assert (Hnz : negb (nTasks =? 0) = true)
      by (destruct (Z.eqb_spec nTasks 0); [lia|done]).
    split_and!.
    + unfold executeAvailableTasks, assert. rewrite Hnz, orb_true_r.
      cbn [res_bind]. rewrite Er. by apply loop_failed_completions.
    + intros launch. unfold executeAvailableTasks. simpl.
      destruct (assert _ _); [|done]. cbn [res_bind]. rewrite Er.
      by apply loop_without_render.
    + intros Hc. unfold executeAvailableTasks, assert.
      rewrite Hnz, orb_true_r. cbn [res_bind]. rewrite Er.
      destruct (loop_failed_drains app ready fuel render s nTasks 0)
        as (render' & s' & H & Er' & Ea & Es & Ep & _); try done.
      exists render', s'. unfold readySet. rewrite Er'. done.
Qed.

(** ** The tasks started by a call *)

Lemma budget_nonneg n : 0 <= budget n.
Proof. unfold budget. destruct (n =? -1); lia. Qed.

Lemma loop_count app fuel : forall render s n k k' render' s',
  0 <= k -> int32 n -> k + budget n < 2 ^ 31 ->
  executeAvailableTasks_loop app fuel render s n k = Ok (k', render', s') ->
  exists started,
    threadPool s' = threadPool s ++ started
    /\ launchedRunnables s' = launchedRunnables s ++ started
    /\ k' = k + Z.of_nat (length started)
    /\ Z.of_nat (length started) <= budget n.
Proof.
  induction fuel as [|fuel IH]; intros render s n k k' render' s' Hk Hn Hb H.
  all: apply loop_Ok in H
      as [[_ [= -> -> ->]]|(f & r1 & s1 & n1 & k1 & Hfu & Hit & H)].
  all: try (exists []; rewrite !app_nil_r; simpl;
            pose proof (budget_nonneg n); split_and!; [done|done|lia|lia]).
  all: try done.
  injection Hfu as <-.
  inversion Hit as [r0 s0 n0 k0 req rdy Er Hnn Hmt Hst Hfl
                   |r0 s0 n0 k0 req rdy r2 s2 Er Hnn Hc Hrun]; subst.
  - assert (Hb1 : 1 <= budget n /\ budget (wrap32 (n - 1)) = budget n - 1
                  /\ int32 (wrap32 (n - 1))).
    { unfold int32 in *. destruct Hnn as [->|Hpos]; [by vm_compute|].
      rewrite wrap32_small by (unfold int32; lia). unfold budget.
      destruct (Z.eqb_spec n (-1)); [lia|].
      destruct (Z.eqb_spec (n - 1) (-1)); lia. }
    destruct Hb1 as (Hb1 & Hb2 & Hb3).
    assert (Hk1 : wrap32 (k + 1) = k + 1)
      by (apply wrap32_small; unfold int32; lia).
    rewrite Hk1 in H.
    apply IH in H as (started & Ep & El & Ek & Hl); [|lia|done|lia].
    exists (req :: started). simpl in Ep, El.
    rewrite <- !app_assoc in Ep, El. simpl in *. split_and!; try done; lia.
  - apply run_frame in Hrun as (Ep & El & _). simpl in Ep, El.
    apply IH in H as (started & Ep' & El' & Ek & Hl); [|done..].
    exists started. rewrite Ep', El', Ep, El. done.
Qed.

(** A call returns the number of runnables it started in the pool, which
    is at most [nTasks] when [nTasks] is positive and at most one when
    [nTasks] is [-1]. *)
Lemma executeAvailableTasks_count app fuel render s nTasks k render' s' :
  int32 nTasks ->
  executeAvailableTasks app fuel render s nTasks = Ok (k, render', s') ->
  exists started,
    threadPool s' = threadPool s ++ started
    /\ launchedRunnables s' = launchedRunnables s ++ started
    /\ k = Z.of_nat (length started)
    /\ k <= budget nTasks.
Proof.
  intros Hn H. unfold executeAvailableTasks in H. bind_inv H.
  destruct (dependencyFreeRenders s).
  - apply loop_count in H as (started & Ep & El & Ek & Hl); [|done|done|].
    + exists started. split_and!; try done; lia.
    + unfold int32, budget in *. destruct (nTasks =? -1); lia.
  - injection H as <- <- <-. exists []. rewrite !app_nil_r.
    pose proof (budget_nonneg nTasks). done.
Qed.

(** ** The build without multi-threading *)








(** ** The ready set over the lifetime of an execution *)

Lemma well_wiredb_sound pass : well_wiredb pass = true -> well_wired pass.
Proof.
  unfold well_wiredb, well_wired. intros [H1 H2]%andb_true_iff.
  rewrite forallb_forall in H1, H2. split.
  - intros r l Hl.
    destruct (pass_requests pass !! r) as [fvr|] eqn:Er.
    + rewrite (lookup_total_correct _ _ _ Er) in Hl.
      apply elem_of_map_to_list, list_elem_of_In, H1 in Er. simpl in Er.
      rewrite forallb_forall in Er.
      apply list_elem_of_In, Er in Hl. by apply bool_decide_eq_true in Hl.
    + rewrite lookup_total_alt, Er in Hl. simpl in Hl.
      by apply elem_of_nil in Hl.
  - intros r l Hr Hl. apply list_elem_of_In, H2 in Hr.
    rewrite forallb_forall in Hr.
    apply list_elem_of_In, Hr in Hl. by apply bool_decide_eq_true in Hl.
Qed.

(** C1.  The dependency-free set of an execution is part of its task set
    and every request in it has no remaining dependency:
    [addTaskToRender] keeps this, putting the request in the task set
    always and in the dependency-free set exactly when it has no
    dependency; the promotion of listeners keeps it (in a release build,
    provided the listeners are tasks, which the [assert] of a debug build
    checks); and it holds after every event of the lifetime of an
    execution planned by a request pass that wires listeners as the
    inverse of dependencies and registers the requests it wires. *)
Theorem ready_set_invariant :
  forall app,
    (forall s render s',
        ready_invariant s ->
        addTaskToRender s render = Ok s' ->
        ready_invariant s'
        /\ render ∈ allRenderTasksToProcess s'
        /\ (render ∈ readySet s' <-> getNumDependencies (requests s) render = 0))
    /\ (forall s request s',
          ready_invariant s ->
          NDEBUG app = false
          \/ (forall l, l ∈ getListeners (requests s) request ->
                        l ∈ allRenderTasksToProcess s) ->
          removeDependencyLinkFromRequest app s request = Ok s' ->
          ready_invariant s')
    /\ (forall render isMain root t v ps mm pp roi s evs w,
          (forall e t v ps mm p roi,
              well_wired (requestRender app e t v ps mm p roi)) ->
          createExecutionDataInternal app render isMain root t v ps mm pp roi
          = Ok s ->
          steps app {| treeRender := render; execution := s; running := [] |} evs
          = Ok w ->
          ready_invariant (execution w)).
Proof.
  intros app. split_and!.
  - intros s render s'. apply addTaskToRender_ready_invariant.
  - intros s request s' HI Hls H. unfold removeDependencyLinkFromRequest in H.
    destruct (isFailureRetCode (status s)); [by injection H as <-|].
    by eapply removeDependencyLinks_ready_invariant.
  - intros render isMain root t v ps mm pp roi s evs w Hw Hc Hs.
    apply createExecutionDataInternal_invariant in Hc; [|done].
    apply steps_invariant in Hs; [|done].
    by destruct Hs.
Qed.

(** * The statements on the sample graphs *)

Lemma diamondWorld_created render :
  sampleWorld (sampleApp diamondPass render)
    (sampleArgs (sampleEffect 14) [12%positive])
  = Ok diamondWorld.
Proof. vm_compute. reflexivity. Qed.

Lemma pairWorld_created render :
  sampleWorld (sampleApp pairPass render) (sampleArgs (sampleEffect 12) [])
  = Ok pairWorld.
Proof. vm_compute. reflexivity. Qed.

(** On the diamond, a lifetime that renders 1, then starts 2 and 3 and
    finishes 2, keeps the dependency-free set within the task set. *)
Lemma ready_set_invariant_witness :
  let app := sampleApp diamondPass allOK in
  let evs := [EvExecuteAvailableTasks (-1) 10; EvRunnableStarts 1;
              EvRunnableFinishes 1; EvExecuteAvailableTasks 1 10;
              EvRunnableStarts 2; EvRunnableFinishes 2] in
  createExecutionDataInternal app (treeRender diamondWorld) true (sampleEffect 14)
    0 0 1 0 None None
  = Ok (execution diamondWorld)
  /\ readySet (execution (getWorld (steps app diamondWorld evs))) = [3%positive]
  /\ ready_invariant (execution (getWorld (steps app diamondWorld evs))).
Proof.
  intros app evs.
  split; [vm_compute; reflexivity|].
  split; [vm_compute; reflexivity|].
  eapply (proj2 (proj2 (ready_set_invariant app)) (treeRender diamondWorld) true
            (sampleEffect 14) 0 0 1 0 None None (execution diamondWorld) evs).
  - intros e t v ps mm p roi. apply well_wiredb_sound. vm_compute. reflexivity.
  - vm_compute. reflexivity.
  - vm_compute. reflexivity.
Defined.

(** C2.  With two requests ready, both not rendered, in an execution that
    has not failed, [executeAvailableTasks(-1)] starts the first in the
    pool and returns 1: the decrement takes [nTasksRemaining] from [-1] to
    [-2] and the loop is left with the second request still ready. *)
Theorem executeAvailableTasks_unbounded_starts_one :
  let app := sampleApp pairPass allOK in
  let s := execution pairWorld in
  readySet s = [1; 2]%positive
  /\ status s = eActionStatusOK
  /\ fvrStatus (requests s !!! 1%positive) = eFrameViewRequestStatusNotRendered
  /\ fvrStatus (requests s !!! 2%positive) = eFrameViewRequestStatusNotRendered
  /\ exists render' s',
       executeAvailableTasks app 10 (treeRender pairWorld) s (-1)
       = Ok (1, render', s')
       /\ threadPool s' = [1%positive]
       /\ readySet s' = [2%positive].
Proof.
  intros app s. split_and!; try (vm_compute; reflexivity).
  eexists _, _. split; [vm_compute; reflexivity|].
  split; vm_compute; reflexivity.
Qed.

(** C3, counterexample.  Two requests are ready; the first is started and
    its render fails: the execution is failed and the second request is
    still in the dependency-free set. *)
Lemma failed_execution_keeps_ready_requests :
  let app := sampleApp pairPass failThenAbort in
  exists w,
    steps app pairWorld
      [EvExecuteAvailableTasks 1 10; EvRunnableStarts 1; EvRunnableFinishes 1]
    = Ok w
    /\ status (execution w) = eActionStatusFailed
    /\ isFailureRetCode (status (execution w)) = true
    /\ readySet (execution w) = [2%positive]
    /\ readySet (execution w) <> [].
Proof.
  intros app. eexists.
  split; [vm_compute; reflexivity|].
  split_and!; try (vm_compute; reflexivity). by vm_compute.
Qed.

(** On the diamond, after the failure of 1 the completion of another task
    promotes nothing; on the pair after a failure, a call takes both ready
    requests out without rendering them. *)
Lemma failed_execution_promotes_nothing_witness :
  let app := sampleApp diamondPass failThenAbort in
  let done := [(1%positive, eActionStatusFailed); (2%positive, eActionStatusOK)] in
  (exists render' s',
      tasksFinished app (treeRender diamondWorld) (execution diamondWorld) done
      = Ok (render', s')
      /\ dependencyFreeRenders s' = dependencyFreeRenders (execution diamondWorld)
      /\ isFailureRetCode (status s') = true)
  /\ (exists render' s',
        executeAvailableTasks (sampleApp pairPass allOK) 10 (treeRender pairWorld)
          pairFailed (-1) = Ok (0, render', s')
        /\ readySet pairFailed = [1; 2]%positive
        /\ readySet s' = []
        /\ hasTasksToExecute s' = false).
Proof.
  intros app done. split.
  - eexists _, _.
    split; [vm_compute; reflexivity|].
    eapply (proj1 (proj2 (failed_execution_promotes_nothing app
                            (treeRender diamondWorld) (execution diamondWorld)))
              1%positive eActionStatusFailed [(2%positive, eActionStatusOK)]).
    + reflexivity.
    + vm_compute. reflexivity.
  - destruct (proj2 (proj2 (proj2 (failed_execution_promotes_nothing
                (sampleApp pairPass allOK) (treeRender pairWorld) pairFailed)))
                10%nat (-1) [1; 2]%positive)
      as (_ & _ & Hd).
    + vm_compute. reflexivity.
    + by left.
    + vm_compute. reflexivity.
    + simpl. lia.
    + destruct Hd as (render' & s' & H & Hr & Ha & _).
      { vm_compute. eexists. reflexivity. }
      exists render', s'. split_and!; [exact H| |exact Hr|].
      * vm_compute. reflexivity.
      * unfold hasTasksToExecute. rewrite Ha. vm_compute. reflexivity.
Defined.

(** C4, counterexample.  Both requests are started while the execution is
    not failed; the render of the first fails and the render of the second
    is aborted.  When the first completes the status is Failed, and when
    the second completes the status is Aborted. *)
Lemma later_failure_overwrites_status :
  let app := sampleApp pairPass failThenAbort in
  exists w1 w2,
    steps app pairWorld
      [EvExecuteAvailableTasks 2 10; EvRunnableStarts 1; EvRunnableStarts 2;
       EvRunnableFinishes 1]
    = Ok w1
    /\ status (execution w1) = eActionStatusFailed
    /\ step app w1 (EvRunnableFinishes 2) = Ok w2
    /\ status (execution w2) = eActionStatusAborted
    /\ status (execution w2) <> status (execution w1).
Proof.
  intros app. eexists _, _.
  split; [vm_compute; reflexivity|].
  split; [vm_compute; reflexivity|].
  split; [vm_compute; reflexivity|].
  split; [vm_compute; reflexivity|]. by vm_compute.
Qed.

Lemma execution_status_last_failure_witness :
  let app := sampleApp pairPass failThenAbort in
  let done := [(1%positive, eActionStatusFailed); (2%positive, eActionStatusOK)] in
  exists render' s',
    tasksFinished app (treeRender pairWorld) (execution pairWorld) done
    = Ok (render', s')
    /\ status s' = eActionStatusFailed.
Proof.
  intros app done.
  destruct (tasksFinished app (treeRender pairWorld) (execution pairWorld) done)
    as [[render' s']|e] eqn:E; [|vm_compute in E; discriminate].
  exists render', s'. split; [reflexivity|].
  rewrite (proj1 (execution_status_last_failure _ _ _ _ _ _ E)).
  vm_compute. reflexivity.
Defined.

(** On the diamond, the result of request 2 fills the slot of its node,
    and a later result for the same node does not replace it. *)
Lemma setResults_fills_each_slot_once_witness :
  let h := requests (execution diamondWorld) in
  exists render' final,
    setResults h (treeRender diamondWorld) (Some 2%positive) eActionStatusOK
    = Ok render'
    /\ calls h render' [CallSetResults (Some 2%positive) eActionStatusFailed]
       = Ok final
    /\ extraRequestedResults (treeRender diamondWorld) !! 12%positive = Some None
    /\ extraRequestedResults render' !! 12%positive = Some (Some 2%positive)
    /\ extraRequestedResults final !! 12%positive = Some (Some 2%positive)
    /\ state render' = eActionStatusOK.
Proof.
  intros h.
  destruct (setResults h (treeRender diamondWorld) (Some 2%positive)
              eActionStatusOK) as [render'|e] eqn:E;
    [|vm_compute in E; discriminate].
  destruct (calls h render' [CallSetResults (Some 2%positive) eActionStatusFailed])
    as [final|e] eqn:Ec;
    [|vm_compute in E; injection E as <-; vm_compute in Ec; discriminate].
  exists render', final.
  destruct (setResults_fills_each_slot_once h _ _ _ _ E) as (Hs & _ & Hm).
  assert (H12 : extraRequestedResults render' !! 12%positive
                = Some (Some 2%positive))
    by (vm_compute in E; injection E as <-; vm_compute; reflexivity).
  split_and!; try done.
  - by apply (Hm _ _ _ _ Ec).
Defined.



(** Node 20 is a group input whose real input is node 21: the tree
    render keeps the effect of node 21 as its root and the main execution
    holds the two tasks that the request pass plans for node 21. *)
Lemma create_forwards_group_input_witness :
  let args := sampleArgs (groupInputEffect 20) [] in
  exists render inArgs' s,
    create groupRootApp args = Ok (render, inArgs')
    /\ treeRootEffect inArgs' = sampleEffect 21
    /\ ctorArgs render = Some inArgs'
    /\ createMainExecutionData groupRootApp render = Ok s
    /\ allRenderTasksToProcess s = list_to_set [2; 1]%positive
    /\ exec_outputRequest s = Some 2%positive.
Proof.
  intros args.
  destruct (create groupRootApp args) as [[render inArgs']|e] eqn:E;
    [|vm_compute in E; discriminate].
  destruct (createMainExecutionData groupRootApp render) as [s|e] eqn:Es;
    [|vm_compute in E; injection E as <- _; vm_compute in Es; discriminate].
  exists render, inArgs', s. split; [reflexivity|].
  assert (Hr : isFailureRetCode (state render) = false)
    by (vm_compute in E; injection E as <- _; reflexivity).
  assert (Hs : isFailureRetCode (status s) = false).
  { vm_compute in E. injection E as <- _. vm_compute in Es.
    injection Es as <-. reflexivity. }
  pose proof (create_forwards_group_input groupRootApp args eq_refl) as H.
  change (realInputOf groupRootApp (treeRootEffect args))
    with (Some 21%positive) in H.
  destruct (H render inArgs' E) as (-> & Hc & _ & Hplan).
  split; [reflexivity|]. split; [exact Hc|]. split; [exact Es|].
  destruct (Hplan s Hr Es Hs) as (Ha & _ & _ & Ho & _).
  split; [exact Ha|exact Ho].
Defined.


Lemma pairWorld_invariant : scheduler_invariant (execution pairWorld) [].
Proof.
  apply (createExecutionDataInternal_invariant (sampleApp pairPass allOK)
           (treeRender pairWorld) true (sampleEffect 12) 0 0 1 0 None None).
  - intros e t v ps mm p roi. apply well_wiredb_sound. vm_compute. reflexivity.
  - vm_compute. reflexivity.
Qed.


(** A tree render on which the stroke area is set twice reports the
    second area. *)
Lemma activeStrokeUpdateArea_last_set_witness :
  let app := sampleApp pairPass allOK in
  let out := {| x1 := 9; y1 := 9; x2 := 9; y2 := 9 |} in
  let a1 := {| x1 := 0; y1 := 0; x2 := 4; y2 := 4 |} in
  let a2 := {| x1 := 2; y1 := 2; x2 := 8; y2 := 8 |} in
  exists final,
    calls ∅ (treeRender pairWorld)
      [CallSetActiveStrokeUpdateArea a1; CallSetRenderAborted;
       CallSetActiveStrokeUpdateArea a2; CallRegisterRenderClone 5%positive]
    = Ok final
    /\ getRotoPaintActiveStrokeUpdateArea (treeRender pairWorld) out = (false, out)
    /\ getRotoPaintActiveStrokeUpdateArea final out = (true, a2).
Proof.
  intros app out a1 a2.
  destruct (calls ∅ (treeRender pairWorld)
              [CallSetActiveStrokeUpdateArea a1; CallSetRenderAborted;
               CallSetActiveStrokeUpdateArea a2; CallRegisterRenderClone 5%positive])
    as [final|e] eqn:E; [|vm_compute in E; discriminate].
  exists final. split; [reflexivity|]. split.
  - apply (proj1 (activeStrokeUpdateArea_last_set app ∅
                    (sampleArgs (sampleEffect 12) []) (treeRender pairWorld)
                    (sampleArgs (sampleEffect 12) []) [] (treeRender pairWorld) out
                    ltac:(vm_compute; reflexivity) eq_refl)).
    reflexivity.
  - apply (proj2 (activeStrokeUpdateArea_last_set app ∅
                    (sampleArgs (sampleEffect 12) []) (treeRender pairWorld)
                    (sampleArgs (sampleEffect 12) []) _ final out
                    ltac:(vm_compute; reflexivity) E)
             [CallSetActiveStrokeUpdateArea a1; CallSetRenderAborted] a2
             [CallRegisterRenderClone 5%positive]); reflexivity.
Defined.

(** * Further properties of the tree render *)

(** ** The slots of the extra results *)

Lemma foldl_map_insert_absent nodes : forall m node,
  (forall k v, m !! k = Some v -> v = None) ->
  foldl (fun m node => map_insert_absent node m) m nodes !! node
  = if bool_decide (node ∈ nodes) then Some None else m !! node.
Proof.
  induction nodes as [|n nodes IH]; intros m node Hm; simpl.
  - done.
  - rewrite IH.
    + unfold map_insert_absent.
      destruct (decide (node = n)) as [->|Hne].
      * rewrite (bool_decide_eq_true_2 (n ∈ n :: nodes)) by (by left).
        case_bool_decide; [done|].
        destruct (m !! n) as [v|] eqn:E; simpl.
        { rewrite E. f_equal. by eapply Hm. }
        by rewrite lookup_insert_eq.
      * assert (Hin : bool_decide (node ∈ n :: nodes) = bool_decide (node ∈ nodes)).
        { apply bool_decide_ext. rewrite elem_of_cons. tauto. }
        rewrite Hin. destruct (bool_decide (node ∈ nodes)); [done|].
        destruct (m !! n); [done|]. by rewrite lookup_insert_ne.
    + intros k v. unfold map_insert_absent.
      destruct (m !! n) eqn:E; [apply Hm|].
      destruct (decide (n = k)) as [->|Hne].
      * rewrite lookup_insert_eq. congruence.
      * rewrite lookup_insert_ne by done. apply Hm.
Qed.

Lemma fetchOpenGLContext_fields app render inArgs render' :
  fetchOpenGLContext app render inArgs = Ok render' ->
  exists gl cpu, render' = with_openGLContexts gl cpu render.
Proof.
  unfold fetchOpenGLContext. intros H. bind_inv H. injection H as <-. eauto.
Qed.

(** A tree render that [create] returns in the state OK is the one that
    [init] left, and [init] ran to its end. *)
Lemma create_ok app inArgs render inArgs' :
  create app inArgs = Ok (render, inArgs') ->
  state render = eActionStatusOK ->
  init app TreeRenderPrivate_new inArgs' = (render, Ok tt).
Proof.
  unfold create. intros H Hs.
  assert (Hi : forall a,
    (do _ <- assert (NDEBUG app) (negb (isRenderClone (treeRootEffect a))) ;;
     match init app TreeRenderPrivate_new a with
     | (render, Ok _) => Ok (render, a)
     | (render, Err CxxException) | (render, Err StdException) =>
         Ok (with_state eActionStatusFailed render, a)
     | (_, Err e) => Err e
     end) = Ok (render, inArgs') ->
    init app TreeRenderPrivate_new inArgs' = (render, Ok tt)).
  { intros a Ha. bind_inv Ha.
    destruct (init app TreeRenderPrivate_new a) as [r [[]|[]]] eqn:E;
      inversion Ha; subst; done. }
  destruct (isGroupInput (treeRootEffect inArgs)).
  - destruct (getGroup app _) as [g|]; [|by inversion H; subst].
    destruct (getRealInputForInput app g _) as [ri|]; [|by inversion H; subst].
    exact (Hi _ H).
  - exact (Hi _ H).
Qed.

(** X1.  Right after a successful [create], extra results are requested
    for exactly the nodes of [extraNodesToSample], and none of them has a
    result yet. *)
Theorem create_requests_extra_nodes :
  forall app inArgs render inArgs' node,
    create app inArgs = Ok (render, inArgs') ->
    state render = eActionStatusOK ->
    isExtraResultsRequestedForNode render node
    = bool_decide (node ∈ extraNodesToSample inArgs)
    /\ getExtraRequestedResultsForNode render node = None.
Proof.
  intros app inArgs render inArgs' node Hc Hs.
  assert (He : extraNodesToSample inArgs' = extraNodesToSample inArgs).
  { unfold create in Hc.
    destruct (isGroupInput _);
      [destruct (getGroup app _); [destruct (getRealInputForInput app _ _)|]|];
      try (by inversion Hc); bind_inv Hc;
      destruct (init app _ _) as [r [[]|[]]]; by inversion Hc. }
  apply create_ok in Hc; [|done]. unfold init in Hc.
  destruct (getCurrentSettings app) as [settings|]; [|by inversion Hc].
  destruct (fetchOpenGLContext app _ inArgs') as [r|] eqn:Ef; [|by inversion Hc].
  injection Hc as <-.
  apply fetchOpenGLContext_fields in Ef as (gl & cpu & ->).
  unfold isExtraResultsRequestedForNode, getExtraRequestedResultsForNode. simpl.
  rewrite foldl_map_insert_absent by (intros k v; by rewrite lookup_empty).
  rewrite He, lookup_empty. by case_bool_decide.
Qed.

(** ** The state of a tree render *)

Lemma lastFailedResult_sticky cs : forall stat,
  isFailureRetCode stat = true ->
  isFailureRetCode (lastFailedResult stat cs) = true.
Proof.
  induction cs as [|c cs IH]; intros stat Hf; simpl; [done|].
  destruct c as [request st| | | |]; try by apply IH.
  apply IH. by destruct (isFailureRetCode st) eqn:E.
Qed.

(** X2.  Over any sequence of calls on a tree render, only [setResults]
    with a failure status writes the state: the state is the status of
    the last such call, so a tree render whose state is a failure never
    goes back to OK. *)
Theorem tree_render_state_last_failure :
  forall h cs render render',
    calls h render cs = Ok render' ->
    state render' = lastFailedResult (state render) cs
    /\ (isFailureRetCode (state render) = true ->
        isFailureRetCode (state render') = true).
Proof.
  intros h cs.
  assert (H : forall render render',
    calls h render cs = Ok render' ->
    state render' = lastFailedResult (state render) cs).
  { induction cs as [|c cs IH]; simpl; intros render render' H.
    - by injection H as <-.
    - bind_inv H. rewrite (IH _ _ H).
      destruct c; simpl in Ha; try (by injection Ha as <-).
      by rewrite (setResults_state _ _ _ _ _ Ha). }
  intros render render' Hc. split; [by apply H|].
  intros Hf. rewrite (H _ _ Hc). by apply lastFailedResult_sticky.
Qed.

(** X3.  No call on a tree render creates or removes a slot of extra
    results: the nodes for which extra results are requested are those
    fixed at construction, and a node without a slot never gets a
    result. *)
Theorem extra_slots_are_fixed :
  forall h cs render render' node,
    calls h render cs = Ok render' ->
    isExtraResultsRequestedForNode render' node
    = isExtraResultsRequestedForNode render node
    /\ (isExtraResultsRequestedForNode render node = false ->
        getExtraRequestedResultsForNode render' node = None).
Proof.
  intros h cs render render' node H.
  destruct (calls_extra_monotone h cs render render' node H) as [_ Hs].
  unfold isExtraResultsRequestedForNode, getExtraRequestedResultsForNode.
  destruct (extraRequestedResults render' !! node) as [v'|] eqn:E';
    destruct (extraRequestedResults render !! node) as [v|] eqn:E;
    try done.
  - exfalso. destruct Hs as [Hs _]. by destruct Hs; [eauto|].
  - exfalso. destruct Hs as [_ Hs]. by destruct Hs; [eauto|].
Qed.

(** ** The OpenGL contexts *)



Lemma create_args app inArgs render inArgs' :
  create app inArgs = Ok (render, inArgs') ->
  activeRotoDrawableItem inArgs' = activeRotoDrawableItem inArgs
  /\ extraNodesToSample inArgs' = extraNodesToSample inArgs.
Proof.
  unfold create. intros Hc.
  destruct (isGroupInput _);
    [destruct (getGroup app _); [destruct (getRealInputForInput app _ _)|]|];
    try (by inversion Hc); bind_inv Hc;
    destruct (init app _ _) as [r [[]|[]]]; by inversion Hc.
Qed.



(** X5.  While painting, a tree render takes the contexts that the stroke
    item remembers and does not ask the pool; it asks the pool, for the
    last context, only when the stroke remembers none. *)
Theorem painting_reuses_stroke_contexts :
  forall app inArgs render inArgs' item gl cpu,
    create app inArgs = Ok (render, inArgs') ->
    state render = eActionStatusOK ->
    activeRotoDrawableItem inArgs = Some item ->
    isRotoStrokeItem item = true ->
    getDrawingGLContext app item = (gl, cpu) ->
    (is_Some gl \/ is_Some cpu ->
     openGLContext render = gl /\ cpuOpenGLContext render = cpu)
    /\ (gl = None -> cpu = None ->
        fetchOpenGLContexts app true
        = Ok (openGLContext render, cpuOpenGLContext render)).
Proof.
  intros app inArgs render inArgs' item gl cpu Hc Hs Hitem Hstroke Hdraw.
  destruct (create_args _ _ _ _ Hc) as [Hitem' _].
  apply (create_ok app inArgs) in Hc; [|done]. unfold init in Hc.
  destruct (getCurrentSettings app) as [settings|]; [|by inversion Hc].
  destruct (fetchOpenGLContext app _ inArgs') as [r|] eqn:Ef; [|by inversion Hc].
  injection Hc as <-.
  unfold fetchOpenGLContext in Ef. rewrite Hitem', Hitem in Ef.
  unfold assert in Ef. rewrite Hstroke, orb_true_r, Hdraw in Ef. simpl in Ef.
  split.
  - intros [[x ->]|[x ->]]; [|destruct gl]; by injection Ef as <-.
  - intros -> ->. bind_inv Ef. injection Ef as <-. simpl. by destruct a.
Qed.

(** ** What the request pass plans *)

Lemma sorted_ext (l1 : list positive) : forall l2,
  StronglySorted Pos.lt l1 -> StronglySorted Pos.lt l2 ->
  (forall x, x ∈ l1 <-> x ∈ l2) -> l1 = l2.
Proof.
  induction l1 as [|a l1 IH]; intros [|b l2] H1 H2 Hx; [done| | |].
  - exfalso. eapply not_elem_of_nil, Hx. by left.
  - exfalso. eapply not_elem_of_nil, Hx. by left.
  - apply StronglySorted_inv in H1 as [H1 Ha], H2 as [H2 Hb].
    rewrite list.Forall_forall in Ha, Hb.
    assert (a = b) as ->.
    { destruct (decide (a = b)) as [|Hne]; [done|exfalso].
      assert (Hab : a ∈ l2).
      { assert (Hin : a ∈ b :: l2) by (apply Hx; by left).
        by apply elem_of_cons in Hin as [|]. }
      assert (Hba : b ∈ l1).
      { assert (Hin : b ∈ a :: l1) by (apply Hx; by left).
        apply elem_of_cons in Hin as [|]; [congruence|done]. }
      apply Hb in Hab. apply Ha in Hba. lia. }
    f_equal. apply IH; [done|done|]. intros x. split; intros Hin.
    + assert (Hin' : x ∈ b :: l2) by (apply Hx; by right).
      apply elem_of_cons in Hin' as [->|]; [|done].
      apply Ha in Hin. lia.
    + assert (Hin' : x ∈ b :: l1) by (apply Hx; by right).
      apply elem_of_cons in Hin' as [->|]; [|done].
      apply Hb in Hin. lia.
Qed.

(** X6.  An execution that [createExecutionDataInternal] returns without a
    failure status, for a tree render that has not failed, is the plan of
    the request pass: its tasks are the requests that the pass registered,
    its dependency-free set holds exactly those of them that have no
    dependency, in increasing order, it keeps the root request of the
    pass, and nothing is started yet. *)
Theorem createExecutionDataInternal_plans :
  forall app render isMain root t v ps mm pp roi s,
    createExecutionDataInternal app render isMain root t v ps mm pp roi = Ok s ->
    isFailureRetCode (state render) = false ->
    isFailureRetCode (status s) = false ->
    let pass := requestRender app root t v ps mm (exec_plane s)
                  (exec_canonicalRoI s) in
    allRenderTasksToProcess s = list_to_set (pass_tasks pass)
    /\ requests s = pass_requests pass
    /\ (forall r, r ∈ readySet s <->
          r ∈ pass_tasks pass
          /\ getNumDependencies (pass_requests pass) r = 0)
    /\ StronglySorted Pos.lt (readySet s)
    /\ exec_outputRequest s = pass_outputRequest pass
    /\ status s = pass_status pass
    /\ isMainExecutionOfTree s = isMain
    /\ threadPool s = [] /\ launchedRunnables s = [].
Proof.
  intros app render isMain root t v ps mm pp roi s H Hr Hs pass.
  destruct (createExecutionDataInternal_planned app render isMain root t v ps
              mm pp roi s H Hr Hs)
    as (Ha & Hq & Hready & Hsorted & Ho & Hst & Hm & Hp & Hl).
  split_and!; assumption.
Qed.

Lemma TreeRenderExecutionData_ext (s1 s2 : TreeRenderExecutionData) :
  isMainExecutionOfTree s1 = isMainExecutionOfTree s2 ->
  dependencyFreeRenders s1 = dependencyFreeRenders s2 ->
  allRenderTasksToProcess s1 = allRenderTasksToProcess s2 ->
  status s1 = status s2 ->
  exec_canonicalRoI s1 = exec_canonicalRoI s2 ->
  exec_plane s1 = exec_plane s2 ->
  exec_outputRequest s1 = exec_outputRequest s2 ->
  launchedRunnables s1 = launchedRunnables s2 ->
  requests s1 = requests s2 ->
  threadPool s1 = threadPool s2 ->
  s1 = s2.
Proof. destruct s1, s2; simpl; intros; by subst. Qed.

Lemma addTasksToRender_tasks tasks : forall s s',
  addTasksToRender tasks s = Ok s' ->
  allRenderTasksToProcess s' = list_to_set tasks ∪ allRenderTasksToProcess s
  /\ requests s' = requests s
  /\ threadPool s' = threadPool s
  /\ (StronglySorted Pos.lt (readySet s) -> StronglySorted Pos.lt (readySet s'))
  /\ (dependencyFreeRenders s = None -> dependencyFreeRenders s' = None)
  /\ (is_Some (dependencyFreeRenders s) -> is_Some (dependencyFreeRenders s')).
Proof.
  induction tasks as [|render tasks IH]; simpl; intros s s' H.
  - injection H as <-. split_and!; try done. by rewrite union_empty_l_L.
  - bind_inv H.
    destruct (addTaskToRender_observed _ _ _ Ha) as (Ea & Eh & Ep & Hs & Hr).
    destruct (IH _ _ H) as (Ea' & Eh' & Ep' & Hs' & Hn' & Hr').
    split_and!; try congruence; auto.
    + rewrite Ea', Ea. apply set_eq. intros x. rewrite !elem_of_union. tauto.
    + intros En. apply Hn'. unfold addTaskToRender in Ha. simpl in Ha.
      rewrite En in Ha. destruct (_ =? 0); [discriminate|].
      by injection Ha as <-.
Qed.

(** Registering tasks fails only on the null dependency-free set, which a
    request without dependency dereferences. *)
Lemma addTasksToRender_result tasks : forall s,
  match addTasksToRender tasks s with
  | Ok _ =>
      is_Some (dependencyFreeRenders s)
      \/ forall r, r ∈ tasks -> getNumDependencies (requests s) r <> 0
  | Err e =>
      e = NullDereference /\ dependencyFreeRenders s = None
      /\ exists r, r ∈ tasks /\ getNumDependencies (requests s) r = 0
  end.
Proof.
  induction tasks as [|render tasks IH]; simpl; intros s.
  - right. by intros r ?%elem_of_nil.
  - destruct (addTaskToRender s render) as [s1|e] eqn:Ea; simpl.
    + destruct (addTaskToRender_observed _ _ _ Ea) as (_ & Eh & _).
      specialize (IH s1). rewrite Eh in IH.
      unfold addTaskToRender in Ea. simpl in Ea.
      destruct (Z.eqb_spec (getNumDependencies (requests s) render) 0) as [Hz|Hz].
      * destruct (dependencyFreeRenders s) eqn:Er; [|discriminate].
        destruct (addTasksToRender tasks s1); [left; eauto|].
        destruct IH as (_ & En & _). injection Ea as <-. discriminate.
      * injection Ea as <-. simpl in IH.
        destruct (addTasksToRender tasks _).
        -- destruct IH as [?|IH]; [by left|right].
           intros r [->|Hin]%elem_of_cons; auto.
        -- destruct IH as (-> & En & r & Hin & Hz'). split_and!; try done.
           exists r. split; [by right|done].
    + unfold addTaskToRender in Ea. simpl in Ea.
      destruct (Z.eqb_spec (getNumDependencies (requests s) render) 0) as [Hz|Hz];
        [|discriminate].
      destruct (dependencyFreeRenders s); [discriminate|].
      injection Ea as <-. split_and!; try done.
      exists render. split; [by left|done].
Qed.

(** X7.  The task set and the dependency-free set are sets: which tasks
    the request pass registers decides the planned execution, and neither
    the order in which [addTaskToRender] is called nor a task registered
    twice changes it. *)
Theorem addTasksToRender_order_irrelevant :
  forall tasks1 tasks2 s,
    StronglySorted Pos.lt (readySet s) ->
    (forall r, r ∈ tasks1 <-> r ∈ tasks2) ->
    addTasksToRender tasks1 s = addTasksToRender tasks2 s.
Proof.
  intros tasks1 tasks2 s Hs Hx.
  pose proof (addTasksToRender_result tasks1 s) as H1.
  pose proof (addTasksToRender_result tasks2 s) as H2.
  destruct (addTasksToRender tasks1 s) as [s1|e1] eqn:E1;
    destruct (addTasksToRender tasks2 s) as [s2|e2] eqn:E2.
  - f_equal.
    destruct (addTasksToRender_tasks _ _ _ E1) as (A1 & B1 & C1 & D1 & N1 & S1).
    destruct (addTasksToRender_tasks _ _ _ E2) as (A2 & B2 & C2 & D2 & N2 & S2).
    destruct (addTasksToRender_fields _ _ _ E1)
      as (F1 & F2 & F3 & F4 & F5 & F6 & R1).
    destruct (addTasksToRender_fields _ _ _ E2)
      as (G1 & G2 & G3 & G4 & G5 & G6 & R2).
    apply TreeRenderExecutionData_ext; try congruence.
    + destruct (dependencyFreeRenders s) as [ready|] eqn:Er.
      * destruct S1 as [r1 Er1]; [eauto|]. destruct S2 as [r2 Er2]; [eauto|].
        rewrite Er1, Er2. f_equal.
        unfold readySet in D1, D2, R1, R2. rewrite Er1 in *. rewrite Er2 in *.
        apply sorted_ext; [by apply D1|by apply D2|].
        intros x. rewrite R1, R2, (Hx x). tauto.
      * by rewrite N1, N2.
    + rewrite A1, A2. f_equal. apply set_eq. intros x.
      rewrite !elem_of_list_to_set. apply Hx.
  - exfalso. destruct H2 as (_ & En & r & Hin & Hz).
    destruct H1 as [[? Hsome]|Hall]; [congruence|].
    by apply (Hall r); [apply Hx|].
  - exfalso. destruct H1 as (_ & En & r & Hin & Hz).
    destruct H2 as [[? Hsome]|Hall]; [congruence|].
    by apply (Hall r); [apply Hx|].
  - destruct H1 as (-> & _), H2 as (-> & _). done.
Qed.

(** ** The promotion of listeners *)

Lemma remove_one_length x l : (length (remove_one x l) <= length l)%nat.
Proof.
  induction l as [|y l IH]; simpl; [done|].
  destruct (decide (x = y)); simpl; lia.
Qed.

Lemma removeDependencyLinks_dependencies app request ls : forall s s' l,
  removeDependencyLinks app request ls s = Ok s' ->
  getNumDependencies (requests s') l <= getNumDependencies (requests s) l
  /\ (l ∉ ls ->
      dependencies (requests s' !!! l) = dependencies (requests s !!! l)).
Proof.
  induction ls as [|it ls IH]; intros s s' l H;
    cbn [removeDependencyLinks] in H; [by injection H as <-|].
  destruct (markDependencyAsRendered (requests s) it request)
    as [numDepsLeft h'] eqn:Em.
  assert (Hm : getNumDependencies h' l <= getNumDependencies (requests s) l
               /\ (l ∉ it :: ls ->
                   dependencies (h' !!! l) = dependencies (requests s !!! l))).
  { unfold getNumDependencies. rewrite (dependencies_mark _ _ _ _ _ l Em).
    destruct (decide (it = l)) as [->|Hne].
    - split; [|by intros []; left].
      pose proof (remove_one_length request (dependencies (requests s !!! l))).
      lia.
    - done. }
  assert (Hstep : forall s1,
    requests s1 = h' ->
    removeDependencyLinks app request ls s1 = Ok s' ->
    getNumDependencies (requests s') l <= getNumDependencies (requests s) l
    /\ (l ∉ it :: ls ->
        dependencies (requests s' !!! l) = dependencies (requests s !!! l))).
  { intros s1 E1 H1. destruct (IH _ _ l H1) as [Hle Heq]. rewrite E1 in *.
    destruct Hm as [Hm1 Hm2]. split; [lia|].
    intros Hn. rewrite Heq, Hm2; [done|done|].
    intros Hin. apply Hn. by right. }
  destruct (numDepsLeft =? 0); [|by apply (Hstep (with_requests h' s))].
  destruct (dependencyFreeRenders (with_requests h' s)) as [ready|] eqn:Er;
    [|discriminate].
  destruct (set_find it ready); simpl in H;
    [by apply (Hstep (with_requests h' s))|].
  bind_inv H. by eapply Hstep; [|exact H].
Qed.

Lemma removeDependencyLinks_promotes app request ls : forall s s' l,
  removeDependencyLinks app request ls s = Ok s' ->
  l ∈ readySet s' <->
  l ∈ readySet s
  \/ (l ∈ ls /\ getNumDependencies (requests s') l = 0).
Proof.
  induction ls as [|it ls IH]; intros s s' l H.
  { cbn [removeDependencyLinks] in H. injection H as <-.
    rewrite elem_of_nil. tauto. }
  cbn [removeDependencyLinks] in H.
  destruct (markDependencyAsRendered (requests s) it request)
    as [numDepsLeft h'] eqn:Em.
  pose proof (markDependencyAsRendered_count _ _ _ _ _ Em) as Hc.
  assert (Hnn : forall h r, 0 <= getNumDependencies h r)
    by (intros; unfold getNumDependencies; lia).
  destruct (Z.eqb_spec numDepsLeft 0) as [Hz|Hz].
  - destruct (dependencyFreeRenders (with_requests h' s)) as [ready|] eqn:Er;
      [|discriminate].
    assert (Hit : forall s1, requests s1 = h' ->
              removeDependencyLinks app request ls s1 = Ok s' ->
              getNumDependencies (requests s') it = 0).
    { intros s1 E1 H1.
      destruct (removeDependencyLinks_dependencies _ _ _ _ _ it H1) as [Hle _].
      rewrite E1 in Hle. specialize (Hnn (requests s') it). lia. }
    simpl in Er. unfold set_find in H. case_bool_decide as Hin; simpl in H.
    + rewrite (IH _ _ l H). unfold readySet. simpl. rewrite Er, elem_of_cons.
      split; [tauto|]. intros [?|[[->|?] ?]]; auto.
    + bind_inv H. rewrite (IH _ _ l H). unfold readySet. simpl.
      rewrite Er, elem_of_set_insert, elem_of_cons.
      pose proof (fun E => Hit _ E H) as Hit0. specialize (Hit0 eq_refl).
      split; [intros [[->|?]|[? ?]]|intros [?|[[->|?] ?]]]; auto.
  - rewrite (IH _ _ l H). unfold readySet. simpl. rewrite elem_of_cons.
    split; [tauto|]. intros [?|[[->|?] Hl]]; auto.
    destruct (decide (it ∈ ls)) as [|Hn]; [auto|exfalso].
    destruct (removeDependencyLinks_dependencies _ _ _ _ _ it H) as [_ Heq].
    apply Hz. rewrite Hc. unfold getNumDependencies in *.
    simpl in Heq. by rewrite <- Heq.
Qed.

(** X8.  The completion of a task on an execution that has not failed
    takes the task out of the task set, takes no request out of the
    dependency-free set, and puts in it exactly the listeners of the task
    that are left without dependency; no request gains a dependency. *)
Theorem onTaskFinished_promotes_exactly :
  forall app render s request stat render' s',
    onTaskFinished app render s request stat = Ok (render', s') ->
    isFailureRetCode (status s') = false ->
    (forall l, l ∈ readySet s' <->
       l ∈ readySet s
       \/ (l ∈ getListeners (requests s) request
           /\ getNumDependencies (requests s') l = 0))
    /\ allRenderTasksToProcess s' = allRenderTasksToProcess s ∖ {[request]}
    /\ (forall l, getNumDependencies (requests s') l
                  <= getNumDependencies (requests s) l).
Proof.
  intros app render s request stat render' s' H Hs.
  pose proof (onTaskFinished_frame _ _ _ _ _ _ _ H) as (_ & _ & Es & _).
  rewrite Es in Hs.
  destruct (isFailureRetCode stat) eqn:Ef; [congruence|].
  unfold onTaskFinished in H. rewrite Ef in H. bind_inv H. bind_inv H.
  injection H as <- <-.
  set (s1 := with_requests (clearRenderedDependencies (requests s) request) s) in *.
  assert (E3 : dependencyFreeRenders (removeTaskFromGlobalTaskList s1 request)
               = dependencyFreeRenders s
               /\ requests (removeTaskFromGlobalTaskList s1 request)
                  = clearRenderedDependencies (requests s) request
               /\ status (removeTaskFromGlobalTaskList s1 request) = status s
               /\ allRenderTasksToProcess (removeTaskFromGlobalTaskList s1 request)
                  = allRenderTasksToProcess s ∖ {[request]}).
  { unfold removeTaskFromGlobalTaskList. case_bool_decide as Hin; [done|].
    split_and!; try done. simpl. apply set_eq. intros x.
    rewrite elem_of_difference, elem_of_singleton.
    split; [|tauto]. intros Hx. split; [done|]. by intros ->. }
  destruct E3 as (Er & Eh & Est & Ea).
  unfold removeDependencyLinkFromRequest in Ha. rewrite Est, Hs in Ha.
  rewrite Eh in Ha. unfold getListeners in Ha at 1.
  rewrite listeners_clear in Ha.
  split_and!.
  - intros l. rewrite (removeDependencyLinks_promotes _ _ _ _ _ l Ha).
    unfold readySet, getListeners. by rewrite Er.
  - apply removeDependencyLinks_frame in Ha as (-> & _). done.
  - intros l.
    destruct (removeDependencyLinks_dependencies _ _ _ _ _ l Ha) as [Hle _].
    rewrite Eh in Hle. unfold getNumDependencies in *.
    by rewrite dependencies_clear in Hle.
Qed.

(** ** The requests in flight *)

(** X9.  Take a request pass that lists a request among the listeners of
    another only when it has that other among its dependencies, and that
    registers with [addTaskToRender] every listener of a request it
    registers.  Over the lifetime of an execution planned by such a pass,
    a request is in flight (queued in the pool or held by a running
    worker) at most once, a request in flight is still in the task set and
    no longer in the dependency-free set, and [hasTasksToExecute] is true
    while a request is in flight. *)
Theorem requests_in_flight_are_pending :
  forall app render isMain root t v ps mm pp roi s evs w,
    (forall e t v ps mm p roi,
        well_wired (requestRender app e t v ps mm p roi)) ->
    createExecutionDataInternal app render isMain root t v ps mm pp roi = Ok s ->
    steps app {| treeRender := render; execution := s; running := [] |} evs
    = Ok w ->
    NoDup (threadPool (execution w) ++ (running w).*1)
    /\ (forall r, r ∈ threadPool (execution w) ++ (running w).*1 ->
          r ∈ allRenderTasksToProcess (execution w)
          /\ r ∉ readySet (execution w))
    /\ (threadPool (execution w) ++ (running w).*1 <> [] ->
        hasTasksToExecute (execution w) = true).
Proof.
  intros app render isMain root t v ps mm pp roi s evs w Hw Hc Hs.
  apply createExecutionDataInternal_invariant in Hc; [|done].
  apply steps_invariant in Hs; [|done].
  destruct Hs as [_ _ _ _ Hnd Hfl]. split_and!; [done| |].
  - intros r Hr. by destruct (Hfl r Hr) as (? & ? & _).
  - intros Hne. unfold hasTasksToExecute. apply bool_decide_eq_true.
    destruct (threadPool (execution w) ++ (running w).*1) as [|r l] eqn:E;
      [done|].
    destruct (Hfl r) as [Hin _]; [by left|].
    destruct (decide (size (allRenderTasksToProcess (execution w)) = 0%nat))
      as [Hz|Hz]; [|lia].
    apply size_empty_iff in Hz. rewrite Hz in Hin. by apply elem_of_empty in Hin.
Qed.

(** ** What a call of [executeAvailableTasks] does *)

Lemma loop_progress app fuel : forall render s n k k' render' s',
  0 <= k -> int32 n -> k + budget n < 2 ^ 31 ->
  executeAvailableTasks_loop app fuel render s n k = Ok (k', render', s') ->
  k' = k + budget n \/ readySet s' = [].
Proof.
  induction fuel as [|fuel IH]; intros render s n k k' render' s' Hk Hn Hb H.
  all: apply loop_Ok in H
      as [[(ready & Er & Hx) [= -> -> ->]]
         |(f & r1 & s1 & n1 & k1 & Hfu & Hit & H)].
  all: try (destruct Hx as [Hx| ->];
            [left; unfold budget;
             destruct (Z.eqb_spec n (-1)); [exfalso; apply Hx; by left|lia]
            |right; unfold readySet; by rewrite Er]).
  all: try done.
  injection Hfu as <-.
  inversion Hit as [r0 s0 n0 k0 req rdy Er Hnn Hmt Hst Hfl
                   |r0 s0 n0 k0 req rdy r2 s2 Er Hnn Hc Hrun]; subst.
  - assert (Hb1 : 1 <= budget n /\ budget (wrap32 (n - 1)) = budget n - 1
                  /\ int32 (wrap32 (n - 1))).
    { unfold int32 in *. destruct Hnn as [->|Hpos]; [by vm_compute|].
      rewrite wrap32_small by (unfold int32; lia). unfold budget.
      destruct (Z.eqb_spec n (-1)); [lia|].
      destruct (Z.eqb_spec (n - 1) (-1)); lia. }
    destruct Hb1 as (Hb1 & Hb2 & Hb3).
    assert (Hk1 : wrap32 (k + 1) = k + 1)
      by (apply wrap32_small; unfold int32; lia).
    rewrite Hk1 in H.
    apply IH in H as [->|Hr]; [left; lia|by right|lia|done|lia].
  - by apply IH in H.
Qed.

(** X10.  On an execution that satisfies the scheduler invariant, a call
    of [executeAvailableTasks] returns: it returns the number of requests
    it appended to the pool, which is the whole budget of the call
    ([nTasks] when positive, one for [-1], none below [-1]) unless the
    dependency-free set ran empty first, and it leaves an execution that
    satisfies the invariant. *)
Theorem executeAvailableTasks_returns :
  forall app extra fuel render s nTasks,
    scheduler_invariant s extra ->
    is_Some (ctorArgs render) ->
    nTasks <> 0 ->
    int32 nTasks ->
    (potential extra s < fuel)%nat ->
    exists k render' s' started,
      executeAvailableTasks app fuel render s nTasks = Ok (k, render', s')
      /\ threadPool s' = threadPool s ++ started
      /\ k = Z.of_nat (length started)
      /\ k <= budget nTasks
      /\ (k = budget nTasks \/ readySet s' = [])
      /\ scheduler_invariant s' extra.
Proof.
  intros app extra fuel render s nTasks HJ Hc Hn Hi Hp.
  destruct (executeAvailableTasks_total app extra fuel render s nTasks)
    as [[[k render'] s'] H]; try done.
  destruct (executeAvailableTasks_count _ _ _ _ _ _ _ _ Hi H)
    as (started & Ep & _ & Ek & Hb).
  exists k, render', s', started. split_and!; try done.
  - unfold executeAvailableTasks in H. bind_inv H.
    destruct (dependencyFreeRenders s) eqn:Er.
    + apply loop_progress in H as [->|?]; [by left|by right|done|done|].
      unfold int32, budget in *. destruct (nTasks =? -1); lia.
    + injection H as <- <- <-. right. unfold readySet. by rewrite Er.
  - by eapply executeAvailableTasks_invariant.
Qed.

(** ** A failed execution *)

(** X11.  On an execution whose status is a failure, a call of
    [executeAvailableTasks] that has a budget returns 0 and empties the
    dependency-free set: every request that was ready is taken out of the
    task set without being rendered (the call is the same whatever
    [launchNodeRender] would do), nothing is started in the pool, and the
    tree render is given the status of the execution. *)
Theorem failed_execution_is_drained :
  forall app fuel render s nTasks,
    isFailureRetCode (status s) = true ->
    nTasks = -1 \/ 0 < nTasks ->
    is_Some (ctorArgs render) ->
    (length (readySet s) < fuel)%nat ->
    (exists render' s',
        executeAvailableTasks app fuel render s nTasks = Ok (0, render', s')
        /\ readySet s' = []
        /\ allRenderTasksToProcess s'
           = allRenderTasksToProcess s ∖ list_to_set (readySet s)
        /\ status s' = status s
        /\ threadPool s' = threadPool s
        /\ (readySet s <> [] -> state render' = status s))
    /\ (forall launch,
          executeAvailableTasks (with_launchNodeRender launch app) fuel render s
            nTasks
          = executeAvailableTasks app fuel render s nTasks).
Proof.
  intros app fuel render s nTasks Hf Hn Hc Hl. split.
  - unfold executeAvailableTasks, assert.
    assert (Hnz : negb (nTasks =? 0) = true)
      by (destruct (Z.eqb_spec nTasks 0); [lia|done]).
    rewrite Hnz, orb_true_r. cbn [res_bind]. unfold readySet in *.
    destruct (dependencyFreeRenders s) as [ready|] eqn:Er.
    + destruct (loop_failed_drains app ready fuel render s nTasks 0)
        as (render' & s' & H & Er' & Ea & Es & Ep & Hst); try done.
      exists render', s'. rewrite Er'. done.
    + exists render, s. rewrite Er. split_and!; try done.
      apply set_eq. intros x. rewrite elem_of_difference, elem_of_list_to_set.
      rewrite elem_of_nil. tauto.
  - intros launch. unfold executeAvailableTasks. simpl.
    destruct (assert _ _); [|done]. cbn [res_bind].
    destruct (dependencyFreeRenders s); [|done].
    by apply loop_without_render.
Qed.

(** X12.  The calls of [executeAvailableTasks] that have nothing to do
    return 0 and touch nothing: on a null or empty dependency-free set,
    and for a count below [-1], which is no budget at all.  The count 0
    fails the [assert] of a debug build and is such a call in a release
    build. *)
Theorem executeAvailableTasks_nothing_to_do :
  forall app fuel render s nTasks,
    (nTasks <> 0 ->
     dependencyFreeRenders s = None \/ dependencyFreeRenders s = Some []
     \/ nTasks < -1 ->
     executeAvailableTasks app fuel render s nTasks = Ok (0, render, s))
    /\ executeAvailableTasks app fuel render s 0
       = (if NDEBUG app then Ok (0, render, s) else Err AssertionFailed).
Proof.
  intros app fuel render s nTasks. split.
  - intros Hn Hcase. unfold executeAvailableTasks, assert.
    destruct (Z.eqb_spec nTasks 0); [done|]. rewrite orb_true_r.
    cbn [res_bind].
    destruct (dependencyFreeRenders s) as [ready|] eqn:Er; [|done].
    apply loop_exits. exists ready. split; [done|].
    destruct Hcase as [?|[[= ->]|?]]; [done|by right|left; lia].
  - unfold executeAvailableTasks, assert. simpl. rewrite orb_false_r.
    destruct (NDEBUG app); [|done]. cbn [res_bind].
    destruct (dependencyFreeRenders s) as [ready|] eqn:Er; [|done].
    apply loop_exits. exists ready. split; [done|]. left. lia.
Qed.

(** ** What a completion reports *)

(** X13.  The completion of a task takes it out of the task set and
    reports the status of the execution to the tree render: a failed
    execution writes its status in the state of the tree render, an
    execution that has not failed leaves the state alone, and the request
    of the root node becomes the output request of the tree render. *)
Theorem onTaskFinished_reports_to_tree_render :
  forall app render s request stat render' s',
    onTaskFinished app render s request stat = Ok (render', s') ->
    status s' = (if isFailureRetCode stat then stat else status s)
    /\ state render'
       = (if isFailureRetCode (status s') then status s' else state render)
    /\ (request ∉ allRenderTasksToProcess s')
    /\ (forall args,
          ctorArgs render = Some args ->
          getNode (getEffect (requests s' !!! request))
          = getNode (treeRootEffect args) ->
          outputRequest render' = Some request).
Proof.
  intros app render s request stat render' s' H.
  pose proof (onTaskFinished_frame _ _ _ _ _ _ _ H) as (_ & _ & Es & _).
  split; [done|].
  unfold onTaskFinished in H. bind_inv H. bind_inv H. injection H as <- <-.
  split_and!.
  - by apply setResults_state in Ha0.
  - set (s3 := removeTaskFromGlobalTaskList _ request) in Ha.
    assert (Hn : request ∉ allRenderTasksToProcess s3).
    { subst s3. unfold removeTaskFromGlobalTaskList.
      case_bool_decide as Hin; simpl.
      - rewrite elem_of_difference, elem_of_singleton. tauto.
      - by destruct (isFailureRetCode stat). }
    unfold removeDependencyLinkFromRequest in Ha.
    destruct (isFailureRetCode (status s3)); [by injection Ha as <-|].
    apply removeDependencyLinks_frame in Ha as (-> & _). done.
  - intros args Hc Hroot. unfold setResults in Ha0.
    assert (Ec : ctorArgs (if isFailureRetCode (status a)
                           then with_state (status a) render else render)
                 = Some args) by (by destruct (isFailureRetCode (status a))).
    rewrite Ec in Ha0. rewrite decide_True in Ha0 by done.
    by injection Ha0 as <-.
Qed.

(** ** The executions of the extra results *)

Lemma createExecutionDataInternal_isMain app render isMain root t v ps mm pp roi s :
  createExecutionDataInternal app render isMain root t v ps mm pp roi = Ok s ->
  isMainExecutionOfTree s = isMain.
Proof.
  intros H. unfold createExecutionDataInternal in H.
  destruct (isFailureRetCode (state render)); [by injection H as <-|].
  bind_inv H. bind_inv H.
  assert (E0 : isMainExecutionOfTree a0 = isMain).
  { destruct pp; [by injection Ha0 as <-|].
    bind_inv Ha0. destruct a1. by injection Ha0 as <-. }
  destruct (isFailureRetCode (status a0)); [by injection H as <-|].
  bind_inv H.
  assert (E1 : isMainExecutionOfTree a1 = isMain).
  { destruct roi; [by injection Ha1 as <-|].
    bind_inv Ha1. destruct a2. by injection Ha1 as <-. }
  destruct (isFailureRetCode (status a1)); [by injection H as <-|].
  bind_inv H.
  destruct (addTasksToRender_fields _ _ _ Ha2) as (F1 & _).
  simpl in F1, H.
  destruct (isFailureRetCode _); [injection H as <-; simpl; congruence|].
  destruct (dependencyFreeRenders a2); [|discriminate].
  simpl in H. bind_inv H.
  case_bool_decide; injection H as <-; simpl; congruence.
Qed.

Lemma elem_of_slotsInOrder m node v :
  (node, v) ∈ slotsInOrder m <-> m !! node = Some v.
Proof.
  unfold slotsInOrder. rewrite sorting.merge_sort_Permutation.
  apply elem_of_map_to_list.
Qed.

Lemma slotsInOrder_sorted m : StronglySorted Pos.lt (slotsInOrder m).*1.
Proof.
  assert (Htrans : Transitive slotLe) by (intros a b c; unfold slotLe; lia).
  assert (Htotal : Total slotLe) by (intros a b; unfold slotLe; lia).
  pose proof (sorting.StronglySorted_merge_sort slotLe (map_to_list m)) as Hs.
  assert (Hnd : NoDup (slotsInOrder m).*1).
  { unfold slotsInOrder. rewrite sorting.merge_sort_Permutation.
    apply NoDup_fst_map_to_list. }
  fold (slotsInOrder m) in Hs.
  induction Hs as [|a l Hs IH Ha]; simpl; [constructor|].
  simpl in Hnd. apply list.NoDup_cons in Hnd as [Hn Hnd].
  constructor; [by apply IH|].
  rewrite list.Forall_forall in Ha. apply list.Forall_forall.
  intros k Hk. apply list_elem_of_fmap in Hk as (b & -> & Hb).
  specialize (Ha b Hb). unfold slotLe in Ha.
  assert (a.1 <> b.1).
  { intros E. apply Hn. rewrite E. by apply list_elem_of_fmap_2. }
  lia.
Qed.

Lemma filter_slots_sorted (slots : list (NodePtr * option FrameViewRequestPtr)) :
  StronglySorted Pos.lt slots.*1 ->
  StronglySorted Pos.lt (filter (fun slot => slot.2 = None) slots).*1.
Proof.
  induction slots as [|a slots IH]; simpl; intros Hs; [constructor|].
  apply StronglySorted_inv in Hs as [Hs Ha].
  rewrite filter_cons. destruct (decide (a.2 = None)); [|by apply IH].
  simpl. constructor; [by apply IH|].
  rewrite list.Forall_forall in Ha. apply list.Forall_forall.
  intros k Hk. apply Ha.
  apply list_elem_of_fmap in Hk as (b & -> & Hb).
  apply list_elem_of_filter in Hb as [_ Hb]. by apply list_elem_of_fmap_2.
Qed.

Lemma subExecutionsFor_empty_slots app render slots : forall ret,
  subExecutionsFor app render slots = Ok ret ->
  Forall2
    (fun node execData =>
       exists args,
         ctorArgs render = Some args
         /\ createSubExecutionData app render (getEffectInstance app node)
              (time args) (view args) (proxyScale args) (mipMapLevel args)
              (if getNumComponents (plane args) =? 0 then None
               else Some (plane args))
              (if isNull (canonicalRoI args) then None
               else Some (canonicalRoI args))
            = Ok execData)
    (filter (fun slot => slot.2 = None) slots).*1 ret.
Proof.
  induction slots as [|[node [req|]] slots IH]; intros ret H;
    cbn [subExecutionsFor] in H.
  - injection H as <-. constructor.
  - rewrite filter_cons_False by done. by apply IH.
  - rewrite filter_cons_True by done. cbn [fmap list_fmap fst].
    destruct (ctorArgs render) as [args|] eqn:Ec; [|discriminate].
    bind_inv H. bind_inv H. injection H as <-.
    constructor; [|by apply IH]. by exists args.
Qed.

(** X14.  [getExtraRequestedResultsExecutionData] plans one sub-execution
    for every node whose extra results are requested and not yet there,
    in the order of the nodes, from the effect of the node and the
    arguments of the tree render; none of them is the main execution of
    the tree, and when no slot is empty it returns the empty list without
    reading the arguments. *)
Theorem extra_executions_cover_empty_slots :
  forall app render,
    (forall node, node ∈ emptySlots render <->
        isExtraResultsRequestedForNode render node = true
        /\ getExtraRequestedResultsForNode render node = None)
    /\ StronglySorted Pos.lt (emptySlots render)
    /\ (emptySlots render = [] ->
        getExtraRequestedResultsExecutionData app render = Ok [])
    /\ (forall ret,
          getExtraRequestedResultsExecutionData app render = Ok ret ->
          Forall2
            (fun node execData =>
               exists args,
                 ctorArgs render = Some args
                 /\ createSubExecutionData app render (getEffectInstance app node)
                      (time args) (view args) (proxyScale args) (mipMapLevel args)
                      (if getNumComponents (plane args) =? 0 then None
                       else Some (plane args))
                      (if isNull (canonicalRoI args) then None
                       else Some (canonicalRoI args))
                    = Ok execData)
            (emptySlots render) ret
          /\ Forall (fun execData => isMainExecutionOfTree execData = false) ret).
Proof.
  intros app render. split_and!.
  - intros node. unfold emptySlots, isExtraResultsRequestedForNode,
      getExtraRequestedResultsForNode.
    rewrite list_elem_of_fmap. split.
    + intros ([k v] & -> & Hin). apply list_elem_of_filter in Hin as [Hv Hin].
      simpl in *. subst v. apply elem_of_slotsInOrder in Hin. by rewrite Hin.
    + intros [H1 H2].
      destruct (extraRequestedResults render !! node) as [v|] eqn:E; [|done].
      subst v. exists (node, None). split; [done|].
      apply list_elem_of_filter. split; [done|]. by apply elem_of_slotsInOrder.
  - apply filter_slots_sorted, slotsInOrder_sorted.
  - unfold emptySlots, getExtraRequestedResultsExecutionData.
    generalize (slotsInOrder (extraRequestedResults render)).
    induction l as [|[node [req|]] l IH]; cbn [subExecutionsFor]; [done| |].
    + rewrite filter_cons_False by done. exact IH.
    + rewrite filter_cons_True by done. done.
  - intros ret H.
    apply subExecutionsFor_empty_slots in H. fold (emptySlots render) in H.
    split; [done|].
    induction H as [|node execData nodes ret (args & _ & Hc) _ IH];
      constructor; [|done].
    by apply createExecutionDataInternal_isMain in Hc.
Qed.

(** ** The order of dispatch *)

Lemma removeDependencyLinks_sorted app request ls : forall s s',
  StronglySorted Pos.lt (readySet s) ->
  removeDependencyLinks app request ls s = Ok s' ->
  StronglySorted Pos.lt (readySet s').
Proof.
  induction ls as [|it ls IH]; intros s s' Hs H;
    cbn [removeDependencyLinks] in H; [by injection H as <-|].
  destruct (markDependencyAsRendered (requests s) it request)
    as [numDepsLeft h'] eqn:Em.
  destruct (numDepsLeft =? 0); [|by apply IH in H].
  destruct (dependencyFreeRenders (with_requests h' s)) as [ready|] eqn:Er;
    [|discriminate].
  destruct (set_find it ready); simpl in H; [by apply IH in H|].
  bind_inv H. apply IH in H; [done|]. unfold readySet in *. simpl in *.
  rewrite Er in Hs. by apply set_insert_sorted.
Qed.

Lemma onTaskFinished_sorted app render s request stat render' s' :
  StronglySorted Pos.lt (readySet s) ->
  onTaskFinished app render s request stat = Ok (render', s') ->
  StronglySorted Pos.lt (readySet s').
Proof.
  intros Hs H. unfold onTaskFinished in H. bind_inv H. bind_inv H.
  injection H as _ <-.
  set (s3 := removeTaskFromGlobalTaskList _ request) in Ha.
  assert (H3 : StronglySorted Pos.lt (readySet s3)).
  { subst s3. unfold removeTaskFromGlobalTaskList, readySet.
    destruct (isFailureRetCode stat); case_bool_decide; done. }
  unfold removeDependencyLinkFromRequest in Ha.
  destruct (isFailureRetCode (status s3)); [by injection Ha as <-|].
  by eapply removeDependencyLinks_sorted.
Qed.

Lemma loop_sorted app fuel : forall render s n k k' render' s',
  StronglySorted Pos.lt (readySet s) ->
  executeAvailableTasks_loop app fuel render s n k = Ok (k', render', s') ->
  StronglySorted Pos.lt (readySet s').
Proof.
  induction fuel as [|fuel IH]; intros render s n k k' render' s' Hs H;
    apply loop_Ok in H
      as [[_ [= -> -> ->]]|(f & r1 & s1 & n1 & k1 & Hfu & Hit & H)];
    try done.
  injection Hfu as <-.
  assert (Hpop : forall req rdy, dependencyFreeRenders s = Some (req :: rdy) ->
            StronglySorted Pos.lt rdy).
  { intros req rdy Er. unfold readySet in Hs. rewrite Er in Hs.
    by apply StronglySorted_inv in Hs as [? _]. }
  inversion Hit as [r0 s0 n0 k0 req rdy Er Hnn Hmt Hst Hfl
                   |r0 s0 n0 k0 req rdy r2 s2 Er Hnn Hc Hrun]; subst.
  - eapply IH; [|exact H]. unfold readySet. simpl. by eapply Hpop.
  - eapply IH; [|exact H]. unfold run in Hrun.
    eapply onTaskFinished_sorted; [|exact Hrun].
    unfold readySet. simpl. by eapply Hpop.
Qed.

Lemma steps_sorted app evs : forall w w',
  StronglySorted Pos.lt (readySet (execution w)) ->
  steps app w evs = Ok w' ->
  StronglySorted Pos.lt (readySet (execution w')).
Proof.
  induction evs as [|ev evs IH]; simpl; intros w w' Hs H.
  - by injection H as <-.
  - bind_inv H. eapply IH; [|exact H].
    destruct ev as [nTasks fuel|request|request]; simpl in Ha.
    + bind_inv Ha. destruct a0 as [[k render] s]. injection Ha as <-. simpl.
      unfold executeAvailableTasks in Ha0. bind_inv Ha0.
      destruct (dependencyFreeRenders (execution w)) eqn:Er;
        [by eapply loop_sorted|by injection Ha0 as _ _ <-].
    + case_bool_decide; injection Ha as <-; done.
    + destruct (take_running request (running w)) as [[stat rest]|];
        [|by injection Ha as <-].
      bind_inv Ha. destruct a0 as [render s]. injection Ha as <-. simpl.
      by eapply onTaskFinished_sorted.
Qed.

Lemma createExecutionDataInternal_sorted app render isMain root t v ps mm pp roi s :
  createExecutionDataInternal app render isMain root t v ps mm pp roi = Ok s ->
  StronglySorted Pos.lt (readySet s).
Proof.
  intros H. unfold createExecutionDataInternal in H.
  destruct (isFailureRetCode (state render));
    [injection H as <-; constructor|].
  bind_inv H. bind_inv H.
  assert (E0 : dependencyFreeRenders a0 = None).
  { destruct pp; [by injection Ha0 as <-|].
    bind_inv Ha0. destruct a1. by injection Ha0 as <-. }
  destruct (isFailureRetCode (status a0));
    [injection H as <-; unfold readySet; rewrite E0; constructor|].
  bind_inv H.
  assert (E1 : dependencyFreeRenders a1 = None).
  { destruct roi; [by injection Ha1 as <-|].
    bind_inv Ha1. destruct a2. by injection Ha1 as <-. }
  destruct (isFailureRetCode (status a1));
    [injection H as <-; unfold readySet; rewrite E1; constructor|].
  bind_inv H.
  apply addTasksToRender_tasks in Ha2 as (_ & _ & _ & Hs & _).
  assert (Hs2 : StronglySorted Pos.lt (readySet a2)) by (apply Hs; constructor).
  simpl in H.
  destruct (isFailureRetCode (pass_status _)); [by injection H as <-|].
  destruct (dependencyFreeRenders a2) eqn:Er; [|discriminate].
  simpl in H. bind_inv H.
  case_bool_decide; injection H as <-; unfold readySet in *; simpl;
    by rewrite Er in *.
Qed.

(** X15.  The dependency-free set of an execution stays in the order of
    the addresses of its requests over its whole lifetime, whatever the
    request pass planned, so the request that [executeAvailableTasks]
    takes first, the head of the set, is the ready request with the lowest
    address, however many requests wait for it.  When that request is not
    rendered yet and the execution has not failed, a call with a budget of
    the multi-threaded build, if it returns, has started that request in
    the pool before any other. *)
Theorem executeAvailableTasks_starts_lowest_address :
  forall app render isMain root t v ps mm pp roi s0 evs w,
    createExecutionDataInternal app render isMain root t v ps mm pp roi = Ok s0 ->
    steps app {| treeRender := render; execution := s0; running := [] |} evs
    = Ok w ->
    StronglySorted Pos.lt (readySet (execution w))
    /\ forall request ready,
         dependencyFreeRenders (execution w) = Some (request :: ready) ->
         (forall r, r ∈ ready -> (request < r)%positive)
         /\ forall fuel nTasks k render' s',
              executeAvailableTasks app fuel (treeRender w) (execution w) nTasks
              = Ok (k, render', s') ->
              int32 nTasks ->
              nTasks = -1 \/ 0 < nTasks ->
              TREE_RENDER_DISABLE_MT app = false ->
              isFailureRetCode (status (execution w)) = false ->
              fvrStatus (requests (execution w) !!! request)
              = eFrameViewRequestStatusNotRendered ->
              exists started,
                threadPool s' = threadPool (execution w) ++ request :: started
                /\ k = 1 + Z.of_nat (length started).
Proof.
  intros app render isMain root t v ps mm pp roi s0 evs w Hc Hsteps.
  assert (Hs : StronglySorted Pos.lt (readySet (execution w))).
  { eapply steps_sorted; [|exact Hsteps]. simpl.
    by eapply createExecutionDataInternal_sorted. }
  split; [done|]. intros request ready Er. split.
  - unfold readySet in Hs. rewrite Er in Hs.
    apply StronglySorted_inv in Hs as [_ Hs]. rewrite list.Forall_forall in Hs.
    exact Hs.
  - intros fuel nTasks k render' s' H Hi Hn Hmt Hf Hst.
    unfold executeAvailableTasks in H. bind_inv H. rewrite Er in H.
    apply loop_Ok in H
      as [[(rdy & Er' & Hx) _]|(f & r1 & s1 & n1 & k1 & Hfu & Hit & H)].
    { rewrite Er in Er'. injection Er' as <-. by destruct Hx. }
    inversion Hit as [r0 s2 n0 k0 req rdy Er' Hnn Hmt' Hst' Hfl
                     |r0 s2 n0 k0 req rdy r2 s3 Er' Hnn Hc' Hrun]; subst;
      rewrite Er in Er'; injection Er' as <- <-.
    + assert (Hb : int32 (wrap32 (nTasks - 1))
                   /\ 1 + budget (wrap32 (nTasks - 1)) < 2 ^ 31).
      { unfold int32 in *. destruct Hn as [->|Hpos]; [by vm_compute|].
        rewrite wrap32_small by (unfold int32; lia). unfold budget.
        destruct (Z.eqb_spec (nTasks - 1) (-1)); lia. }
      destruct Hb as [Hb1 Hb2].
      change (wrap32 (0 + 1)) with 1 in H.
      apply loop_count in H as (started & Ep & _ & Ek & _); [|lia|done|done].
      exists started. simpl in Ep. rewrite <- app_assoc in Ep. done.
    + destruct Hc' as [?|[?|?]]; congruence.
Qed.

(** ** The plane and the region of an execution *)

(** X16.  [createExecutionDataInternal] renders the plane and the region
    that the caller gives; when the caller gives no plane, or no region,
    it asks the render clone of the root, and a failure of that action is
    the status of the execution that is returned, which is not planned: it
    has no task and its dependency-free set is null. *)
Theorem root_action_failure_stops_planning :
  forall app render isMain root t v ps mm pp roi s,
    createExecutionDataInternal app render isMain root t v ps mm pp roi = Ok s ->
    isFailureRetCode (state render) = false ->
    let clone := createRenderClone app root t v in
    let planeStat := (getLayersProducedAndNeeded_public app clone t v).1 in
    let rodStat :=
      (getRegionOfDefinition_public app clone t (getCombinedScale app mm ps) v).1 in
    (forall p, pp = Some p -> exec_plane s = p)
    /\ (forall r, roi = Some r -> is_Some (dependencyFreeRenders s) ->
          exec_canonicalRoI s = r)
    /\ (pp = None -> isFailureRetCode planeStat = true ->
        status s = planeStat
        /\ dependencyFreeRenders s = None
        /\ allRenderTasksToProcess s = ∅)
    /\ ((pp = None -> isFailureRetCode planeStat = false) ->
        roi = None -> isFailureRetCode rodStat = true ->
        status s = rodStat
        /\ dependencyFreeRenders s = None
        /\ allRenderTasksToProcess s = ∅).
Proof.
  intros app render isMain root t v ps mm pp roi s H Hr clone planeStat rodStat.
  unfold createExecutionDataInternal in H. rewrite Hr in H.
  bind_inv H. bind_inv H. fold clone in Ha0, H.
  set (new := with_isMainExecutionOfTree isMain TreeRenderExecutionData_new) in *.
  assert (E0 : (forall p, pp = Some p -> exec_plane a0 = p /\ status a0 = status new)
               /\ (pp = None -> status a0 = planeStat)
               /\ dependencyFreeRenders a0 = None
               /\ allRenderTasksToProcess a0 = ∅).
  { destruct pp as [p|].
    - injection Ha0 as <-. split_and!; try done. by intros ? [= <-].
    - bind_inv Ha0. destruct a1 as [stat p]. injection Ha0 as <-.
      split_and!; try done. intros _. simpl.
      unfold getTreeRootPlane in Ha1. subst planeStat.
      destruct (getLayersProducedAndNeeded_public app clone t v) as [st res].
      simpl.
      destruct (isFailureRetCode st); [by injection Ha1 as <- _|].
      bind_inv Ha1. destruct res as [[|front layers]|]; by inversion Ha1. }
  destruct E0 as (Ep & Eps & Er0 & Ea0).
  destruct (isFailureRetCode (status a0)) eqn:Ef0.
  { injection H as <-. split_and!.
    - intros p Hp. by apply Ep.
    - intros r _ [? Hs]. congruence.
    - intros Hn _. by rewrite Eps.
    - intros Hok. destruct pp as [p|].
      + destruct (Ep p eq_refl) as [_ Es]. rewrite Es in Ef0. discriminate.
      + rewrite Eps, Hok in Ef0; done. }
  bind_inv H.
  assert (E1 : exec_plane a1 = exec_plane a0
               /\ (forall r, roi = Some r -> exec_canonicalRoI a1 = r)
               /\ (roi = None -> status a1 = rodStat)
               /\ dependencyFreeRenders a1 = None
               /\ allRenderTasksToProcess a1 = ∅).
  { destruct roi as [r|].
    - injection Ha1 as <-. split_and!; try done. by intros ? [= <-].
    - bind_inv Ha1. destruct a2 as [stat r]. injection Ha1 as <-.
      split_and!; try done. intros _. simpl.
      unfold getTreeRootRoD in Ha2. subst rodStat. fold clone in Ha2.
      destruct (getRegionOfDefinition_public app clone t _ v) as [st res].
      simpl. destruct (isFailureRetCode st); [by injection Ha2 as <- _|].
      bind_inv Ha2. destruct res; by inversion Ha2. }
  destruct E1 as (Epl & Eroi & Ers & Er1 & Ea1).
  assert (Hplane : forall p, pp = Some p -> exec_plane a1 = p).
  { intros p Hp. rewrite Epl. by apply Ep. }
  assert (Hnofail : pp = None -> isFailureRetCode planeStat = true -> False).
  { intros Hn Hfail. rewrite (Eps Hn), Hfail in Ef0. discriminate. }
  destruct (isFailureRetCode (status a1)) eqn:Ef1.
  { injection H as <-. split_and!; try done.
    - intros r _ [? Hs]. congruence.
    - intros Hn Hfail. by destruct (Hnofail Hn Hfail).
    - intros _ Hn _. by rewrite (Ers Hn). }
  assert (Hnofail1 : roi = None -> isFailureRetCode rodStat = true -> False).
  { intros Hn Hfail. rewrite (Ers Hn), Hfail in Ef1. discriminate. }
  bind_inv H.
  destruct (addTasksToRender_fields _ _ _ Ha2) as (_ & _ & F3 & F4 & _).
  simpl in F3, F4, H.
  assert (Hfinal : forall s1,
    exec_plane s1 = exec_plane a2 ->
    exec_canonicalRoI s1 = exec_canonicalRoI a2 ->
    (forall p, pp = Some p -> exec_plane s1 = p)
    /\ (forall r, roi = Some r -> is_Some (dependencyFreeRenders s1) ->
          exec_canonicalRoI s1 = r)
    /\ (pp = None -> isFailureRetCode planeStat = true ->
        status s1 = planeStat
        /\ dependencyFreeRenders s1 = None
        /\ allRenderTasksToProcess s1 = ∅)
    /\ ((pp = None -> isFailureRetCode planeStat = false) ->
        roi = None -> isFailureRetCode rodStat = true ->
        status s1 = rodStat
        /\ dependencyFreeRenders s1 = None
        /\ allRenderTasksToProcess s1 = ∅)).
  { intros s1 G1 G2. split_and!.
    - intros p Hp. rewrite G1, F4. by apply Hplane.
    - intros r Hroi _. rewrite G2, F3. by apply Eroi.
    - intros Hn Hfail. by destruct (Hnofail Hn Hfail).
    - intros _ Hn Hfail. by destruct (Hnofail1 Hn Hfail). }
  destruct (isFailureRetCode (pass_status _));
    [injection H as <-; by apply Hfinal|].
  destruct (dependencyFreeRenders a2); [|discriminate].
  simpl in H. bind_inv H.
  case_bool_decide; injection H as <-; by apply Hfinal.
Qed.

(** ** The render clones *)

Lemma setResults_renderClones h render request stat render' :
  setResults h render request stat = Ok render' ->
  renderClones render' = renderClones render.
Proof.
  unfold setResults. intros H.
  destruct request as [req|];
    [destruct (ctorArgs _); [|discriminate]; case_decide;
     [|destruct (_ !! _) as [[]|]] |];
    destruct (isFailureRetCode stat); inversion H; done.
Qed.

Lemma calls_renderClones h cs : forall render render',
  calls h render cs = Ok render' ->
  CallCleanupRenderClones ∉ cs ->
  renderClones render'
  = renderClones render
    ++ omap (fun c => match c with
                      | CallRegisterRenderClone holder => Some holder
                      | _ => None
                      end) cs.
Proof.
  induction cs as [|c cs IH]; simpl; intros render render' H Hn.
  - injection H as <-. by rewrite app_nil_r.
  - bind_inv H. apply not_elem_of_cons in Hn as [Hc Hn].
    rewrite (IH _ _ H Hn).
    destruct c; simpl in Ha; try (by injection Ha as <-).
    + by rewrite (setResults_renderClones _ _ _ _ _ Ha).
    + injection Ha as <-. simpl. by rewrite <- app_assoc.
Qed.

(** X17.  [cleanupRenderClones] forgets every render clone registered
    before it, whatever was called in between; the clones a tree render
    holds are those registered since the last [cleanupRenderClones], in
    the order of their registration. *)
Theorem cleanupRenderClones_forgets_earlier_clones :
  forall h cs1 cs2 render render',
    calls h render (cs1 ++ CallCleanupRenderClones :: cs2) = Ok render' ->
    CallCleanupRenderClones ∉ cs2 ->
    renderClones render'
    = omap (fun c => match c with
                     | CallRegisterRenderClone holder => Some holder
                     | _ => None
                     end) cs2.
Proof.
  intros h cs1 cs2 render render' H Hn.
  apply calls_app in H as (mid & _ & H). simpl in H.
  by rewrite (calls_renderClones _ _ _ _ H Hn).
Qed.

(** * The further properties on the sample graphs *)

(** X1, on the diamond: node 12 was given as an extra node and node 13
    was not. *)
Lemma create_requests_extra_nodes_witness :
  let app := sampleApp diamondPass allOK in
  let args := sampleArgs (sampleEffect 14) [12%positive] in
  exists render inArgs',
    create app args = Ok (render, inArgs')
    /\ isExtraResultsRequestedForNode render 12%positive = true
    /\ isExtraResultsRequestedForNode render 13%positive = false
    /\ getExtraRequestedResultsForNode render 12%positive = None.
Proof.
  intros app args.
  destruct (create app args) as [[render inArgs']|e] eqn:E;
    [|vm_compute in E; discriminate].
  exists render, inArgs'. split; [reflexivity|].
  assert (Hs : state render = eActionStatusOK)
    by (vm_compute in E; injection E as <- _; reflexivity).
  pose proof (create_requests_extra_nodes app args render inArgs'
                12%positive E Hs) as [H12 Hn].
  pose proof (create_requests_extra_nodes app args render inArgs'
                13%positive E Hs) as [H13 _].
  assert (Ha : extraNodesToSample args = [12%positive]) by reflexivity.
  split_and!; [by rewrite H12| by rewrite H13 |exact Hn].
Defined.

(** X2, on the diamond: a failure, then an abort, then a success. *)
Lemma tree_render_state_last_failure_witness :
  let h := requests (execution diamondWorld) in
  let cs := [CallSetResults (Some 2%positive) eActionStatusFailed;
             CallSetRenderAborted;
             CallSetResults None eActionStatusAborted;
             CallSetResults (Some 4%positive) eActionStatusOK] in
  exists render',
    calls h (treeRender diamondWorld) cs = Ok render'
    /\ state render' = eActionStatusAborted.
Proof.
  intros h cs.
  destruct (calls h (treeRender diamondWorld) cs) as [render'|e] eqn:E;
    [|vm_compute in E; discriminate].
  exists render'. split; [reflexivity|].
  by rewrite (proj1 (tree_render_state_last_failure h cs _ _ E)).
Defined.

(** X3, on the diamond: node 13 has no slot, and the result of request 3,
    of node 13, gives it none. *)
Lemma extra_slots_are_fixed_witness :
  let h := requests (execution diamondWorld) in
  let cs := [CallSetResults (Some 3%positive) eActionStatusOK;
             CallSetResults (Some 2%positive) eActionStatusOK] in
  exists render',
    calls h (treeRender diamondWorld) cs = Ok render'
    /\ isExtraResultsRequestedForNode render' 13%positive = false
    /\ getExtraRequestedResultsForNode render' 13%positive = None
    /\ isExtraResultsRequestedForNode render' 12%positive = true.
Proof.
  intros h cs.
  destruct (calls h (treeRender diamondWorld) cs) as [render'|e] eqn:E;
    [|vm_compute in E; discriminate].
  exists render'. split; [reflexivity|].
  destruct (extra_slots_are_fixed h cs _ _ 13%positive E) as [H13 Hn].
  destruct (extra_slots_are_fixed h cs _ _ 12%positive E) as [H12 _].
  split_and!; [by rewrite H13|by apply Hn|by rewrite H12].
Defined.


(** X5: the stroke remembers the GPU context 7; the pool would give 5. *)
Lemma painting_reuses_stroke_contexts_witness :
  let app := poolApp (fun _ => Ok (Some 5%positive))
               (fun _ => Ok (Some 6%positive))
               (fun _ => (Some 7%positive, None)) in
  exists render inArgs',
    create app (paintArgs sampleStroke) = Ok (render, inArgs')
    /\ openGLContext render = Some 7%positive
    /\ cpuOpenGLContext render = None.
Proof.
  intros app.
  destruct (create app (paintArgs sampleStroke)) as [[render inArgs']|e] eqn:E;
    [|vm_compute in E; discriminate].
  exists render, inArgs'. split; [reflexivity|].
  assert (Hs : state render = eActionStatusOK)
    by (vm_compute in E; injection E as <- _; reflexivity).
  destruct (painting_reuses_stroke_contexts app (paintArgs sampleStroke)
              render inArgs' sampleStroke (Some 7%positive) None
              E Hs eq_refl eq_refl eq_refl) as [H _].
  apply H. left. by eexists.
Defined.

(** X6, on the diamond: of the four tasks only request 1 has no
    dependency. *)
Lemma createExecutionDataInternal_plans_witness :
  let app := sampleApp diamondPass allOK in
  exists s,
    createExecutionDataInternal app (treeRender diamondWorld) true
      (sampleEffect 14) 0 0 1 0 None None = Ok s
    /\ allRenderTasksToProcess s = list_to_set [4; 2; 3; 1]%positive
    /\ (1%positive ∈ readySet s)
    /\ (2%positive ∉ readySet s)
    /\ exec_outputRequest s = Some 4%positive.
Proof.
  intros app.
  destruct (createExecutionDataInternal app (treeRender diamondWorld) true
              (sampleEffect 14) 0 0 1 0 None None) as [s|e] eqn:E;
    [|vm_compute in E; discriminate].
  exists s. split; [reflexivity|].
  assert (Hr : isFailureRetCode (state (treeRender diamondWorld)) = false)
    by (vm_compute; reflexivity).
  assert (Hs : isFailureRetCode (status s) = false)
    by (vm_compute in E; injection E as <-; reflexivity).
  destruct (createExecutionDataInternal_plans app _ _ _ _ _ _ _ _ _ s E Hr Hs)
    as (Ha & _ & Hready & _ & Ho & _).
  split_and!; [exact Ha| | |exact Ho].
  - apply Hready. split; [|vm_compute; reflexivity].
    change (1%positive ∈ [4; 2; 3; 1]%positive).
    do 3 right. left.
  - intros Hin. apply Hready in Hin as [_ Hd]. vm_compute in Hd. discriminate.
Defined.

(** X7, on the diamond: the tasks registered in another order, request 1
    twice. *)
Lemma addTasksToRender_order_irrelevant_witness :
  addTasksToRender [4; 2; 3; 1]%positive diamondUnplanned
  = addTasksToRender [1; 1; 2; 3; 4]%positive diamondUnplanned.
Proof.
  apply addTasksToRender_order_irrelevant.
  - vm_compute. constructor.
  - intros r. rewrite !elem_of_cons, !elem_of_nil. tauto.
Defined.

(** X8, on the diamond: the completion of request 1 makes its listeners 2
    and 3 ready, and not the root 4. *)
Lemma onTaskFinished_promotes_exactly_witness :
  let app := sampleApp diamondPass allOK in
  exists render' s',
    onTaskFinished app (treeRender diamondRunning) (execution diamondRunning)
      1%positive eActionStatusOK = Ok (render', s')
    /\ readySet (execution diamondRunning) = []
    /\ (2%positive ∈ readySet s')
    /\ (3%positive ∈ readySet s')
    /\ (4%positive ∉ readySet s').
Proof.
  intros app.
  destruct (onTaskFinished app (treeRender diamondRunning)
              (execution diamondRunning) 1%positive eActionStatusOK)
    as [[render' s']|e] eqn:E; [|vm_compute in E; discriminate].
  exists render', s'. split; [reflexivity|].
  assert (Hs : isFailureRetCode (status s') = false)
    by (vm_compute in E; injection E as _ <-; reflexivity).
  destruct (onTaskFinished_promotes_exactly app _ _ _ _ _ _ E Hs) as (Hp & _ & _).
  assert (Hd : forall l, getNumDependencies (requests s') l
                         = getNumDependencies
                             (requests (getWorld
                                (steps app diamondRunning
                                   [EvRunnableFinishes 1%positive]))
                                .(execution)) l).
  { intros l. vm_compute in E. injection E as _ <-. reflexivity. }
  split_and!.
  - vm_compute. reflexivity.
  - apply Hp. right. split; [vm_compute; by left|].
    rewrite Hd. vm_compute. reflexivity.
  - apply Hp. right. split; [vm_compute; right; by left|].
    rewrite Hd. vm_compute. reflexivity.
  - intros Hin. apply Hp in Hin as [Hin|[_ Hz]].
    + vm_compute in Hin. by apply elem_of_nil in Hin.
    + rewrite Hd in Hz. vm_compute in Hz. discriminate.
Defined.

(** X9, on the diamond: after request 1 is rendered, request 3 is queued
    in the pool and request 2 is held by a worker. *)
Lemma requests_in_flight_are_pending_witness :
  let app := sampleApp diamondPass allOK in
  let evs := [EvExecuteAvailableTasks (-1) 10; EvRunnableStarts 1;
              EvRunnableFinishes 1; EvExecuteAvailableTasks 2 10;
              EvRunnableStarts 2]%positive in
  let w := getWorld (steps app diamondWorld evs) in
  threadPool (execution w) = [3%positive]
  /\ (running w).*1 = [2%positive]
  /\ NoDup (threadPool (execution w) ++ (running w).*1)
  /\ hasTasksToExecute (execution w) = true.
Proof.
  intros app evs w.
  split; [vm_compute; reflexivity|].
  split; [vm_compute; reflexivity|].
  destruct (requests_in_flight_are_pending app (treeRender diamondWorld) true
              (sampleEffect 14) 0 0 1 0 None None (execution diamondWorld) evs w)
    as (Hnd & _ & Hh).
  - intros e t v ps mm p roi. apply well_wiredb_sound. vm_compute. reflexivity.
  - vm_compute. reflexivity.
  - vm_compute. reflexivity.
  - split; [exact Hnd|]. apply Hh. vm_compute. discriminate.
Defined.

(** X10, on the pair: a call with a budget of two starts both ready
    requests. *)
Lemma executeAvailableTasks_returns_witness :
  let app := sampleApp pairPass allOK in
  exists k render' s' started,
    executeAvailableTasks app 10 (treeRender pairWorld) (execution pairWorld) 2
    = Ok (k, render', s')
    /\ threadPool s' = threadPool (execution pairWorld) ++ started
    /\ k = Z.of_nat (length started)
    /\ k <= budget 2
    /\ (k = budget 2 \/ readySet s' = [])
    /\ scheduler_invariant s' [].
Proof.
  intros app.
  apply (executeAvailableTasks_returns app [] 10 (treeRender pairWorld)
           (execution pairWorld) 2).
  - exact pairWorld_invariant.
  - vm_compute. eexists. reflexivity.
  - lia.
  - unfold int32. lia.
  - vm_compute. lia.
Defined.

(** X11, on the pair after a failure: both ready requests are taken out
    without being rendered. *)
Lemma failed_execution_is_drained_witness :
  let app := sampleApp pairPass allOK in
  readySet pairFailed = [1; 2]%positive
  /\ exists render' s',
       executeAvailableTasks app 10 (treeRender pairWorld) pairFailed (-1)
       = Ok (0, render', s')
       /\ readySet s' = []
       /\ hasTasksToExecute s' = false
       /\ state render' = eActionStatusFailed.
Proof.
  intros app. split; [vm_compute; reflexivity|].
  destruct (failed_execution_is_drained app 10 (treeRender pairWorld)
              pairFailed (-1))
    as [(render' & s' & H & Hr & Ha & _ & _ & Hst) _].
  - vm_compute. reflexivity.
  - by left.
  - vm_compute. eexists. reflexivity.
  - vm_compute. lia.
  - exists render', s'. split_and!; [exact H|exact Hr| |].
    + unfold hasTasksToExecute. rewrite Ha. vm_compute. reflexivity.
    + rewrite Hst; [reflexivity|]. vm_compute. discriminate.
Defined.

(** X12, on the pair: a count of [-2] starts nothing although two
    requests are ready. *)
Lemma executeAvailableTasks_nothing_to_do_witness :
  let app := sampleApp pairPass allOK in
  readySet (execution pairWorld) = [1; 2]%positive
  /\ executeAvailableTasks app 0 (treeRender pairWorld) (execution pairWorld) (-2)
     = Ok (0, treeRender pairWorld, execution pairWorld).
Proof.
  intros app. split; [vm_compute; reflexivity|].
  apply (proj1 (executeAvailableTasks_nothing_to_do app 0 (treeRender pairWorld)
                  (execution pairWorld) (-2))).
  - lia.
  - right; right. lia.
Defined.

(** X13, on the pair: the root request 2 fails. *)
Lemma onTaskFinished_reports_to_tree_render_witness :
  let app := sampleApp pairPass allOK in
  exists render' s',
    onTaskFinished app (treeRender pairWorld) (execution pairWorld) 2%positive
      eActionStatusFailed = Ok (render', s')
    /\ status s' = eActionStatusFailed
    /\ state render' = eActionStatusFailed
    /\ (2%positive ∉ allRenderTasksToProcess s')
    /\ outputRequest render' = Some 2%positive.
Proof.
  intros app.
  destruct (onTaskFinished app (treeRender pairWorld) (execution pairWorld)
              2%positive eActionStatusFailed)
    as [[render' s']|e] eqn:E; [|vm_compute in E; discriminate].
  exists render', s'. split; [reflexivity|].
  destruct (onTaskFinished_reports_to_tree_render app _ _ _ _ _ _ E)
    as (Hs & Hst & Hn & Ho).
  split_and!; [exact Hs| |exact Hn|].
  - rewrite Hst, Hs. reflexivity.
  - apply (Ho (sampleArgs (sampleEffect 12) [])); [vm_compute; reflexivity|].
    vm_compute in E. injection E as _ <-. vm_compute. reflexivity.
Defined.

(** X14, on the diamond: the slot of node 12 is empty and one
    sub-execution is planned for it. *)
Lemma extra_executions_cover_empty_slots_witness :
  let app := sampleApp diamondPass allOK in
  exists execData,
    getExtraRequestedResultsExecutionData app (treeRender diamondWorld)
    = Ok [execData]
    /\ emptySlots (treeRender diamondWorld) = [12%positive]
    /\ isMainExecutionOfTree execData = false.
Proof.
  intros app.
  destruct (getExtraRequestedResultsExecutionData app (treeRender diamondWorld))
    as [[|execData [|? ?]]|e] eqn:E; try (vm_compute in E; discriminate).
  exists execData. split; [reflexivity|]. split; [vm_compute; reflexivity|].
  destruct (extra_executions_cover_empty_slots app (treeRender diamondWorld))
    as (_ & _ & _ & H).
  destruct (H _ E) as [_ Hm]. by apply Forall_cons_1 in Hm as [Hm _].
Defined.

(** X15, on the diamond: after request 1 is rendered, requests 2 and 3 are
    ready, in this order, and a call with a budget of one starts request
    2. *)
Lemma executeAvailableTasks_starts_lowest_address_witness :
  let app := sampleApp diamondPass allOK in
  let evs := [EvExecuteAvailableTasks (-1) 10; EvRunnableStarts 1;
              EvRunnableFinishes 1]%positive in
  let w := getWorld (steps app diamondWorld evs) in
  readySet (execution w) = [2; 3]%positive
  /\ exists k render' s' started,
       executeAvailableTasks app 10 (treeRender w) (execution w) 1
       = Ok (k, render', s')
       /\ threadPool s' = threadPool (execution w) ++ 2%positive :: started
       /\ k = 1 + Z.of_nat (length started).
Proof.
  intros app evs w. split; [vm_compute; reflexivity|].
  destruct (executeAvailableTasks app 10 (treeRender w) (execution w) 1)
    as [[[k render'] s']|e] eqn:E; [|vm_compute in E; discriminate].
  destruct (executeAvailableTasks_starts_lowest_address app
              (treeRender diamondWorld) true (sampleEffect 14) 0 0 1 0 None None
              (execution diamondWorld) evs w) as [_ H].
  - vm_compute. reflexivity.
  - vm_compute. reflexivity.
  - destruct (H 2%positive [3%positive]) as [_ Hstart];
      [vm_compute; reflexivity|].
    destruct (Hstart 10%nat 1 k render' s' E) as (started & Hp & Hk).
    + unfold int32. lia.
    + by right.
    + reflexivity.
    + vm_compute. reflexivity.
    + vm_compute. reflexivity.
    + by exists k, render', s', started.
Defined.

(** X16: the root cannot tell its layers; with a plane given by the
    caller its region of definition fails instead. *)
Lemma root_action_failure_stops_planning_witness :
  let app := rootActionsApp eActionStatusFailed eActionStatusAborted in
  let p := {| planeId := 3; getNumComponents := 4 |} in
  exists s1 s2,
    createExecutionDataInternal app (treeRender pairWorld) true
      (sampleEffect 12) 0 0 1 0 None None = Ok s1
    /\ createExecutionDataInternal app (treeRender pairWorld) true
         (sampleEffect 12) 0 0 1 0 (Some p) None = Ok s2
    /\ status s1 = eActionStatusFailed
    /\ hasTasksToExecute s1 = false
    /\ exec_plane s2 = p
    /\ status s2 = eActionStatusAborted
    /\ dependencyFreeRenders s2 = None.
Proof.
  intros app p.
  destruct (createExecutionDataInternal app (treeRender pairWorld) true
              (sampleEffect 12) 0 0 1 0 None None) as [s1|e] eqn:E1;
    [|vm_compute in E1; discriminate].
  destruct (createExecutionDataInternal app (treeRender pairWorld) true
              (sampleEffect 12) 0 0 1 0 (Some p) None) as [s2|e] eqn:E2;
    [|vm_compute in E2; discriminate].
  exists s1, s2. split; [reflexivity|]. split; [reflexivity|].
  assert (Hr : isFailureRetCode (state (treeRender pairWorld)) = false)
    by (vm_compute; reflexivity).
  destruct (root_action_failure_stops_planning app _ _ _ _ _ _ _ _ _ s1 E1 Hr)
    as (_ & _ & H1 & _).
  destruct (root_action_failure_stops_planning app _ _ _ _ _ _ _ _ _ s2 E2 Hr)
    as (Hp & _ & _ & H2).
  destruct (H1 eq_refl eq_refl) as (Hs1 & _ & Ha1).
  destruct H2 as (Hs2 & Hr2 & _); [discriminate|reflexivity|reflexivity|].
  split_and!; [exact Hs1| |by apply Hp|exact Hs2|exact Hr2].
  unfold hasTasksToExecute. rewrite Ha1. vm_compute. reflexivity.
Defined.

(** X17, on the diamond: of three clones, the one registered before the
    cleanup is forgotten. *)
Lemma cleanupRenderClones_forgets_earlier_clones_witness :
  let h := requests (execution diamondWorld) in
  let cs1 := [CallRegisterRenderClone 1%positive] in
  let cs2 := [CallRegisterRenderClone 2%positive; CallSetRenderAborted;
              CallRegisterRenderClone 3%positive] in
  exists render',
    calls h (treeRender diamondWorld) (cs1 ++ CallCleanupRenderClones :: cs2)
    = Ok render'
    /\ renderClones render' = [2; 3]%positive.
Proof.
  intros h cs1 cs2.
  destruct (calls h (treeRender diamondWorld)
              (cs1 ++ CallCleanupRenderClones :: cs2)) as [render'|e] eqn:E;
    [|vm_compute in E; discriminate].
  exists render'. split; [reflexivity|].
  rewrite (cleanupRenderClones_forgets_earlier_clones h cs1 cs2 _ _ E);
    [reflexivity|].
  intros Hin. subst cs2.
  repeat (apply elem_of_cons in Hin as [Hin|Hin]; [discriminate|]).
  by apply elem_of_nil in Hin.
Defined.
